(** * Gold/silver ledger: FIFO valuation engine

    A shallow embedding of the ledger core of the application:
    - [recalculateAllData]    (the in-app FIFO replay),
    - [getInventorySnapshot]  (src/utils.ts),
    - [calculateStockAging], [calculateTurnoverStats],
      [performFullSystemAudit] (src/utils.ts).

    Numbers.  The source computes with JavaScript numbers.  They are
    embedded as exact rationals [Q]: every statement below is about the
    arithmetic the code writes down, not about binary rounding.  Where
    rounding or overflow would change more than the last digits of a
    figure (which branch a comparison with a tolerance takes, whether a
    result is finite), the statement is made for quantities on which
    binary arithmetic is exact ([binaryQuantities]) or for amounts that
    cannot overflow ([ordinaryAmount]).  The places where the source can
    leave the finite numbers are embedded with an explicit result: a
    division ([JsNum]) and the time of a date that the runtime cannot
    read ([None] for [NaN]).  Concrete inputs used in examples are
    integers or dyadic fractions, on which the exact and the binary
    computation agree.

    Strings.  Dates, identifiers and timestamps are [string]s, a
    character standing for one code unit; the source's [<=] on them is
    the lexicographic [String.leb].

    Runtime.  [localeCompare] and [Array.prototype.sort] belong to the
    runtime, not to the repository.  The definitions of [Runtime] take
    them as parameters; the definitions outside it fix the code-point
    order [String.compare] for the one and the stable insertion sort
    [sortBy] for the other. *)

From Stdlib Require Import QArith Qminmax Qround Qabs Lqa Lia.
From Stdlib Require Import Strings.String Strings.Ascii.
From Stdlib Require Import Sorting.Sorted Sorting.Permutation.
From stdpp Require Import list gmap strings.

Local Open Scope string_scope.
Local Open Scope list_scope.
Local Open Scope Q_scope.

(** ** Numbers *)

Definition Qltb (x y : Q) : bool := negb (Qle_bool y x).
Definition Qleb (x y : Q) : bool := Qle_bool x y.

Arguments Qltb : simpl never.
Arguments Qleb : simpl never.

(** A number is truthy in a JavaScript condition when it is not zero. *)
Definition truthyNum (x : Q) : bool := negb (Qeq_bool x 0).

(** [a || b] on numbers. *)
Definition orElse (a b : Q) : Q := if truthyNum a then a else b.

(** A string is truthy when it is not empty; an absent field is falsy. *)
Definition truthyStr (s : string) : bool :=
  match s with EmptyString => false | _ => true end.

Definition truthyOpt (o : option string) : bool :=
  match o with Some s => truthyStr s | None => false end.

(** The tolerance of the replay (0.0001 g) and of the snapshot loop
    (0.000001 g), as the source writes them. *)
Definition EPS_BATCH : Q := 1 # 10000.
Definition EPS_SNAPSHOT : Q := 1 # 1000000.

(** ** Data model *)

(** Modelled from the spec: the transaction kind of types.ts, which is not
    among the sources (ACQUIRE is ['PURCHASE'], DISPOSE is ['SALE'] in the
    code). *)
Inductive InvoiceType := PURCHASE | SALE.

(** One line of a sale's consumption trace.  The source renders each line
    to text, with [formatGrams] and [formatCurrency] (of
    [Intl.NumberFormat]) for its numbers; the embedding keeps the line's
    kind and the numbers handed to the formatters.  The text shows them
    rounded, to three and to two decimals: what a line shows is not
    embedded. *)
Inductive LogLine :=
| NoTimestampWarning
| Consumed (take : Q) (fromDate : string) (atCost : Q)
| StockoutWarning (unsold : Q).

(** Modelled from the spec: the [Invoice] type of types.ts, which is not
    among the sources.  The fields are those of the specification's
    Transaction under the names the code reads and writes; the three
    derived fields are optional. *)
Record Invoice := mkInvoice {
  id : string;
  date : string;
  type : InvoiceType;
  partyName : string;
  quantityGrams : Q;
  ratePerGram : Q;
  taxableAmount : Q;
  gstAmount : Q;
  totalAmount : Q;
  createdAt : option string;
  cogs : option Q;
  profit : option Q;
  fifoLog : option (list LogLine)
}.

(** Modelled from the spec: the [InventoryBatch] type of types.ts, which is
    not among the sources; the two fields called [id] and [date] in the
    code are [batchId] and [batchDate] here. *)
Record InventoryBatch := mkBatch {
  batchId : string;
  batchDate : string;
  originalQuantity : Q;
  remainingQuantity : Q;
  costPerGram : Q;
  closedDate : option string
}.

(** [{ ...inv, cogs, profit, fifoLog }] *)
Definition annotate (inv : Invoice) (c p : Q) (log : list LogLine) : Invoice :=
  {| id := id inv; date := date inv; type := type inv;
     partyName := partyName inv; quantityGrams := quantityGrams inv;
     ratePerGram := ratePerGram inv; taxableAmount := taxableAmount inv;
     gstAmount := gstAmount inv; totalAmount := totalAmount inv;
     createdAt := createdAt inv;
     cogs := Some c; profit := Some p; fifoLog := Some log |}.

Definition isPurchase (inv : Invoice) : bool :=
  match type inv with PURCHASE => true | SALE => false end.

(** ** Ordering *)

(** The comparator of [recalculateAllData] and [getInventorySnapshot]:
    date, then creation timestamp when both records carry one, then id.
    Here with the code-point order for [localeCompare]; with the
    collation as a parameter it is [Runtime.compareInvoices]. *)
Definition compareInvoices (a b : Invoice) : comparison :=
  match String.compare (date a) (date b) with
  | Eq =>
      let byId := String.compare (id a) (id b) in
      if truthyOpt (createdAt a) && truthyOpt (createdAt b) then
        match createdAt a, createdAt b with
        | Some ta, Some tb =>
            match String.compare ta tb with
            | Eq => byId
            | c => c
            end
        | _, _ => byId
        end
      else byId
  | c => c
  end.

(** The comparator of the audit's sort: the date alone. *)
Definition compareDates (a b : Invoice) : comparison :=
  String.compare (date a) (date b).

(** [Array.prototype.sort] is a stable sort.  For a comparator that is
    a total preorder the result of a stable sort is determined, and it
    is the result of the stable insertion sort below, which places an
    element after the elements that do not compare greater than it.  For
    other comparators the insertion sort is one possible runtime; with
    the sort as a parameter the engines are in [Runtime]. *)
Section Sort.
Context {A : Type} (cmp : A -> A -> comparison).

Fixpoint insertSorted (x : A) (l : list A) : list A :=
  match l with
  | [] => [x]
  | y :: l' =>
      match cmp x y with
      | Gt => y :: insertSorted x l'
      | _ => x :: y :: l'
      end
  end.

Fixpoint sortBy (l : list A) : list A :=
  match l with
  | [] => []
  | x :: l' => insertSorted x (sortBy l')
  end.
End Sort.

(** ** FIFO replay: [recalculateAllData]

    [currentInventory] holds the batch objects the call creates; it is
    embedded as the list of their current values, an update in place
    becoming a new list.  The objects themselves, with references and a
    heap that outlasts the call, are embedded further down. *)

(** The locals of one sale: [remainingToSell], [totalCOGS],
    [consumptionLog]. *)
Record SaleState := mkSale {
  remainingToSell : Q;
  totalCOGS : Q;
  consumptionLog : list LogLine
}.

(** The body of [if (batch.remainingQuantity > 0.0001) { ... }]. *)
Definition takeFromBatch (saleDate : string) (batch : InventoryBatch)
    (st : SaleState) : InventoryBatch * SaleState :=
  let take := Qmin (remainingQuantity batch) (remainingToSell st) in
  let left := remainingQuantity batch - take in
  let st' := {| remainingToSell := remainingToSell st - take;
                totalCOGS := totalCOGS st + take * costPerGram batch;
                consumptionLog := consumptionLog st ++
                  [Consumed take (batchDate batch) (costPerGram batch)] |} in
  if Qltb left EPS_BATCH then
    ({| batchId := batchId batch; batchDate := batchDate batch;
        originalQuantity := originalQuantity batch;
        remainingQuantity := 0;
        costPerGram := costPerGram batch;
        closedDate := Some saleDate |}, st')
  else
    ({| batchId := batchId batch; batchDate := batchDate batch;
        originalQuantity := originalQuantity batch;
        remainingQuantity := left;
        costPerGram := costPerGram batch;
        closedDate := closedDate batch |}, st').

(** [for (const batch of currentInventory) { if (remainingToSell <= 0) break; ... }] *)
Fixpoint consumeBatches (saleDate : string) (inventory : list InventoryBatch)
    (st : SaleState) : list InventoryBatch * SaleState :=
  match inventory with
  | [] => ([], st)
  | batch :: rest =>
      if Qleb (remainingToSell st) 0 then (inventory, st)
      else if Qltb EPS_BATCH (remainingQuantity batch) then
        let '(batch', st') := takeFromBatch saleDate batch st in
        let '(rest', st'') := consumeBatches saleDate rest st' in
        (batch' :: rest', st'')
      else
        let '(rest', st') := consumeBatches saleDate rest st in
        (batch :: rest', st')
  end.

Definition newBatch (inv : Invoice) : InventoryBatch :=
  {| batchId := id inv; batchDate := date inv;
     originalQuantity := quantityGrams inv;
     remainingQuantity := quantityGrams inv;
     costPerGram := ratePerGram inv;
     closedDate := None |}.

(** The [else] branch of the main loop: one SALE against the inventory. *)
Definition processSale (inv : Invoice) (currentInventory : list InventoryBatch)
    : list InventoryBatch * Invoice :=
  let log0 := if truthyOpt (createdAt inv) then [] else [NoTimestampWarning] in
  let '(inventory', st) :=
    consumeBatches (date inv) currentInventory
      {| remainingToSell := quantityGrams inv; totalCOGS := 0;
         consumptionLog := log0 |} in
  let log :=
    if Qltb EPS_BATCH (remainingToSell st)
    then consumptionLog st ++ [StockoutWarning (remainingToSell st)]
    else consumptionLog st in
  let p := orElse (taxableAmount inv) (quantityGrams inv * ratePerGram inv)
           - totalCOGS st in
  (inventory', annotate inv (totalCOGS st) p log).

(** One iteration of [for (const inv of sorted)], on the pair
    (currentInventory, processedInvoices). *)
Definition replayStep (s : list InventoryBatch * list Invoice) (inv : Invoice)
    : list InventoryBatch * list Invoice :=
  let '(currentInventory, processedInvoices) := s in
  match type inv with
  | PURCHASE =>
      (currentInventory ++ [newBatch inv],
       processedInvoices ++ [annotate inv 0 0 []])
  | SALE =>
      let '(inventory', inv') := processSale inv currentInventory in
      (inventory', processedInvoices ++ [inv'])
  end.

Record ReplayResult := mkReplay {
  updatedInvoices : list Invoice;
  updatedInventory : list InventoryBatch
}.

Definition recalculateAllData (allInvoices : list Invoice) : ReplayResult :=
  let sorted := sortBy compareInvoices allInvoices in
  let '(currentInventory, processedInvoices) :=
    fold_left replayStep sorted ([], []) in
  {| updatedInvoices := processedInvoices;
     updatedInventory := currentInventory |}.

(** The live totals the application derives from the batch list. *)
Definition sumQ (l : list Q) : Q := fold_right Qplus 0 l.

Definition currentStock (inventory : list InventoryBatch) : Q :=
  fold_left (fun acc batch => acc + remainingQuantity batch) inventory 0.

Definition fifoValue (inventory : list InventoryBatch) : Q :=
  fold_left (fun acc batch => acc + remainingQuantity batch * costPerGram batch)
    inventory 0.

(** ** Snapshot: [getInventorySnapshot] *)

(** A [while] loop runs on fuel: [None] when the fuel is used up while the
    guard still holds. *)
Section While.
Context {St : Type} (guard : St -> bool) (body : St -> St).

Fixpoint while (fuel : nat) (s : St) : option St :=
  match fuel with
  | O => if guard s then None else Some s
  | S fuel' => if guard s then while fuel' (body s) else Some s
  end.
End While.

(** The snapshot's lightweight batches: [{ quantity, cost }]. *)
Record SnapBatch := mkSnapBatch {
  quantity : Q;
  cost : Q
}.

(** The variables of the inner loop: [remainingToSell] and [batches]. *)
Definition SellLoop : Type := Q * list SnapBatch.

(** [remainingToSell > 0.000001 && batches.length > 0] *)
Definition sellGuard (s : SellLoop) : bool :=
  Qltb EPS_SNAPSHOT (fst s) && negb (Nat.eqb (length (snd s)) 0).

(** The body of the inner loop, on [currentBatch = batches[0]]. *)
Definition sellBody (s : SellLoop) : SellLoop :=
  match snd s with
  | [] => s
  | currentBatch :: rest =>
      if Qltb (fst s) (quantity currentBatch) then
        (0, {| quantity := quantity currentBatch - fst s;
               cost := cost currentBatch |} :: rest)
      else
        (fst s - quantity currentBatch, rest)
  end.

(** The variables of the outer loop: [batches] and [totalQuantity]. *)
Record SnapState := mkSnapState {
  batches : list SnapBatch;
  totalQuantity : Q
}.

Definition snapshotStep (fuel : nat) (s : SnapState) (inv : Invoice)
    : option SnapState :=
  match type inv with
  | PURCHASE =>
      Some {| batches := batches s ++
                [{| quantity := quantityGrams inv; cost := ratePerGram inv |}];
              totalQuantity := totalQuantity s + quantityGrams inv |}
  | SALE =>
      match while sellGuard sellBody fuel (quantityGrams inv, batches s) with
      | Some (_, batches') =>
          Some {| batches := batches';
                  totalQuantity := totalQuantity s - quantityGrams inv |}
      | None => None
      end
  end.

Fixpoint snapshotLoop (fuel : nat) (relevantInvoices : list Invoice)
    (s : SnapState) : option SnapState :=
  match relevantInvoices with
  | [] => Some s
  | inv :: rest =>
      match snapshotStep fuel s inv with
      | Some s' => snapshotLoop fuel rest s'
      | None => None
      end
  end.

Record Snapshot := mkSnapshot {
  grams : Q;
  value : Q
}.

Definition snapshotValue (bs : list SnapBatch) : Q :=
  fold_left (fun sum batch => sum + quantity batch * cost batch) bs 0.

(** [fuel] bounds the iterations of each run of the inner loop. *)
Definition getInventorySnapshot (fuel : nat) (invoices : list Invoice)
    (targetDate : string) : option Snapshot :=
  let relevantInvoices :=
    sortBy compareInvoices
      (List.filter (fun inv => String.leb (date inv) targetDate) invoices) in
  match snapshotLoop fuel relevantInvoices
          {| batches := []; totalQuantity := 0 |} with
  | Some s =>
      Some {| grams := Qmax 0 (totalQuantity s);
              value := snapshotValue (batches s) |}
  | None => None
  end.

Definition calculateInventoryValueOnDate (fuel : nat) (invoices : list Invoice)
    (targetDate : string) : option Q :=
  match getInventorySnapshot fuel invoices targetDate with
  | Some snap => Some (value snap)
  | None => None
  end.

(** ** Division *)

(** The result of a JavaScript division of finite numbers: a finite
    number, or one of the values a zero divisor produces. *)
Inductive JsNum :=
| Fin (q : Q)
| PosInfinity
| NegInfinity
| NaN.

Definition jsDiv (a b : Q) : JsNum :=
  if Qeq_bool b 0 then
    if Qeq_bool a 0 then NaN
    else if Qltb 0 a then PosInfinity else NegInfinity
  else Fin (a / b).

(** [x > 0] *)
Definition jsPositive (x : JsNum) : bool :=
  match x with
  | Fin q => Qltb 0 q
  | PosInfinity => true
  | NegInfinity | NaN => false
  end.

(** [a / x] for a finite [a]. *)
Definition jsDivBy (a : Q) (x : JsNum) : JsNum :=
  match x with
  | Fin q => jsDiv a q
  | PosInfinity | NegInfinity => Fin 0
  | NaN => NaN
  end.

(** [x / y] when [x] may be [NaN]: the quotient of [NaN] by anything is
    [NaN]. *)
Definition jsQuotient (x : option Q) (y : JsNum) : JsNum :=
  match x with
  | Some a => jsDivBy a y
  | None => NaN
  end.

Definition isFinite (x : JsNum) : bool :=
  match x with Fin _ => true | _ => false end.

(** ** Analytics take the clock from outside

    [getTime s] is [new Date(s).getTime()]: the milliseconds since 1970
    when the runtime can read [s] as a date, and [None] for the [NaN] of
    an invalid date (an empty string, for one).  [now] is
    [new Date().getTime()], which is always a number.  A number that may
    be [NaN] but not infinite is an [option]. *)

Definition MS_PER_DAY : Q := 86400000.

(** Modelled from the spec: the [AgingStats] type of types.ts, as
    [calculateStockAging] builds it. *)
Record AgingStats := mkAging {
  buckets : gmap string Q;
  weightedAvgDays : JsNum
}.

(** [buckets[key] += x] *)
Definition addToBucket (key : string) (x : Q) (m : gmap string Q)
    : gmap string Q :=
  <[key := default 0 (m !! key) + x]> m.

Definition emptyBuckets : gmap string Q :=
  <["0-7" := 0]> (<["8-15" := 0]> (<["16-30" := 0]> (<["30+" := 0]> ∅))).

Record AgingAcc := mkAgingAcc {
  accBuckets : gmap string Q;
  totalDaysWeighted : option Q;
  totalStock : Q
}.

(** [x + d * q] where [x] and [d] may be [NaN]. *)
Definition addWeighted (x : option Q) (d : option Z) (q : Q) : option Q :=
  match x, d with
  | Some a, Some days => Some (a + inject_Z days * q)
  | _, _ => None
  end.

Section Aging.
Variable getTime : string -> option Z.
Variable now : Z.

(** [Math.ceil(Math.abs(now - batchDate) / (1000 * 60 * 60 * 24))] *)
Definition diffDays (batch : InventoryBatch) : option Z :=
  match getTime (batchDate batch) with
  | Some t => Some (Qceiling (inject_Z (Z.abs (now - t)) / MS_PER_DAY))
  | None => None
  end.

(** The chain of [if (diffDays <= ...)]: every comparison with [NaN] is
    false, which leaves the last branch. *)
Definition bucketOf (days : option Z) : string :=
  match days with
  | Some d =>
      if (d <=? 7)%Z then "0-7"
      else if (d <=? 15)%Z then "8-15"
      else if (d <=? 30)%Z then "16-30"
      else "30+"
  | None => "30+"
  end.

(** The callback of [inventory.forEach]. *)
Definition agingStep (acc : AgingAcc) (batch : InventoryBatch) : AgingAcc :=
  if Qleb (remainingQuantity batch) 0 then acc
  else
    let d := diffDays batch in
    {| accBuckets :=
         addToBucket (bucketOf d) (remainingQuantity batch) (accBuckets acc);
       totalDaysWeighted :=
         addWeighted (totalDaysWeighted acc) d (remainingQuantity batch);
       totalStock := totalStock acc + remainingQuantity batch |}.

Definition calculateStockAging (inventory : list InventoryBatch) : AgingStats :=
  let acc := fold_left agingStep inventory
               {| accBuckets := emptyBuckets;
                  totalDaysWeighted := Some 0; totalStock := 0 |} in
  {| buckets := accBuckets acc;
     weightedAvgDays :=
       if Qltb 0 (totalStock acc)
       then jsQuotient (totalDaysWeighted acc) (Fin (totalStock acc))
       else Fin 0 |}.
End Aging.

(** The batches the aging computation does not skip. *)
Definition activeBatches (inventory : list InventoryBatch)
    : list InventoryBatch :=
  List.filter (fun b => Qltb 0 (remainingQuantity b)) inventory.

Definition bucketGrams (m : gmap string Q) (key : string) : Q :=
  default 0 (m !! key).

(** Modelled from the spec: the [TurnoverStats] type of types.ts, as
    [calculateTurnoverStats] builds it ([periodCOGS] is its [totalCOGS]). *)
Record TurnoverStats := mkTurnover {
  turnoverRatio : JsNum;
  avgDaysToSell : JsNum;
  avgInventoryValue : Q;
  periodCOGS : Q
}.

Section Turnover.
Variable getTime : string -> option Z.

(** [Math.max(1, (end.getTime() - start.getTime()) / (1000 * 3600 * 24))]:
    [NaN] when either date is invalid. *)
Definition daysInPeriod (startDate endDate : string) : option Q :=
  match getTime endDate, getTime startDate with
  | Some e, Some s => Some (Qmax 1 (inject_Z (e - s) / MS_PER_DAY))
  | _, _ => None
  end.

Definition calculateTurnoverStats (fuel : nat) (invoices : list Invoice)
    (startDate endDate : string) : option TurnoverStats :=
  let periodInvoices :=
    List.filter (fun i => String.leb startDate (date i)
                          && String.leb (date i) endDate) invoices in
  let sales := List.filter (fun i => negb (isPurchase i)) periodInvoices in
  let totalCogs :=
    fold_left (fun acc s => acc + orElse (default 0 (cogs s)) 0) sales 0 in
  match calculateInventoryValueOnDate fuel invoices startDate,
        calculateInventoryValueOnDate fuel invoices endDate with
  | Some startInventoryVal, Some endInventoryVal =>
      let avgValue := (startInventoryVal + endInventoryVal) / 2 in
      let ratio :=
        if Qltb 0 avgValue then jsDiv totalCogs avgValue else Fin 0 in
      let days :=
        if jsPositive ratio
        then jsQuotient (daysInPeriod startDate endDate) ratio
        else Fin 0 in
      Some {| turnoverRatio := ratio; avgDaysToSell := days;
              avgInventoryValue := avgValue; periodCOGS := totalCogs |}
  | _, _ => None
  end.
End Turnover.

(** ** Audit: [performFullSystemAudit] *)

(** An entry of [dataIntegrityIssues]: the kind of the message and the
    numbers it prints. *)
Inductive Issue :=
| StockMismatch (calculated expected : Q)
| NegativeStock (instances : nat)
| DataIntegrity (records : nat).

(** Modelled from the spec: the [AuditReport] type of types.ts, as
    [performFullSystemAudit] builds it. *)
Record AuditReport := mkAudit {
  generatedAt : string;
  totalInvoices : nat;
  dataIntegrityIssues : list Issue;
  healthScore : Z;
  recalculatedStock : Q;
  recalculatedValue : Q
}.

(** [invoices.reduce(...)]: purchases minus sales. *)
Definition stockCheck (invoices : list Invoice) : Q :=
  fold_left (fun acc inv =>
               match type inv with
               | PURCHASE => acc + quantityGrams inv
               | SALE => acc - quantityGrams inv
               end) invoices 0.

(** The loop of check 2 on (runningStock, negativeStockCount). *)
Definition negativeStep (s : Q * nat) (inv : Invoice) : Q * nat :=
  let '(runningStock, negativeStockCount) := s in
  let runningStock' :=
    match type inv with
    | PURCHASE => runningStock + quantityGrams inv
    | SALE => runningStock - quantityGrams inv
    end in
  if Qltb runningStock' (- EPS_BATCH)
  then (runningStock', S negativeStockCount)
  else (runningStock', negativeStockCount).

Definition countNegativeStock (sorted : list Invoice) : nat :=
  snd (fold_left negativeStep sorted (0, O)).

(** The walk of check 2 as the audit performs it: sorted by date alone. *)
Definition auditNegativeStockCount (invoices : list Invoice) : nat :=
  countNegativeStock (sortBy compareDates invoices).

Definition invalidRecord (i : Invoice) : bool :=
  negb (truthyStr (partyName i)) || negb (truthyStr (date i))
  || Qleb (quantityGrams i) 0 || Qleb (ratePerGram i) 0.

(** [nowIso] is [new Date().toISOString()]. *)
Definition performFullSystemAudit (nowIso : string) (invoices : list Invoice)
    (currentStock currentValue : Q) : AuditReport :=
  let check := stockCheck invoices in
  let '(issues1, score1) :=
    if Qltb (1 # 1000) (Qabs (check - currentStock))
    then ([StockMismatch check currentStock], (100 - 20)%Z)
    else ([], 100%Z) in
  let negativeStockCount := auditNegativeStockCount invoices in
  let '(issues2, score2) :=
    if (0 <? negativeStockCount)%nat
    then (issues1 ++ [NegativeStock negativeStockCount], (score1 - 15)%Z)
    else (issues1, score1) in
  let missingFields := List.filter invalidRecord invoices in
  let '(issues3, score3) :=
    if (0 <? length missingFields)%nat
    then (issues2 ++ [DataIntegrity (length missingFields)], (score2 - 10)%Z)
    else (issues2, score2) in
  {| generatedAt := nowIso;
     totalInvoices := length invoices;
     dataIntegrityIssues := issues3;
     healthScore := Z.max 0 score3;
     recalculatedStock := check;
     recalculatedValue := currentValue |}.

(** ** The replay on a heap of batch objects

    The source creates one JavaScript object per purchase, keeps
    references to them in [currentInventory] and updates the objects in
    place.  Here the objects live in a heap that outlasts the call (it may
    hold the batches of earlier runs): a reference is an index into it. *)

Abbreviation Heap := (list InventoryBatch).
Abbreviation Ref := nat.

(** [const newBatch = { ... }] *)
Definition alloc (h : Heap) (b : InventoryBatch) : Heap * Ref :=
  (h ++ [b], length h).

(** The inner loop over the references of [currentInventory]; [None]
    stands for a reference to no object. *)
Fixpoint consumeRefs (saleDate : string) (refs : list Ref) (h : Heap)
    (st : SaleState) : option (Heap * SaleState) :=
  match refs with
  | [] => Some (h, st)
  | r :: rest =>
      if Qleb (remainingToSell st) 0 then Some (h, st)
      else
        match h !! r with
        | Some batch =>
            if Qltb EPS_BATCH (remainingQuantity batch) then
              let '(batch', st') := takeFromBatch saleDate batch st in
              consumeRefs saleDate rest (<[r := batch']> h) st'
            else consumeRefs saleDate rest h st
        | None => None
        end
  end.

(** The state of the main loop: the heap, [currentInventory] and
    [processedInvoices]. *)
Record HeapState := mkHeapState {
  heap : Heap;
  inventoryRefs : list Ref;
  processed : list Invoice
}.

Definition replayStepOnHeap (s : HeapState) (inv : Invoice) : option HeapState :=
  match type inv with
  | PURCHASE =>
      let '(h', r) := alloc (heap s) (newBatch inv) in
      Some {| heap := h'; inventoryRefs := inventoryRefs s ++ [r];
              processed := processed s ++ [annotate inv 0 0 []] |}
  | SALE =>
      let log0 :=
        if truthyOpt (createdAt inv) then [] else [NoTimestampWarning] in
      match consumeRefs (date inv) (inventoryRefs s) (heap s)
              {| remainingToSell := quantityGrams inv; totalCOGS := 0;
                 consumptionLog := log0 |} with
      | Some (h', st) =>
          let log :=
            if Qltb EPS_BATCH (remainingToSell st)
            then consumptionLog st ++ [StockoutWarning (remainingToSell st)]
            else consumptionLog st in
          let p := orElse (taxableAmount inv)
                     (quantityGrams inv * ratePerGram inv) - totalCOGS st in
          Some {| heap := h'; inventoryRefs := inventoryRefs s;
                  processed := processed s ++ [annotate inv (totalCOGS st) p log] |}
      | None => None
      end
  end.

Fixpoint replayLoopOnHeap (sorted : list Invoice) (s : HeapState)
    : option HeapState :=
  match sorted with
  | [] => Some s
  | inv :: rest =>
      match replayStepOnHeap s inv with
      | Some s' => replayLoopOnHeap rest s'
      | None => None
      end
  end.

(** One call of [recalculateAllData] on heap [h]: [currentInventory] and
    [processedInvoices] start empty. *)
Definition recalculateAllDataOnHeap (allInvoices : list Invoice) (h : Heap)
    : option HeapState :=
  replayLoopOnHeap (sortBy compareInvoices allInvoices)
    {| heap := h; inventoryRefs := []; processed := [] |}.

(** What the caller sees through the returned references. *)
Definition readRefs (h : Heap) (refs : list Ref) : list (option InventoryBatch) :=
  map (fun r => h !! r) refs.

(** ** Notions used to state the properties *)

(** The inner loop by recursion on the batch queue. *)
Fixpoint sellRec (need : Q) (bs : list SnapBatch) : SellLoop :=
  match bs with
  | [] => (need, [])
  | b :: rest =>
      if Qltb EPS_SNAPSHOT need then
        if Qltb need (quantity b) then
          (0, {| quantity := quantity b - need; cost := cost b |} :: rest)
        else sellRec (need - quantity b) rest
      else (need, bs)
  end.

(** One iteration of the snapshot's outer loop, with the inner loop run to
    its end. *)
Definition snapshotStepRec (s : SnapState) (inv : Invoice) : SnapState :=
  match type inv with
  | PURCHASE =>
      {| batches := batches s ++
           [{| quantity := quantityGrams inv; cost := ratePerGram inv |}];
         totalQuantity := totalQuantity s + quantityGrams inv |}
  | SALE =>
      {| batches := snd (sellRec (quantityGrams inv) (batches s));
         totalQuantity := totalQuantity s - quantityGrams inv |}
  end.

(** A batch the replay draws from: [remainingQuantity > 0.0001]. *)
Definition isOpen (b : InventoryBatch) : bool :=
  Qltb EPS_BATCH (remainingQuantity b).

(** The stock, and its cost, available to a sale in the open batches. *)
Definition openStock (inventory : list InventoryBatch) : Q :=
  sumQ (map remainingQuantity (List.filter isOpen inventory)).

Definition openCost (inventory : list InventoryBatch) : Q :=
  sumQ (map (fun b => remainingQuantity b * costPerGram b)
          (List.filter isOpen inventory)).

(** The invariant of a batch: its remaining quantity lies between zero and
    the original quantity, and it is the untouched original, exactly zero,
    or at least the tolerance. *)
Definition batchOK (b : InventoryBatch) : Prop :=
  0 <= remainingQuantity b
  /\ remainingQuantity b <= originalQuantity b
  /\ (remainingQuantity b = originalQuantity b
      \/ remainingQuantity b = 0
      \/ EPS_BATCH <= remainingQuantity b).

(** Quantities recorded in whole units of [u] grams. *)
Definition onGrid (u q : Q) : Prop := exists k : Z, q == inject_Z k * u.

Definition onGridb (u q : Q) : bool :=
  Qeq_bool (inject_Z (Qfloor (q / u)) * u) q.

(** A transaction of a positive whole number of units. *)
Definition wholeUnits (u : Q) (inv : Invoice) : bool :=
  Qltb 0 (quantityGrams inv) && onGridb u (quantityGrams inv).

(** The running stock of purchases minus sales never falls below zero
    along [sorted]: no sale exceeds the stock on hand. *)
Fixpoint neverOversoldFrom (stock : Q) (sorted : list Invoice) : bool :=
  match sorted with
  | [] => true
  | inv :: rest =>
      let stock' :=
        match type inv with
        | PURCHASE => stock + quantityGrams inv
        | SALE => stock - quantityGrams inv
        end in
      Qleb 0 stock' && neverOversoldFrom stock' rest
  end.

(** The replay's batch list as the snapshot sees it: the batches that
    still hold stock, reduced to quantity and cost. *)
Definition toSnap (b : InventoryBatch) : SnapBatch :=
  {| quantity := remainingQuantity b; cost := costPerGram b |}.

Definition inStock (b : InventoryBatch) : bool := Qltb 0 (remainingQuantity b).

Definition snapView (inventory : list InventoryBatch) : list SnapBatch :=
  map toSnap (List.filter inStock inventory).

Definition gridInv (u : Q) (b : InventoryBatch) : Prop :=
  onGrid u (remainingQuantity b) /\ 0 <= remainingQuantity b.

(** ** The runtime's collation and sort

    Two things the engines call are not code of the repository:
    [localeCompare], the collation of the runtime's locale, and
    [Array.prototype.sort], the runtime's sort routine.  The comparator
    the engines hand to the sort is not transitive (two records are
    compared by timestamp only when both carry one), and for such a
    comparator the language leaves the resulting order to the
    implementation.  In this module both are parameters:
    [localeCompare] answers [Lt], [Eq] or [Gt] for a negative, zero or
    positive result, and [arraySort cmp l] is [[...l].sort(cmp)].  The
    properties proved of these definitions assume of [arraySort] only
    that it returns its input rearranged, and so hold for whatever order
    it chooses.

    [compareInvoices], [recalculateAllData] and [getInventorySnapshot]
    above are these definitions for the code-point order
    [String.compare] and the stable insertion sort [sortBy]. *)
Module Runtime.
Section Runtime.
Variable localeCompare : string -> string -> comparison.
Variable arraySort :
  (Invoice -> Invoice -> comparison) -> list Invoice -> list Invoice.

(** The comparator of [recalculateAllData] and [getInventorySnapshot]. *)
Definition compareInvoices (a b : Invoice) : comparison :=
  match localeCompare (date a) (date b) with
  | Eq =>
      let byId := localeCompare (id a) (id b) in
      if truthyOpt (createdAt a) && truthyOpt (createdAt b) then
        match createdAt a, createdAt b with
        | Some ta, Some tb =>
            match localeCompare ta tb with
            | Eq => byId
            | c => c
            end
        | _, _ => byId
        end
      else byId
  | c => c
  end.

Definition recalculateAllData (allInvoices : list Invoice) : ReplayResult :=
  let sorted := arraySort compareInvoices allInvoices in
  let '(currentInventory, processedInvoices) :=
    fold_left replayStep sorted ([], []) in
  {| updatedInvoices := processedInvoices;
     updatedInventory := currentInventory |}.

Definition getInventorySnapshot (fuel : nat) (invoices : list Invoice)
    (targetDate : string) : option Snapshot :=
  let relevantInvoices :=
    arraySort compareInvoices
      (List.filter (fun inv => String.leb (date inv) targetDate) invoices) in
  match snapshotLoop fuel relevantInvoices
          {| batches := []; totalQuantity := 0 |} with
  | Some s =>
      Some {| grams := Qmax 0 (totalQuantity s);
              value := snapshotValue (batches s) |}
  | None => None
  end.

(** No sale exceeds the stock on hand, in the order in which the engines
    walk the transactions. *)
Definition neverOversold (invoices : list Invoice) : bool :=
  neverOversoldFrom 0 (arraySort compareInvoices invoices).
End Runtime.
End Runtime.

(** ** Quantities on which binary arithmetic is exact

    The engines add and subtract quantities in binary floating point.
    When every quantity is a whole number of units of [1 / 2^n] gram and
    the quantities together stay below [2^53] units, each of these sums
    and differences is a whole number of units below [2^53] and is
    computed without rounding: on such ledgers the exact arithmetic of
    this embedding is the arithmetic of the code.  With [n <= 13] the
    unit is more than the tolerance of 0.0001 g. *)
Definition binaryUnit (n : nat) : Q := 1 / inject_Z (2 ^ Z.of_nat n).

Definition binaryQuantities (n : nat) (invoices : list Invoice) : bool :=
  (n <=? 13)%nat
  && forallb (wholeUnits (binaryUnit n)) invoices
  && Qleb (sumQ (map quantityGrams invoices))
       (inject_Z (2 ^ 53) * binaryUnit n).

(** ** Amounts of ordinary size

    An amount is of ordinary size when it is zero or lies between a
    millionth and a million million in magnitude.  On transactions whose
    quantities, rates and costs are of ordinary size no sum, product or
    quotient the turnover computation forms is large or small enough to
    overflow. *)
Definition ordinaryAmount (x : Q) : bool :=
  Qeq_bool x 0
  || (Qleb (1 # 1000000) (Qabs x) && Qleb (Qabs x) 1000000000000).

Definition ordinaryRecord (inv : Invoice) : bool :=
  ordinaryAmount (quantityGrams inv)
  && ordinaryAmount (ratePerGram inv)
  && ordinaryAmount (default 0 (cogs inv)).

(** ** The aging claim in its own words

    The age of a batch as the specification words it: the whole days
    between the batch date and now, rounded up.  It is written on the
    elapsed milliseconds with integer division, apart from the code's
    [diffDays]; [ageRange] spells out the four ranges. *)
Definition ceilingDayAge (now t : Z) : Z :=
  ((Z.abs (now - t) + 86399999) / 86400000)%Z.

Definition ageRange (key : string) (age : Z) : bool :=
  (String.eqb key "0-7" && (0 <=? age)%Z && (age <=? 7)%Z)
  || (String.eqb key "8-15" && (8 <=? age)%Z && (age <=? 15)%Z)
  || (String.eqb key "16-30" && (16 <=? age)%Z && (age <=? 30)%Z)
  || (String.eqb key "30+" && (30 <? age)%Z).

Section AgingClaim.
Variable getTime : string -> option Z.
Variable now : Z.

(** The age of a batch whose date the runtime can read. *)
Definition batchAge (b : InventoryBatch) : option Z :=
  match getTime (batchDate b) with
  | Some t => Some (ceilingDayAge now t)
  | None => None
  end.

(** The batches of a bucket: those whose age lies in its range; a batch
    without a readable date is counted with the oldest. *)
Definition agedIn (key : string) (b : InventoryBatch) : bool :=
  match batchAge b with
  | Some age => ageRange key age
  | None => String.eqb key "30+"
  end.

Definition gramsAged (key : string) (l : list InventoryBatch) : Q :=
  sumQ (map remainingQuantity (List.filter (agedIn key) l)).

(** The sum of age times grams over [l], when every batch has an age. *)
Fixpoint weightedAgeSum (l : list InventoryBatch) : option Q :=
  match l with
  | [] => Some 0
  | b :: rest =>
      match batchAge b, weightedAgeSum rest with
      | Some age, Some sum => Some (inject_Z age * remainingQuantity b + sum)
      | _, _ => None
      end
  end.
(** What [totalDaysWeighted] holds after the batches [l], having started
    from [x]: a number when every age is one, [NaN] otherwise. *)
Definition daysWeightedAfter (x : option Q) (l : list InventoryBatch)
    (y : option Q) : Prop :=
  match x, weightedAgeSum l, y with
  | Some a, Some sum, Some c => c == a + sum
  | Some _, None, None => True
  | None, _, None => True
  | _, _, _ => False
  end.
End AgingClaim.

(** ** What a sale removes from the batches

    The grams by which a sale lowers the remaining quantities, and these
    grams at the cost of their batches, read off the batch list before
    and after the sale. *)
Fixpoint stockDrawn (before after : list InventoryBatch) : Q :=
  match before, after with
  | b :: rest, b' :: rest' =>
      (remainingQuantity b - remainingQuantity b') + stockDrawn rest rest'
  | _, _ => 0
  end.

Fixpoint costDrawn (before after : list InventoryBatch) : Q :=
  match before, after with
  | b :: rest, b' :: rest' =>
      (remainingQuantity b - remainingQuantity b') * costPerGram b
      + costDrawn rest rest'
  | _, _ => 0
  end.

(** ** Sample ledgers *)

Definition purchase (i d : string) (ts : option string) (q r : Q) : Invoice :=
  {| id := i; date := d; type := PURCHASE; partyName := "Bullion House";
     quantityGrams := q; ratePerGram := r; taxableAmount := q * r;
     gstAmount := 0; totalAmount := q * r; createdAt := ts;
     cogs := None; profit := None; fifoLog := None |}.

Definition sale (i d : string) (ts : option string) (q r taxable : Q) : Invoice :=
  {| id := i; date := d; type := SALE; partyName := "Walk-in";
     quantityGrams := q; ratePerGram := r; taxableAmount := taxable;
     gstAmount := 0; totalAmount := taxable; createdAt := ts;
     cogs := None; profit := None; fifoLog := None |}.

(** Scenario A of the specification: 100 g bought at 6000, 40 g sold for
    a taxable amount of 260000. *)
Definition ledgerA : list Invoice :=
  [ sale "s1" "2024-01-05" (Some "2024-01-05T10:00:00Z") 40 6500 260000;
    purchase "p1" "2024-01-01" (Some "2024-01-01T10:00:00Z") 100 6000 ].

(** A sale whose taxable amount is zero. *)
Definition ledgerZeroTaxable : list Invoice :=
  [ purchase "p1" "2024-01-01" (Some "2024-01-01T10:00:00Z") 10 6000;
    sale "s1" "2024-01-05" (Some "2024-01-05T10:00:00Z") 2 7000 0 ].

(** A ledger with malformed records: a zero and a negative quantity. *)
Definition ledgerMalformed : list Invoice :=
  [ purchase "p1" "2024-01-01" None (-3) 6000;
    sale "s1" "2024-01-02" None 5 6500 32500;
    purchase "p2" "2024-01-02" None 0 6000;
    sale "s2" "2024-01-03" None (-1) 6500 0 ].

(** The transaction list as the application hands it to the audit (newest
    first): 5 g bought and, later on the same day, 5 g sold. *)
Definition ledgerSameDay : list Invoice :=
  [ sale "b" "2024-03-01" (Some "2024-03-01T15:00:00Z") 5 6500 32500;
    purchase "a" "2024-03-01" (Some "2024-03-01T09:00:00Z") 5 6000 ].

(** One gram in stock, and a sale that exceeds it by 1/16384 g, less than
    the tolerance. *)
Definition saleSlightlyOver : Invoice :=
  sale "s1" "2024-01-05" (Some "2024-01-05T10:00:00Z") (16385 # 16384) 6500 6500.

Definition oneGramInStock : list InventoryBatch :=
  [ newBatch (purchase "p1" "2024-01-01" (Some "2024-01-01T10:00:00Z") 1 6000) ].

(** Scenario B of the specification: 10 g in stock, 15 g sold. *)
Definition saleFifteen : Invoice :=
  sale "s1" "2024-01-05" (Some "2024-01-05T10:00:00Z") 15 6500 97500.

Definition tenGramsInStock : list InventoryBatch :=
  [ newBatch (purchase "p1" "2024-01-01" (Some "2024-01-01T10:00:00Z") 10 6000) ].

(** 10 g bought, 15 g sold, then 5 g bought. *)
Definition ledgerOversold : list Invoice :=
  [ purchase "p1" "2024-01-01" (Some "2024-01-01T10:00:00Z") 10 6000;
    sale "s1" "2024-01-02" (Some "2024-01-02T10:00:00Z") 15 6500 97500;
    purchase "p2" "2024-01-03" (Some "2024-01-03T10:00:00Z") 5 6100 ].

(** A sale that leaves less than the tolerance in a batch: the replay sets
    the batch to zero, the snapshot keeps the residue of 1/16384 g. *)
Definition ledgerResidue : list Invoice :=
  [ purchase "p1" "2024-01-01" (Some "2024-01-01T10:00:00Z") 1 6000;
    sale "s1" "2024-01-02" (Some "2024-01-02T10:00:00Z") (16383 # 16384) 6500 6500 ].

(** Quarters of a gram: 2.5 g and 1.25 g bought, 3 g sold. *)
Definition ledgerQuarters : list Invoice :=
  [ purchase "p1" "2024-01-01" (Some "2024-01-01T10:00:00Z") (5 # 2) 6000;
    purchase "p2" "2024-01-02" (Some "2024-01-02T10:00:00Z") (5 # 4) 6100;
    sale "s1" "2024-01-05" (Some "2024-01-05T10:00:00Z") 3 6500 19500 ].

(** ** Notions used to state further properties of the replay *)

(** The fields of a transaction that the caller supplies. *)
Definition inputFields (inv : Invoice)
    : string * string * InvoiceType * string * (Q * Q * Q * Q * Q)
      * option string :=
  (id inv, date inv, type inv, partyName inv,
   (quantityGrams inv, ratePerGram inv, taxableAmount inv, gstAmount inv,
    totalAmount inv),
   createdAt inv).

(** The fields of a batch that are fixed when it is created. *)
Definition batchIdentity (b : InventoryBatch) : string * string * Q * Q :=
  (batchId b, batchDate b, originalQuantity b, costPerGram b).

(** A batch is marked closed exactly when it is empty; [isSaleDate] tells
    the dates a closed date may come from. *)
Definition closedIffEmpty (isSaleDate : string -> Prop) (b : InventoryBatch)
    : Prop :=
  (closedDate b = None /\ 0 < remainingQuantity b)
  \/ (remainingQuantity b = 0
      /\ exists d, closedDate b = Some d /\ isSaleDate d).

(** The grams a transaction adds to the stock: a purchase its quantity, a
    sale the negative of its quantity. *)
Definition signedGrams (inv : Invoice) : Q :=
  match type inv with
  | PURCHASE => quantityGrams inv
  | SALE => - quantityGrams inv
  end.

(** The transactions dated on or before the cutoff. *)
Definition upTo (cutoff : string) (invoices : list Invoice) : list Invoice :=
  List.filter (fun inv => String.leb (date inv) cutoff) invoices.

(** What the purchases among [invoices] cost. *)
Definition purchaseCost (invoices : list Invoice) : Q :=
  sumQ (map (fun inv => quantityGrams inv * ratePerGram inv)
          (List.filter isPurchase invoices)).

(** ** Objects used as dictionaries

    A plain JavaScript object keyed by strings, as the statistics
    functions use it: its own properties in the order of their creation.
    Not embedded: the properties every object inherits ([inheritedKeys]);
    a dictionary key with one of these names would find the inherited
    value, so the properties below assume that no key is one of them. *)

Definition inheritedKeys : list string :=
  [ "constructor"; "__proto__"; "hasOwnProperty"; "isPrototypeOf";
    "propertyIsEnumerable"; "toLocaleString"; "toString"; "valueOf";
    "__defineGetter__"; "__defineSetter__"; "__lookupGetter__";
    "__lookupSetter__" ].

Definition isInheritedKey (k : string) : bool :=
  existsb (String.eqb k) inheritedKeys.

Definition digitValue (c : ascii) : option N :=
  let n := N_of_ascii c in
  if (48 <=? n)%N && (n <=? 57)%N then Some (n - 48)%N else None.

Fixpoint digitsValue (s : string) (acc : N) : option N :=
  match s with
  | EmptyString => Some acc
  | String c rest =>
      match digitValue c with
      | Some d => digitsValue rest (10 * acc + d)%N
      | None => None
      end
  end.

(** A key is an array index when it is the decimal form, without leading
    zeros, of an integer below 2^32 - 1. *)
Definition arrayIndex (k : string) : option N :=
  match k with
  | EmptyString => None
  | String c rest =>
      if Ascii.eqb c "0"%char && negb (String.eqb rest EmptyString) then None
      else
        match digitsValue k 0 with
        | Some n => if (n <=? 4294967294)%N then Some n else None
        | None => None
        end
  end.

Section JsObject.
Context {V : Type}.

(** [o[k]] *)
Fixpoint getProp (o : list (string * V)) (k : string) : option V :=
  match o with
  | [] => None
  | (k', v) :: rest => if String.eqb k' k then Some v else getProp rest k
  end.

(** [o[k] = v]: an existing property keeps its place, a new one goes to
    the end. *)
Fixpoint setProp (o : list (string * V)) (k : string) (v : V)
    : list (string * V) :=
  match o with
  | [] => [(k, v)]
  | (k', v') :: rest =>
      if String.eqb k' k then (k', v) :: rest
      else (k', v') :: setProp rest k v
  end.

Definition isIndexKey (p : string * V) : bool :=
  match arrayIndex (fst p) with Some _ => true | None => false end.

Definition compareIndexKeys (p q : string * V) : comparison :=
  N.compare (default 0%N (arrayIndex (fst p))) (default 0%N (arrayIndex (fst q))).

(** [Object.entries(o)]: the array-index keys in ascending order, then
    the other keys in the order of their creation. *)
Definition objectEntries (o : list (string * V)) : list (string * V) :=
  sortBy compareIndexKeys (List.filter isIndexKey o)
  ++ List.filter (fun p => negb (isIndexKey p)) o.
End JsObject.

(** ** More results of JavaScript arithmetic *)

(** [Math.min(...l)] and [Math.max(...l)]. *)
Definition mathMin (l : list Q) : JsNum :=
  match l with
  | [] => PosInfinity
  | x :: rest => Fin (fold_left Qmin rest x)
  end.

Definition mathMax (l : list Q) : JsNum :=
  match l with
  | [] => NegInfinity
  | x :: rest => Fin (fold_left Qmax rest x)
  end.

(** [a - b] *)
Definition jsMinus (a b : JsNum) : JsNum :=
  match a, b with
  | NaN, _ | _, NaN => NaN
  | Fin x, Fin y => Fin (x - y)
  | PosInfinity, PosInfinity | NegInfinity, NegInfinity => NaN
  | PosInfinity, _ => PosInfinity
  | NegInfinity, _ => NegInfinity
  | Fin _, PosInfinity => NegInfinity
  | Fin _, NegInfinity => PosInfinity
  end.

(** ** Supplier statistics: [calculateSupplierStats] *)

(** The entries of the local [stats] object. *)
Record SupplierAcc := mkSupplierAcc {
  totalGrams : Q;
  totalCost : Q;
  count : nat;
  rates : list Q
}.

(** Modelled from the spec: the [SupplierStat] type of types.ts, as
    [calculateSupplierStats] builds it. *)
Record SupplierStat := mkSupplierStat {
  name : string;
  totalGramsPurchased : Q;
  avgRate : JsNum;
  minRate : JsNum;
  maxRate : JsNum;
  volatility : JsNum;
  txCount : nat
}.

(** The callback of [forEach]: create the entry if there is none, then
    add the purchase to it. *)
Definition supplierStep (stats : list (string * SupplierAcc)) (inv : Invoice)
    : list (string * SupplierAcc) :=
  let entry :=
    match getProp stats (partyName inv) with
    | Some data => data
    | None => {| totalGrams := 0; totalCost := 0; count := 0; rates := [] |}
    end in
  setProp stats (partyName inv)
    {| totalGrams := totalGrams entry + quantityGrams inv;
       totalCost := totalCost entry + quantityGrams inv * ratePerGram inv;
       count := count entry + 1;
       rates := rates entry ++ [ratePerGram inv] |}.

(** The callback of [map]. *)
Definition supplierStat (entry : string * SupplierAcc) : SupplierStat :=
  let '(n, data) := entry in
  let lo := mathMin (rates data) in
  let hi := mathMax (rates data) in
  {| name := n;
     totalGramsPurchased := totalGrams data;
     avgRate := if Qltb 0 (totalGrams data)
                then jsDiv (totalCost data) (totalGrams data) else Fin 0;
     minRate := lo;
     maxRate := hi;
     volatility := jsMinus hi lo;
     txCount := count data |}.

(** [(a, b) => b.totalGramsPurchased - a.totalGramsPurchased] *)
Definition compareByGramsDesc (a b : SupplierStat) : comparison :=
  Qcompare (totalGramsPurchased b) (totalGramsPurchased a).

Definition calculateSupplierStats (invoices : list Invoice) : list SupplierStat :=
  let stats := fold_left supplierStep (List.filter isPurchase invoices) [] in
  sortBy compareByGramsDesc (map supplierStat (objectEntries stats)).

(** The party names of the purchases are none of the inherited keys. *)
Definition ownSupplierKeys (invoices : list Invoice) : bool :=
  forallb (fun inv => negb (isInheritedKey (partyName inv)))
    (List.filter isPurchase invoices).

(** The purchases among [done] made from party [k]. *)
Definition purchasesFrom (k : string) (done : list Invoice) : list Invoice :=
  List.filter (fun p => String.eqb (partyName p) k) done.

(** What [stats] holds once the purchases [done] are processed: one entry
    per party, aggregating the purchases from that party in their order. *)
Definition supplierInv (done : list Invoice)
    (stats : list (string * SupplierAcc)) : Prop :=
  NoDup (map fst stats)
  /\ (forall k, In k (map fst stats) <-> purchasesFrom k done <> [])
  /\ (forall k data, getProp stats k = Some data ->
        rates data = map ratePerGram (purchasesFrom k done)
        /\ count data = length (purchasesFrom k done)
        /\ totalGrams data == sumQ (map quantityGrams (purchasesFrom k done))
        /\ totalCost data
           == sumQ (map (fun p => quantityGrams p * ratePerGram p)
                      (purchasesFrom k done))).

(** ** Loading: the merge of [loadData]

    [loadData] fetches the cloud orders ([null] when the database cannot
    be reached) and the locally stored invoices, chooses the orders to
    replay, and stores the replay's result in the application state.
    The two fetched collections are the arguments here. *)

(** The local variable [finalOrders] (the local orders when the database
    is unreachable). *)
Definition finalOrders (cloudOrders : option (list Invoice))
    (localOrders : list Invoice) : list Invoice :=
  match cloudOrders with
  | None => localOrders
  | Some cloud =>
      let cloudIds := map id cloud in
      let unsyncedLocalOrders :=
        List.filter (fun lo => negb (existsb (String.eqb (id lo)) cloudIds))
          localOrders in
      if Nat.eqb (length cloud) 0 && Nat.ltb 0 (length localOrders)
      then localOrders
      else if Nat.ltb 0 (length unsyncedLocalOrders)
           then cloud ++ unsyncedLocalOrders
           else cloud
  end.

(** What [loadData] hands to [setInvoices] and [setInventory]. *)
Definition loadData (cloudOrders : option (list Invoice))
    (localOrders : list Invoice) : list Invoice * list InventoryBatch :=
  let run := recalculateAllData (finalOrders cloudOrders localOrders) in
  (rev (updatedInvoices run), updatedInventory run).

(** ** The inventory table: [InventoryTable]

    Its [activeBatches] is the filter [activeBatches] above. *)
Module InventoryTable.

Definition historyBatches (batches : list InventoryBatch) : list InventoryBatch :=
  List.filter (fun b => Qeq_bool (remainingQuantity b) 0) batches.

Definition totalStock (batches : list InventoryBatch) : Q :=
  fold_left (fun acc b => acc + remainingQuantity b) (activeBatches batches) 0.

Definition totalValue (batches : list InventoryBatch) : Q :=
  fold_left (fun acc b => acc + remainingQuantity b * costPerGram b)
    (activeBatches batches) 0.

Definition avgCost (batches : list InventoryBatch) : JsNum :=
  if Qltb 0 (totalStock batches)
  then jsDiv (totalValue batches) (totalStock batches)
  else Fin 0.

(** [rate] is [parseFloat(marketRate)], [None] for [NaN]. *)
Definition hasRate (rate : option Q) : bool :=
  match rate with Some r => Qltb 0 r | None => false end.

Definition estimatedSalesValue (batches : list InventoryBatch)
    (rate : option Q) : Q :=
  match rate with
  | Some r => if Qltb 0 r then totalStock batches * r else 0
  | None => 0
  end.

Definition potentialProfit (batches : list InventoryBatch) (rate : option Q)
    : Q :=
  if hasRate rate
  then estimatedSalesValue batches rate - totalValue batches
  else 0.

End InventoryTable.

(** A consumption line of a trace. *)
Definition isConsumedLine (l : LogLine) : bool :=
  match l with Consumed _ _ _ => true | _ => false end.

(** ** Further sample data *)

(** A clock for the examples.  A string [YYYY-MM-DD] that names a day of
    the calendar is read as midnight UTC of that day, as [Date] reads it;
    the empty string is an invalid date.  The examples pass it nothing
    else. *)
Definition daysFromCivil (y m d : Z) : Z :=
  let y' := if (m <=? 2)%Z then (y - 1)%Z else y in
  let era := (y' / 400)%Z in
  let yoe := (y' - era * 400)%Z in
  let mp := ((m + 9) mod 12)%Z in
  let doy := ((153 * mp + 2) / 5 + d - 1)%Z in
  let doe := (yoe * 365 + yoe / 4 - yoe / 100 + doy)%Z in
  (era * 146097 + doe - 719468)%Z.

Definition daysInMonth (y m : Z) : Z :=
  if (m =? 2)%Z then
    if ((y mod 4 =? 0) && (negb (y mod 100 =? 0) || (y mod 400 =? 0)))%Z
    then 29%Z else 28%Z
  else if ((m =? 4) || (m =? 6) || (m =? 9) || (m =? 11))%Z then 30%Z
  else 31%Z.

Definition twoDigits (a b : ascii) : option Z :=
  match digitValue a, digitValue b with
  | Some x, Some y => Some (Z.of_N (10 * x + y))
  | _, _ => None
  end.

Definition sampleTime (s : string) : option Z :=
  match s with
  | String y1 (String y2 (String y3 (String y4 (String h1
      (String m1 (String m2 (String h2
        (String d1 (String d2 EmptyString))))))))) =>
      match twoDigits y1 y2, twoDigits y3 y4, twoDigits m1 m2,
            twoDigits d1 d2 with
      | Some yh, Some yl, Some m, Some d =>
          let y := (100 * yh + yl)%Z in
          if Ascii.eqb h1 "-" && Ascii.eqb h2 "-"
             && (1 <=? m)%Z && (m <=? 12)%Z
             && (1 <=? d)%Z && (d <=? daysInMonth y m)%Z
          then Some (daysFromCivil y m d * 86400000)%Z
          else None
      | _, _, _, _ => None
      end
  | _ => None
  end.

(** Two batches, of 10 g and of 5 g, for a sale of 12 g. *)
Definition twoBatches : list InventoryBatch :=
  [ newBatch (purchase "p1" "2024-01-01" None 10 6000);
    newBatch (purchase "p2" "2024-01-02" None 5 6100) ].

(** [twoBatches] and a third batch, of 3 g, whose date is blank. *)
Definition batchesWithUndated : list InventoryBatch :=
  twoBatches ++ [ newBatch (purchase "p3" "" None 3 6200) ].

(** Three records of one day: [cycleA] and [cycleC] carry a creation
    timestamp, [cycleB] does not. *)
Definition cycleA : Invoice :=
  purchase "1" "2024-02-01" (Some "2024-02-01T12:00:00Z") 1 6000.

Definition cycleB : Invoice := purchase "2" "2024-02-01" None 1 6000.

Definition cycleC : Invoice :=
  purchase "3" "2024-02-01" (Some "2024-02-01T08:00:00Z") 1 6000.

(** Purchases from two suppliers. *)
Definition ledgerSuppliers : list Invoice :=
  [ {| id := "p1"; date := "2024-01-01"; type := PURCHASE; partyName := "MMTC";
       quantityGrams := 10; ratePerGram := 6000; taxableAmount := 60000;
       gstAmount := 0; totalAmount := 60000; createdAt := None;
       cogs := None; profit := None; fifoLog := None |};
    {| id := "p2"; date := "2024-01-02"; type := PURCHASE; partyName := "77";
       quantityGrams := 30; ratePerGram := 6100; taxableAmount := 183000;
       gstAmount := 0; totalAmount := 183000; createdAt := None;
       cogs := None; profit := None; fifoLog := None |};
    {| id := "p3"; date := "2024-01-03"; type := PURCHASE; partyName := "MMTC";
       quantityGrams := 5; ratePerGram := 6200; taxableAmount := 31000;
       gstAmount := 0; totalAmount := 31000; createdAt := None;
       cogs := None; profit := None; fifoLog := None |};
    sale "s1" "2024-01-04" None 8 6500 52000 ].

(** A cloud copy and a local copy of one order, and an order that exists
    only locally. *)
Definition cloudCopy : list Invoice :=
  [ purchase "p1" "2024-01-01" (Some "2024-01-01T10:00:00Z") 10 6000 ].

Definition localCopy : list Invoice :=
  [ purchase "p1" "2024-01-01" None 10 6000;
    sale "s1" "2024-01-02" None 4 6500 26000 ].

(** [ledgerA] with stale annotations on every record. *)
Definition ledgerAStale : list Invoice :=
  map (fun inv => annotate inv 5 7 [StockoutWarning 1]) ledgerA.

(** * Properties *)

(** ** Comparisons on numbers *)

Lemma Qltb_true (x y : Q) : Qltb x y = true <-> x < y.
Proof.
  unfold Qltb. rewrite negb_true_iff. split; intros H.
  - apply Qnot_le_lt. intros Hle. apply Qle_bool_iff in Hle. congruence.
  - apply not_true_is_false. intros Hle. apply Qle_bool_iff in Hle.
    apply (Qlt_not_le _ _ H Hle).
Qed.

Lemma Qltb_false (x y : Q) : Qltb x y = false <-> y <= x.
Proof.
  unfold Qltb. rewrite negb_false_iff. apply Qle_bool_iff.
Qed.

Lemma Qleb_true (x y : Q) : Qleb x y = true <-> x <= y.
Proof. apply Qle_bool_iff. Qed.

Lemma Qleb_false (x y : Q) : Qleb x y = false <-> y < x.
Proof.
  unfold Qleb. split; intros H.
  - apply Qnot_le_lt. intros Hle. apply Qle_bool_iff in Hle. congruence.
  - apply not_true_is_false. intros Hle. apply Qle_bool_iff in Hle.
    apply (Qlt_not_le _ _ H Hle).
Qed.

(** Case analysis on one comparison of the goal, leaving the order fact
    among the hypotheses. *)
Ltac qcase_on c :=
  let H := fresh "Hc" in
  destruct c eqn:H;
  [ first [ apply Qltb_true in H | apply Qleb_true in H ]
  | first [ apply Qltb_false in H | apply Qleb_false in H ] ].

Ltac qcase :=
  match goal with
  | |- context [Qltb ?x ?y] => qcase_on (Qltb x y)
  | |- context [Qleb ?x ?y] => qcase_on (Qleb x y)
  end.

Lemma Qmin_cases (x y : Q) :
  (x <= y /\ Qmin x y == x) \/ (y <= x /\ Qmin x y == y).
Proof.
  destruct (Q.min_spec x y) as [[H1 H2] | [H1 H2]].
  - left. split; [apply Qlt_le_weak, H1 | exact H2].
  - right. split; assumption.
Qed.

(** ** The sort keeps the elements *)

Section SortFacts.
Context {A : Type} (cmp : A -> A -> comparison).

Lemma insertSorted_In (x y : A) (l : list A) :
  In y (insertSorted cmp x l) <-> y = x \/ In y l.
Proof.
  induction l as [| z l IH]; simpl.
  - intuition.
  - destruct (cmp x z); simpl; try rewrite IH; intuition.
Qed.

Lemma sortBy_In (y : A) (l : list A) : In y (sortBy cmp l) <-> In y l.
Proof.
  induction l as [| x l IH]; simpl; [tauto |].
  rewrite insertSorted_In, IH. intuition.
Qed.

Lemma insertSorted_length (x : A) (l : list A) :
  length (insertSorted cmp x l) = S (length l).
Proof.
  induction l as [| z l IH]; simpl; [reflexivity |].
  destruct (cmp x z); simpl; rewrite ?IH; reflexivity.
Qed.

Lemma sortBy_length (l : list A) : length (sortBy cmp l) = length l.
Proof.
  induction l as [| x l IH]; simpl; [reflexivity |].
  rewrite insertSorted_length, IH. reflexivity.
Qed.
Lemma insertSorted_Permutation (x : A) (l : list A) :
  Permutation (insertSorted cmp x l) (x :: l).
Proof.
  induction l as [| y l IH]; simpl; [reflexivity |].
  destruct (cmp x y); try reflexivity.
  rewrite IH. apply perm_swap.
Qed.

Lemma sortBy_Permutation (l : list A) :
  Permutation (sortBy cmp l) l.
Proof.
  induction l as [| x l IH]; simpl; [reflexivity |].
  rewrite insertSorted_Permutation. constructor. exact IH.
Qed.
End SortFacts.

(** The engines outside [Runtime] are those of [Runtime] for the
    code-point order and the insertion sort. *)
Lemma reference_runtime (fuel : nat) (invoices : list Invoice)
    (targetDate : string) :
  (forall a b, compareInvoices a b = Runtime.compareInvoices String.compare a b)
  /\ recalculateAllData invoices
     = Runtime.recalculateAllData String.compare (@sortBy Invoice) invoices
  /\ getInventorySnapshot fuel invoices targetDate
     = Runtime.getInventorySnapshot String.compare (@sortBy Invoice) fuel
         invoices targetDate.
Proof. repeat split. Qed.

(** The sample clock on the dates of the examples. *)
Example sampleTime_values :
  sampleTime "2024-01-01" = Some 1704067200000%Z
  /\ sampleTime "2024-01-02" = Some 1704153600000%Z
  /\ sampleTime "2024-01-05" = Some 1704412800000%Z
  /\ sampleTime "2024-02-29" = Some 1709164800000%Z
  /\ sampleTime "2023-02-29" = None
  /\ sampleTime "" = None.
Proof. vm_compute. repeat split. Qed.

Example scenarioA :
  map remainingQuantity (updatedInventory (recalculateAllData ledgerA)) = [60]
  /\ map cogs (updatedInvoices (recalculateAllData ledgerA))
     = [Some 0; Some (40 * 6000)]
  /\ map profit (updatedInvoices (recalculateAllData ledgerA))
     = [Some 0; Some (260000 - 40 * 6000)].
Proof. vm_compute. repeat split. Qed.

(** ** What the replay writes onto the transactions *)

Lemma processSale_eq (inv : Invoice) (inventory : list InventoryBatch) :
  let r := consumeBatches (date inv) inventory
             {| remainingToSell := quantityGrams inv; totalCOGS := 0;
                consumptionLog :=
                  if truthyOpt (createdAt inv) then [] else [NoTimestampWarning] |} in
  processSale inv inventory =
    (fst r,
     annotate inv (totalCOGS (snd r))
       (orElse (taxableAmount inv) (quantityGrams inv * ratePerGram inv)
        - totalCOGS (snd r))
       (if Qltb EPS_BATCH (remainingToSell (snd r))
        then consumptionLog (snd r) ++ [StockoutWarning (remainingToSell (snd r))]
        else consumptionLog (snd r))).
Proof.
  unfold processSale. simpl.
  destruct (consumeBatches _ _ _) as [inventory' st]. reflexivity.
Qed.

(** Every entry of [processedInvoices] was pushed by one iteration of the
    main loop. *)
Lemma replay_processed (sorted : list Invoice) :
  forall (s : list InventoryBatch * list Invoice) (x : Invoice),
    In x (snd (fold_left replayStep sorted s)) ->
    In x (snd s)
    \/ (exists inv, In inv sorted /\ type inv = PURCHASE
                    /\ x = annotate inv 0 0 [])
    \/ (exists inv inventory, In inv sorted /\ type inv = SALE
                    /\ x = snd (processSale inv inventory)).
Proof.
  induction sorted as [| inv sorted IH]; intros s x Hx; simpl in *.
  - left. exact Hx.
  - apply IH in Hx. destruct Hx as [Hx | [Hx | Hx]].
    + destruct s as [inventory processed]. unfold replayStep in Hx.
      destruct (type inv) eqn:Ht.
      * simpl in Hx. apply in_app_or in Hx. destruct Hx as [Hx | Hx].
        -- left. exact Hx.
        -- right. left. exists inv. simpl in Hx. intuition.
      * destruct (processSale inv inventory) as [inventory' inv'] eqn:Hp.
        simpl in Hx. apply in_app_or in Hx. destruct Hx as [Hx | Hx].
        -- left. exact Hx.
        -- right. right. exists inv, inventory. rewrite Hp. simpl in *.
           intuition.
    + right. left. destruct Hx as (i & Hi & Ht & He). exists i. intuition.
    + right. right. destruct Hx as (i & b & Hi & Ht & He). exists i, b.
      intuition.
Qed.

Lemma recalculateAllData_eq (allInvoices : list Invoice) :
  recalculateAllData allInvoices =
    {| updatedInvoices :=
         snd (fold_left replayStep (sortBy compareInvoices allInvoices) ([], []));
       updatedInventory :=
         fst (fold_left replayStep (sortBy compareInvoices allInvoices) ([], [])) |}.
Proof.
  unfold recalculateAllData.
  destruct (fold_left _ _ _) as [a b]. reflexivity.
Qed.

Lemma truthyNum_true (x : Q) : truthyNum x = true <-> ~ x == 0.
Proof.
  unfold truthyNum. rewrite negb_true_iff. split; intros H.
  - intros He. apply Qeq_bool_iff in He. congruence.
  - apply not_true_is_false. intros He. apply Qeq_bool_iff in He. tauto.
Qed.

(** C2, as stated, fails: on a sale of 2 g at a rate of 7000 whose taxable
    amount is 0, drawn from a batch that cost 6000, the replay annotates
    cost 12000 and profit 14000 - 12000 = 2000, not 0 - 12000. *)
Lemma C2_profit_zero_taxable_counterexample :
  exists inv',
    In inv' (updatedInvoices (recalculateAllData ledgerZeroTaxable))
    /\ type inv' = SALE
    /\ cogs inv' = Some 12000
    /\ profit inv' = Some (14000 - 12000)
    /\ ~ (14000 - 12000 == taxableAmount inv' - 12000).
Proof.
  exists (nth 1 (updatedInvoices (recalculateAllData ledgerZeroTaxable))
            (sale "" "" None 0 0 0)).
  vm_compute. repeat split; auto. discriminate.
Qed.

(** C2 (amended): the profit annotated onto a SALE is
    [(taxableAmount || quantityGrams * ratePerGram) - cogs]; it is the
    taxable amount minus the cost of goods sold whenever the taxable
    amount is not zero. *)
Theorem C2_profit_taxable_or_gross (invoices : list Invoice) (inv' : Invoice)
    (Hin : In inv' (updatedInvoices (recalculateAllData invoices)))
    (Hsale : type inv' = SALE) :
  exists c p,
    cogs inv' = Some c /\ profit inv' = Some p
    /\ p == orElse (taxableAmount inv') (quantityGrams inv' * ratePerGram inv') - c
    /\ (~ taxableAmount inv' == 0 -> p == taxableAmount inv' - c)
    /\ (taxableAmount inv' == 0 ->
        p == quantityGrams inv' * ratePerGram inv' - c).
Proof.
  rewrite recalculateAllData_eq in Hin. simpl in Hin.
  apply replay_processed in Hin. simpl in Hin.
  destruct Hin as [[] | [(inv & _ & Ht & He) | (inv & b & _ & Ht & He)]].
  - subst inv'. simpl in Hsale. congruence.
  - rewrite processSale_eq in He. simpl in He. subst inv'. simpl.
    eexists. eexists. split; [reflexivity |]. split; [reflexivity |].
    split; [reflexivity |]. unfold orElse. split; intros Hz.
    + apply truthyNum_true in Hz. rewrite Hz. reflexivity.
    + destruct (truthyNum (taxableAmount inv)) eqn:Hn; [| reflexivity].
      apply truthyNum_true in Hn. tauto.
Qed.

Lemma C2_profit_taxable_or_gross_witness :
  exists c p,
    Some (40 * 6000) = Some c /\ Some (260000 - 40 * 6000) = Some p
    /\ p == orElse 260000 (40 * 6500) - c
    /\ (~ 260000 == 0 -> p == 260000 - c)
    /\ (260000 == 0 -> p == 40 * 6500 - c).
Proof.
  exact (C2_profit_taxable_or_gross ledgerA
           (annotate (sale "s1" "2024-01-05" (Some "2024-01-05T10:00:00Z")
                        40 6500 260000)
              (40 * 6000) (260000 - 40 * 6000)
              [Consumed 40 "2024-01-01" 6000])
           ltac:(vm_compute; right; left; reflexivity)
           ltac:(reflexivity)).
Defined.

(** ** The snapshot's inner loop *)

Lemma sellGuard_zero (bs : list SnapBatch) : sellGuard (0, bs) = false.
Proof. reflexivity. Qed.

(** Each iteration drops the head of the queue or zeroes the amount left
    to sell, and in the second case the loop is over. *)
Lemma sellBody_progress (s : SellLoop) :
  sellGuard s = true ->
  (length (snd (sellBody s)) < length (snd s))%nat
  \/ (fst (sellBody s) = 0 /\ sellGuard (sellBody s) = false).
Proof.
  destruct s as [need bs]. unfold sellGuard, sellBody. simpl.
  destruct bs as [| b rest]; simpl.
  - rewrite andb_false_r. discriminate.
  - intros _. destruct (Qltb need (quantity b)); simpl.
    + right. split; reflexivity.
    + left. lia.
Qed.

Lemma while_sellRec (fuel : nat) :
  forall (need : Q) (bs : list SnapBatch),
    (length bs < fuel)%nat ->
    while sellGuard sellBody fuel (need, bs) = Some (sellRec need bs).
Proof.
  induction fuel as [| fuel IH]; intros need bs Hlen; [lia |].
  destruct bs as [| b rest].
  - simpl. unfold sellGuard. simpl. rewrite andb_false_r. reflexivity.
  - simpl. unfold sellGuard at 1. simpl. rewrite andb_true_r.
    destruct (Qltb EPS_SNAPSHOT need) eqn:Hg; [| reflexivity].
    unfold sellBody. simpl.
    destruct (Qltb need (quantity b)) eqn:Hq.
    + destruct fuel; simpl; reflexivity.
    + apply IH. simpl in Hlen. lia.
Qed.

Lemma sellRec_length (bs : list SnapBatch) :
  forall need, (length (snd (sellRec need bs)) <= length bs)%nat.
Proof.
  induction bs as [| b rest IH]; intros need; simpl; [lia |].
  destruct (Qltb EPS_SNAPSHOT need); simpl; [| lia].
  destruct (Qltb need (quantity b)); simpl; [lia |].
  specialize (IH (need - quantity b)). lia.
Qed.

Lemma snapshotLoop_rec (fuel : nat) (l : list Invoice) :
  forall s : SnapState,
    (length (batches s) + length l < fuel)%nat ->
    snapshotLoop fuel l s = Some (fold_left snapshotStepRec l s).
Proof.
  induction l as [| inv l IH]; intros s Hlen; simpl; [reflexivity |].
  simpl in Hlen. unfold snapshotStep, snapshotStepRec at 2.
  destruct (type inv).
  - apply IH. simpl. rewrite length_app. simpl. lia.
  - rewrite while_sellRec by lia.
    destruct (sellRec (quantityGrams inv) (batches s)) as [need' bs'] eqn:Hs.
    apply IH. simpl.
    pose proof (sellRec_length (batches s) (quantityGrams inv)) as Hl.
    rewrite Hs in Hl. simpl in Hl. lia.
Qed.

Lemma filter_length_bound {A : Type} (f : A -> bool) (l : list A) :
  (length (List.filter f l) <= length l)%nat.
Proof.
  induction l as [| x l IH]; simpl; [lia |].
  destruct (f x); simpl; lia.
Qed.

Lemma getInventorySnapshot_rec (fuel : nat) (invoices : list Invoice)
    (targetDate : string) :
  (length invoices < fuel)%nat ->
  getInventorySnapshot fuel invoices targetDate =
    let s := fold_left snapshotStepRec
               (sortBy compareInvoices
                  (List.filter (fun inv => String.leb (date inv) targetDate)
                     invoices))
               {| batches := []; totalQuantity := 0 |} in
    Some {| grams := Qmax 0 (totalQuantity s);
            value := snapshotValue (batches s) |}.
Proof.
  intros Hlen. unfold getInventorySnapshot.
  rewrite snapshotLoop_rec; [reflexivity |].
  simpl. rewrite sortBy_length.
  pose proof (filter_length_bound
                (fun inv => String.leb (date inv) targetDate) invoices).
  lia.
Qed.

Lemma replay_length (l : list Invoice) :
  forall s : list InventoryBatch * list Invoice,
    length (snd (fold_left replayStep l s)) = (length (snd s) + length l)%nat.
Proof.
  induction l as [| inv l IH]; intros [inventory processed]; simpl; [lia |].
  rewrite IH. unfold replayStep. destruct (type inv).
  - simpl. rewrite length_app. simpl. lia.
  - destruct (processSale inv inventory). simpl. rewrite length_app. simpl. lia.
Qed.

(** C9: the snapshot returns a result as soon as its inner loop may run
    once more than there are transactions, whatever the quantities; each
    iteration of that loop shortens the batch queue or zeroes the amount
    left to sell and thereby ends the loop; the replay, whose loops walk
    finite arrays, returns one annotated transaction per input. *)
Theorem C9_engines_return (fuel : nat) (invoices : list Invoice)
    (targetDate : string) (Hfuel : (length invoices < fuel)%nat) :
  (exists snap, getInventorySnapshot fuel invoices targetDate = Some snap)
  /\ length (updatedInvoices (recalculateAllData invoices)) = length invoices
  /\ (forall s : SellLoop,
        sellGuard s = true ->
        (length (snd (sellBody s)) < length (snd s))%nat
        \/ (fst (sellBody s) = 0 /\ sellGuard (sellBody s) = false)).
Proof.
  split; [| split].
  - rewrite getInventorySnapshot_rec by exact Hfuel. eexists. reflexivity.
  - rewrite recalculateAllData_eq. simpl. rewrite replay_length. simpl.
    apply sortBy_length.
  - apply sellBody_progress.
Qed.

Lemma C9_engines_return_witness :
  (exists snap, getInventorySnapshot 5 ledgerMalformed "2024-01-03" = Some snap)
  /\ length (updatedInvoices (recalculateAllData ledgerMalformed))
     = length ledgerMalformed
  /\ (forall s : SellLoop,
        sellGuard s = true ->
        (length (snd (sellBody s)) < length (snd s))%nat
        \/ (fst (sellBody s) = 0 /\ sellGuard (sellBody s) = false)).
Proof.
  apply (C9_engines_return 5 ledgerMalformed "2024-01-03").
  simpl. lia.
Defined.

(** ** Audit *)

(** C10: the report's [recalculatedValue] is the [currentValue] argument,
    whatever the transactions say; of the two live figures only the stock
    is recomputed ([recalculatedStock] is [stockCheck] of the raw
    transactions and does not depend on either argument). *)
Theorem C10_audit_value_is_argument (nowIso : string) (invoices : list Invoice)
    (stock v : Q) :
  recalculatedValue (performFullSystemAudit nowIso invoices stock v) = v
  /\ recalculatedStock (performFullSystemAudit nowIso invoices stock v)
     = stockCheck invoices.
Proof.
  unfold performFullSystemAudit.
  destruct (Qltb _ _); destruct (0 <? _)%nat; destruct (0 <? _)%nat;
    split; reflexivity.
Qed.

(** C4 fails on the code: the audit sorts by the date alone, so records of
    one day keep the order of the input.  On [ledgerSameDay] it walks the
    sale before the purchase and counts one negative instance, where the
    walk in the order of [compareInvoices] counts none. *)
Theorem C4_audit_order_is_date_only :
  sortBy compareDates ledgerSameDay = ledgerSameDay
  /\ map id (sortBy compareInvoices ledgerSameDay) = ["a"; "b"]
  /\ auditNegativeStockCount ledgerSameDay = 1%nat
  /\ countNegativeStock (sortBy compareInvoices ledgerSameDay) = 0%nat
  /\ dataIntegrityIssues
       (performFullSystemAudit "2024-03-02T00:00:00.000Z" ledgerSameDay 0 0)
     = [NegativeStock 1].
Proof. vm_compute. repeat split. Qed.

(** ** Turnover *)

Lemma jsDiv_nonzero (a b : Q) : ~ b == 0 -> jsDiv a b = Fin (a / b).
Proof.
  intros Hb. unfold jsDiv.
  destruct (Qeq_bool b 0) eqn:He; [| reflexivity].
  apply Qeq_bool_iff in He. tauto.
Qed.

Lemma jsDiv_positive (a b : Q) : 0 < b -> jsDiv a b = Fin (a / b).
Proof. intros Hb. apply jsDiv_nonzero. lra. Qed.

Lemma calculateInventoryValueOnDate_total (fuel : nat)
    (invoices : list Invoice) (targetDate : string) :
  (length invoices < fuel)%nat ->
  exists v, calculateInventoryValueOnDate fuel invoices targetDate = Some v.
Proof.
  intros Hlen. unfold calculateInventoryValueOnDate.
  rewrite getInventorySnapshot_rec by exact Hlen. eexists. reflexivity.
Qed.

Lemma jsPositive_Fin (q : Q) : jsPositive (Fin q) = Qltb 0 q.
Proof. reflexivity. Qed.

(** C8, as stated, fails: for a window whose start date is blank the
    runtime reads no date, the length of the window is [NaN], and with a
    positive turnover ratio (here 240000 / 180000) the days-to-sell are
    [NaN]. *)
Lemma C8_blank_start_date_counterexample :
  exists stats,
    calculateTurnoverStats sampleTime 3
      (updatedInvoices (recalculateAllData ledgerA)) "" "2024-01-05"
    = Some stats
    /\ sampleTime "" = None
    /\ jsPositive (turnoverRatio stats) = true
    /\ avgDaysToSell stats = NaN
    /\ isFinite (avgDaysToSell stats) = false.
Proof.
  eexists. split; [vm_compute; reflexivity |].
  repeat split.
Qed.

(** C8 (amended): the turnover computation returns; the ratio is 0 when
    the average inventory value is not positive, and the days-to-sell are
    0 when the ratio is not positive, for every window.  On transactions
    whose amounts are of ordinary size the ratio is a finite number, and
    so are the days-to-sell when the runtime can read both dates of the
    window; when it cannot read one of them and the ratio is positive,
    the days-to-sell are [NaN]. *)
Theorem C8_turnover_guards (getTime : string -> option Z) (fuel : nat)
    (invoices : list Invoice) (startDate endDate : string)
    (Hfuel : (length invoices < fuel)%nat) :
  exists stats,
    calculateTurnoverStats getTime fuel invoices startDate endDate = Some stats
    /\ (avgInventoryValue stats <= 0 -> turnoverRatio stats = Fin 0)
    /\ (jsPositive (turnoverRatio stats) = false ->
        avgDaysToSell stats = Fin 0)
    /\ (forallb ordinaryRecord invoices = true ->
        isFinite (turnoverRatio stats) = true
        /\ (getTime startDate <> None -> getTime endDate <> None ->
            isFinite (avgDaysToSell stats) = true))
    /\ (getTime startDate = None \/ getTime endDate = None ->
        jsPositive (turnoverRatio stats) = true ->
        avgDaysToSell stats = NaN).
Proof.
  unfold calculateTurnoverStats.
  destruct (calculateInventoryValueOnDate_total fuel invoices startDate Hfuel)
    as [v1 ->].
  destruct (calculateInventoryValueOnDate_total fuel invoices endDate Hfuel)
    as [v2 ->].
  eexists. split; [reflexivity |]. simpl.
  set (avg := (v1 + v2) / 2).
  set (total := fold_left _ _ 0).
  assert (Hratio :
            (if Qltb 0 avg then jsDiv total avg else Fin 0)
            = Fin (if Qltb 0 avg then total / avg else 0)).
  { destruct (Qltb 0 avg) eqn:Havg; [| reflexivity].
    apply Qltb_true in Havg. apply jsDiv_positive. exact Havg. }
  rewrite Hratio. rewrite jsPositive_Fin.
  set (ratio := if Qltb 0 avg then total / avg else 0).
  split; [| split; [| split]].
  - intros Hle. subst ratio.
    rewrite (proj2 (Qltb_false 0 avg) Hle). reflexivity.
  - intros ->. reflexivity.
  - intros _. split; [reflexivity |]. intros Hs He.
    destruct (Qltb 0 ratio) eqn:Hr; [| reflexivity].
    apply Qltb_true in Hr. unfold daysInPeriod.
    destruct (getTime endDate); [| contradiction].
    destruct (getTime startDate); [| contradiction].
    simpl. rewrite (jsDiv_positive _ _ Hr). reflexivity.
  - intros Hnone ->. unfold daysInPeriod.
    destruct Hnone as [-> | ->]; [destruct (getTime endDate) |]; reflexivity.
Qed.

Lemma C8_turnover_guards_witness :
  exists stats,
    calculateTurnoverStats sampleTime 3
      (updatedInvoices (recalculateAllData ledgerA))
      "2024-01-01" "2024-01-05" = Some stats
    /\ (avgInventoryValue stats <= 0 -> turnoverRatio stats = Fin 0)
    /\ (jsPositive (turnoverRatio stats) = false ->
        avgDaysToSell stats = Fin 0)
    /\ isFinite (turnoverRatio stats) = true
    /\ isFinite (avgDaysToSell stats) = true.
Proof.
  destruct (C8_turnover_guards sampleTime 3
              (updatedInvoices (recalculateAllData ledgerA))
              "2024-01-01" "2024-01-05")
    as (stats & Hs & Hratio & Hdays & Hfin & _).
  - vm_compute. lia.
  - exists stats. split; [exact Hs |]. split; [exact Hratio |].
    split; [exact Hdays |].
    destruct Hfin as [Hr Hd]; [vm_compute; reflexivity |].
    split; [exact Hr |]. apply Hd; vm_compute; discriminate.
Defined.

(** ** Stockout *)

Lemma openStock_cons (b : InventoryBatch) (rest : list InventoryBatch) :
  openStock (b :: rest) =
    if isOpen b then remainingQuantity b + openStock rest else openStock rest.
Proof. unfold openStock. simpl. destruct (isOpen b); reflexivity. Qed.

Lemma openCost_cons (b : InventoryBatch) (rest : list InventoryBatch) :
  openCost (b :: rest) =
    if isOpen b then remainingQuantity b * costPerGram b + openCost rest
    else openCost rest.
Proof. unfold openCost. simpl. destruct (isOpen b); reflexivity. Qed.

Lemma openStock_nonneg (inventory : list InventoryBatch) :
  0 <= openStock inventory.
Proof.
  induction inventory as [| b rest IH].
  - unfold openStock. simpl. lra.
  - rewrite openStock_cons. destruct (isOpen b) eqn:Ho; [| exact IH].
    apply Qltb_true in Ho. unfold EPS_BATCH in Ho. lra.
Qed.

(** The inner loop appends no stockout line to the trace. *)
Lemma consumeBatches_no_stockout_line (d : string)
    (inventory : list InventoryBatch) :
  forall (st : SaleState) (u : Q),
    In (StockoutWarning u) (consumptionLog (snd (consumeBatches d inventory st))) ->
    In (StockoutWarning u) (consumptionLog st).
Proof.
  induction inventory as [| b rest IH]; intros st u; simpl; [tauto |].
  destruct (Qleb (remainingToSell st) 0); [tauto |].
  destruct (Qltb EPS_BATCH (remainingQuantity b)).
  - destruct (takeFromBatch d b st) as [b' st'] eqn:Ht.
    destruct (consumeBatches d rest st') as [rest' st''] eqn:Hc.
    simpl. intros Hin.
    pose proof (IH st' u) as IH'. rewrite Hc in IH'. simpl in IH'.
    apply IH' in Hin.
    unfold takeFromBatch in Ht.
    destruct (Qltb _ EPS_BATCH); inversion Ht; subst st'; simpl in Hin;
      apply in_app_or in Hin; destruct Hin as [Hin | [Hin | []]];
      auto; discriminate.
  - destruct (consumeBatches d rest st) as [rest' st'] eqn:Hc.
    simpl. intros Hin.
    pose proof (IH st u) as IH'. rewrite Hc in IH'. simpl in IH'. auto.
Qed.

(** A sale larger than the open stock empties every open batch, pays for
    exactly that stock, and leaves the excess unsold. *)
Lemma consumeBatches_stockout (d : string) (inventory : list InventoryBatch) :
  forall st : SaleState,
    openStock inventory < remainingToSell st ->
    remainingToSell (snd (consumeBatches d inventory st))
      == remainingToSell st - openStock inventory
    /\ totalCOGS (snd (consumeBatches d inventory st))
      == totalCOGS st + openCost inventory
    /\ (forall b', In b' (fst (consumeBatches d inventory st)) ->
          (remainingQuantity b' = 0 /\ closedDate b' = Some d)
          \/ (In b' inventory /\ isOpen b' = false)).
Proof.
  induction inventory as [| b rest IH]; intros st Hover.
  - simpl. unfold openStock, openCost. simpl. repeat split; try lra.
    intros b' [].
  - pose proof (openStock_nonneg rest) as Hnn.
    rewrite openStock_cons in Hover. rewrite openStock_cons, openCost_cons.
    unfold isOpen in *. simpl.
    destruct (Qltb EPS_BATCH (remainingQuantity b)) eqn:Ho;
      [apply Qltb_true in Ho; unfold EPS_BATCH in Ho |];
      (qcase; [exfalso; lra |]).
    + unfold takeFromBatch.
      destruct (Qmin_cases (remainingQuantity b) (remainingToSell st))
        as [[Hle Hmin] | [Hle Hmin]]; [| lra].
      set (take := Qmin (remainingQuantity b) (remainingToSell st)) in *.
      qcase; [| unfold EPS_BATCH in *; lra].
      match goal with
      | |- context [consumeBatches d rest ?s] => specialize (IH s)
      end.
      destruct (consumeBatches d rest _) as [rest' st''].
      simpl in *.
      destruct IH as (IH1 & IH2 & IH3); [lra |].
      assert (Hmul : take * costPerGram b
                     == remainingQuantity b * costPerGram b)
        by (rewrite Hmin; reflexivity).
      repeat split; try lra.
      intros b' [<- | Hin]; [left; split; reflexivity |].
      destruct (IH3 b' Hin) as [H0 | [Hi Hc']]; [left; exact H0 |].
      right. split; [right; exact Hi | exact Hc'].
    + specialize (IH st Hover).
      destruct (consumeBatches d rest st) as [rest' st'].
      simpl in *. destruct IH as (IH1 & IH2 & IH3).
      repeat split; try lra.
      intros b' [<- | Hin]; [right; split; [left; reflexivity | exact Ho] |].
      destruct (IH3 b' Hin) as [H0 | [Hi Hc']]; [left; exact H0 |].
      right. split; [right; exact Hi | exact Hc'].
Qed.

(** C3, as stated, fails: the sale exceeds the stock of the open batches,
    yet its trace holds the consumption line alone. *)
Lemma C3_stockout_warning_counterexample :
  openStock oneGramInStock < quantityGrams saleSlightlyOver
  /\ fifoLog (snd (processSale saleSlightlyOver oneGramInStock))
     = Some [Consumed 1 "2024-01-01" 6000]
  /\ ~ (exists u,
          In (StockoutWarning u)
            (default [] (fifoLog (snd (processSale saleSlightlyOver oneGramInStock))))).
Proof.
  split; [vm_compute; reflexivity |]. split; [vm_compute; reflexivity |].
  intros [u Hu]. vm_compute in Hu. destruct Hu as [Hu | []]. discriminate.
Qed.

(** C3 (amended): a SALE whose quantity exceeds the stock of the open
    batches is completed; its cost of goods sold is the cost of that
    stock; every batch it drew from is left at exactly zero and closed,
    the others are untouched, so no remaining quantity turns negative;
    and its trace ends with a stockout line exactly when the excess is
    more than 0.0001 g. *)
Theorem C3_stockout_completes (inv : Invoice) (inventory : list InventoryBatch)
    (Hover : openStock inventory < quantityGrams inv) :
  let r := processSale inv inventory in
  let unsold := quantityGrams inv - openStock inventory in
  (exists c, cogs (snd r) = Some c /\ c == openCost inventory)
  /\ (exists log,
        fifoLog (snd r) = Some log
        /\ (EPS_BATCH < unsold ->
            exists u, last log = Some (StockoutWarning u)
                      /\ u == unsold)
        /\ (unsold <= EPS_BATCH -> forall u, ~ In (StockoutWarning u) log))
  /\ (forall b', In b' (fst r) ->
        (remainingQuantity b' = 0 /\ closedDate b' = Some (date inv))
        \/ (In b' inventory /\ isOpen b' = false))
  /\ ((forall b, In b inventory -> 0 <= remainingQuantity b) ->
      forall b', In b' (fst r) -> 0 <= remainingQuantity b').
Proof.
  intros r unsold. subst r. rewrite processSale_eq. cbv zeta.
  set (st0 := {| remainingToSell := quantityGrams inv; totalCOGS := 0;
                 consumptionLog := _ |}).
  destruct (consumeBatches_stockout (date inv) inventory st0 Hover)
    as (Hneed & Hcogs & Hbatches).
  simpl fst. simpl snd. simpl cogs. simpl fifoLog.
  split; [| split; [| split]].
  - eexists. split; [reflexivity |]. rewrite Hcogs. simpl. lra.
  - eexists. split; [reflexivity |]. simpl in Hneed. split.
    + intros Hgt. qcase; [| exfalso; subst unsold; lra].
      eexists. rewrite last_snoc. split; [reflexivity | exact Hneed].
    + intros Hle u. qcase; [exfalso; subst unsold; lra |]. intros Hin.
      apply consumeBatches_no_stockout_line in Hin. subst st0. simpl in Hin.
      destruct (truthyOpt (createdAt inv)); simpl in Hin;
        [tauto | destruct Hin as [Hin | []]; discriminate].
  - exact Hbatches.
  - intros Hnn b' Hin. destruct (Hbatches b' Hin) as [[H0 _] | [Hi _]].
    + rewrite H0. lra.
    + apply Hnn, Hi.
Qed.

Lemma C3_stockout_completes_witness :
  let r := processSale saleFifteen tenGramsInStock in
  let unsold := quantityGrams saleFifteen - openStock tenGramsInStock in
  (exists c, cogs (snd r) = Some c /\ c == openCost tenGramsInStock)
  /\ (exists log,
        fifoLog (snd r) = Some log
        /\ (EPS_BATCH < unsold ->
            exists u, last log = Some (StockoutWarning u)
                      /\ u == unsold)
        /\ (unsold <= EPS_BATCH -> forall u, ~ In (StockoutWarning u) log))
  /\ (forall b', In b' (fst r) ->
        (remainingQuantity b' = 0 /\ closedDate b' = Some (date saleFifteen))
        \/ (In b' tenGramsInStock /\ isOpen b' = false))
  /\ ((forall b, In b tenGramsInStock -> 0 <= remainingQuantity b) ->
      forall b', In b' (fst r) -> 0 <= remainingQuantity b').
Proof.
  apply (C3_stockout_completes saleFifteen tenGramsInStock).
  vm_compute. reflexivity.
Defined.

Example scenarioB :
  map remainingQuantity (fst (processSale saleFifteen tenGramsInStock)) = [0]
  /\ map closedDate (fst (processSale saleFifteen tenGramsInStock))
     = [Some "2024-01-05"]
  /\ cogs (snd (processSale saleFifteen tenGramsInStock)) = Some (10 * 6000)
  /\ fifoLog (snd (processSale saleFifteen tenGramsInStock))
     = Some [Consumed 10 "2024-01-01" 6000; StockoutWarning 5]
  /\ stockCheck [purchase "p1" "2024-01-01" None 10 6000; saleFifteen] - 0
     == -5.
Proof. vm_compute. repeat split. Qed.

(** ** Batch bounds *)

(** Whatever is drawn from a batch leaves it at exactly zero or at no less
    than the tolerance. *)
Lemma takeFromBatch_snaps (d : string) (b : InventoryBatch) (st : SaleState) :
  remainingQuantity (fst (takeFromBatch d b st)) = 0
  \/ EPS_BATCH <= remainingQuantity (fst (takeFromBatch d b st)).
Proof.
  unfold takeFromBatch. qcase; simpl; [left; reflexivity | right; exact Hc].
Qed.

Lemma takeFromBatch_ok (d : string) (b : InventoryBatch) (st : SaleState) :
  batchOK b -> 0 < remainingToSell st ->
  batchOK (fst (takeFromBatch d b st)).
Proof.
  intros (H0 & Hle & _) Hneed.
  pose proof (takeFromBatch_snaps d b st) as Hsnap.
  unfold batchOK. split; [| split].
  - destruct Hsnap as [-> | Hs]; [lra | unfold EPS_BATCH in Hs; lra].
  - unfold takeFromBatch.
    destruct (Qmin_cases (remainingQuantity b) (remainingToSell st))
      as [[H1 H2] | [H1 H2]]; qcase; simpl; lra.
  - right. replace (originalQuantity (takeFromBatch d b st).1)
      with (originalQuantity b) in *
      by (unfold takeFromBatch; destruct (Qltb _ _); reflexivity).
    exact Hsnap.
Qed.

Lemma consumeBatches_ok (d : string) (inventory : list InventoryBatch) :
  forall st : SaleState,
    Forall batchOK inventory ->
    Forall batchOK (fst (consumeBatches d inventory st)).
Proof.
  induction inventory as [| b rest IH]; intros st Hall; simpl; [constructor |].
  inversion Hall as [| ? ? Hb Hrest]; subst.
  qcase_on (Qleb (remainingToSell st) 0); [exact Hall |].
  destruct (Qltb EPS_BATCH (remainingQuantity b)).
  - pose proof (takeFromBatch_ok d b st Hb Hc) as Hb'.
    destruct (takeFromBatch d b st) as [b' st'].
    specialize (IH st' Hrest).
    destruct (consumeBatches d rest st') as [rest' st''].
    simpl in *. constructor; assumption.
  - specialize (IH st Hrest).
    destruct (consumeBatches d rest st) as [rest' st'].
    simpl in *. constructor; assumption.
Qed.

Lemma replay_ok (l : list Invoice) :
  forall s : list InventoryBatch * list Invoice,
    (forall inv, In inv l -> 0 < quantityGrams inv) ->
    Forall batchOK (fst s) ->
    Forall batchOK (fst (fold_left replayStep l s)).
Proof.
  induction l as [| inv l IH]; intros [inventory processed] Hpos Hall;
    simpl; [exact Hall |].
  apply IH; [intros i Hi; apply Hpos; right; exact Hi |].
  unfold replayStep. destruct (type inv).
  - simpl. apply Forall_app. split; [exact Hall |].
    constructor; [| constructor].
    pose proof (Hpos inv (or_introl eq_refl)) as Hq.
    unfold batchOK, newBatch. simpl. repeat split; try lra. left. reflexivity.
  - rewrite processSale_eq. simpl. apply consumeBatches_ok. exact Hall.
Qed.

Lemma currentStock_acc (inventory : list InventoryBatch) :
  forall acc,
    fold_left (fun a batch => a + remainingQuantity batch) inventory acc
    == acc + sumQ (map remainingQuantity inventory).
Proof.
  induction inventory as [| b rest IH]; intros acc; simpl.
  - lra.
  - rewrite IH. lra.
Qed.

Lemma currentStock_sum (inventory : list InventoryBatch) :
  currentStock inventory == sumQ (map remainingQuantity inventory).
Proof. unfold currentStock. rewrite currentStock_acc. lra. Qed.

(** C5: when all quantities are positive, every batch the replay returns
    has its remaining quantity between zero and its original quantity,
    and that quantity is the untouched original, exactly zero, or at least
    0.0001: whatever a sale leaves below 0.0001 is set to zero.  The
    remaining quantities add up to a total that is not negative. *)
Theorem C5_remaining_within_bounds (invoices : list Invoice)
    (Hpos : forall inv, In inv invoices -> 0 < quantityGrams inv) :
  (forall b, In b (updatedInventory (recalculateAllData invoices)) ->
     0 <= remainingQuantity b
     /\ remainingQuantity b <= originalQuantity b
     /\ (remainingQuantity b = originalQuantity b
         \/ remainingQuantity b = 0
         \/ EPS_BATCH <= remainingQuantity b))
  /\ 0 <= currentStock (updatedInventory (recalculateAllData invoices))
  /\ (forall d b st,
        remainingQuantity (fst (takeFromBatch d b st)) = 0
        \/ EPS_BATCH <= remainingQuantity (fst (takeFromBatch d b st))).
Proof.
  assert (Hall : Forall batchOK (updatedInventory (recalculateAllData invoices))).
  { rewrite recalculateAllData_eq. simpl. apply replay_ok; [| constructor].
    intros inv Hin. apply Hpos. apply (sortBy_In compareInvoices). exact Hin. }
  split; [| split].
  - intros b Hb. rewrite Forall_forall in Hall. apply (Hall b).
    apply list_elem_of_In. exact Hb.
  - rewrite currentStock_sum.
    induction Hall as [| b rest Hb _ IH]; simpl; [lra |].
    destruct Hb as (H0 & _). lra.
  - apply takeFromBatch_snaps.
Qed.

Lemma C5_remaining_within_bounds_witness :
  (forall b, In b (updatedInventory (recalculateAllData ledgerA)) ->
     0 <= remainingQuantity b
     /\ remainingQuantity b <= originalQuantity b
     /\ (remainingQuantity b = originalQuantity b
         \/ remainingQuantity b = 0
         \/ EPS_BATCH <= remainingQuantity b))
  /\ 0 <= currentStock (updatedInventory (recalculateAllData ledgerA))
  /\ (forall d b st,
        remainingQuantity (fst (takeFromBatch d b st)) = 0
        \/ EPS_BATCH <= remainingQuantity (fst (takeFromBatch d b st))).
Proof.
  apply (C5_remaining_within_bounds ledgerA).
  intros inv [<- | [<- | []]]; vm_compute; reflexivity.
Defined.

(** ** Aging *)

Lemma days_le_iff (e k : Z) :
  (Qceiling (inject_Z e / MS_PER_DAY) <= k)%Z <-> (e <= k * 86400000)%Z.
Proof.
  assert (HD : MS_PER_DAY == inject_Z 86400000) by reflexivity.
  assert (Hpos : 0 < MS_PER_DAY) by reflexivity.
  split; intros H.
  - pose proof (Qle_ceiling (inject_Z e / MS_PER_DAY)) as Hc.
    rewrite Zle_Qle in H.
    assert (Hx : inject_Z e / MS_PER_DAY <= inject_Z k) by lra.
    assert (He : inject_Z e <= inject_Z k * MS_PER_DAY).
    { apply Qmult_le_compat_r with (z := MS_PER_DAY) in Hx; [| lra].
      assert (E : inject_Z e / MS_PER_DAY * MS_PER_DAY == inject_Z e)
        by (field; lra).
      lra. }
    rewrite HD, <- inject_Z_mult in He. rewrite <- Zle_Qle in He. exact He.
  - rewrite <- (Qceiling_Z k). apply Qceiling_resp_le.
    apply Qle_shift_div_r; [exact Hpos |].
    rewrite Zle_Qle, inject_Z_mult in H. rewrite HD. exact H.
Qed.

(** The age in the claim's words is the least number of whole days that
    covers the elapsed time. *)
Lemma ceilingDayAge_spec (now t : Z) :
  ((ceilingDayAge now t - 1) * 86400000 < Z.abs (now - t)
   /\ Z.abs (now - t) <= ceilingDayAge now t * 86400000)%Z.
Proof.
  unfold ceilingDayAge.
  pose proof (Z.div_mod (Z.abs (now - t) + 86399999) 86400000) as Hdm.
  pose proof (Z.mod_pos_bound (Z.abs (now - t) + 86399999) 86400000) as Hb.
  lia.
Qed.

(** The code's ceiling of the quotient is that age. *)
Lemma Qceiling_days (now t : Z) :
  Qceiling (inject_Z (Z.abs (now - t)) / MS_PER_DAY) = ceilingDayAge now t.
Proof.
  pose proof (ceilingDayAge_spec now t) as [Hlo Hhi].
  pose proof (days_le_iff (Z.abs (now - t)) (ceilingDayAge now t)) as H1.
  pose proof (days_le_iff (Z.abs (now - t)) (ceilingDayAge now t - 1)) as H2.
  lia.
Qed.

Lemma ceilingDayAge_nonneg (now t : Z) : (0 <= ceilingDayAge now t)%Z.
Proof. pose proof (ceilingDayAge_spec now t). lia. Qed.

Section AgingFacts.
Variable getTime : string -> option Z.
Variable now : Z.

Lemma diffDays_batchAge (b : InventoryBatch) :
  diffDays getTime now b = batchAge getTime now b.
Proof.
  unfold diffDays, batchAge. destruct (getTime (batchDate b)); [| reflexivity].
  rewrite Qceiling_days. reflexivity.
Qed.

(** The chain of comparisons picks the bucket whose range holds the age. *)
Lemma bucketOf_ageRange (age : Z) (key : string) :
  (0 <= age)%Z ->
  String.eqb (bucketOf (Some age)) key = ageRange key age.
Proof.
  intros Hage. unfold bucketOf, ageRange.
  rewrite (String.eqb_sym key "0-7"), (String.eqb_sym key "8-15"),
    (String.eqb_sym key "16-30"), (String.eqb_sym key "30+").
  destruct (Z.leb_spec 0 age); [| lia].
  destruct (Z.leb_spec age 7); destruct (Z.leb_spec 8 age); try lia;
    destruct (Z.leb_spec age 15); destruct (Z.leb_spec 16 age); try lia;
    destruct (Z.leb_spec age 30); destruct (Z.ltb_spec 30 age); try lia;
    cbv iota;
    destruct (String.eqb "0-7" key); destruct (String.eqb "8-15" key);
    destruct (String.eqb "16-30" key); destruct (String.eqb "30+" key);
    reflexivity.
Qed.

Lemma bucketOf_agedIn (key : string) (b : InventoryBatch) :
  String.eqb (bucketOf (diffDays getTime now b)) key = agedIn getTime now key b.
Proof.
  rewrite diffDays_batchAge. unfold agedIn, batchAge.
  destruct (getTime (batchDate b)) as [t |].
  - apply bucketOf_ageRange. apply ceilingDayAge_nonneg.
  - apply String.eqb_sym.
Qed.

Lemma bucketGrams_add (k key : string) (x : Q) (m : gmap string Q) :
  bucketGrams (addToBucket k x m) key =
    if String.eqb k key then bucketGrams m k + x else bucketGrams m key.
Proof.
  unfold bucketGrams, addToBucket. rewrite lookup_insert.
  destruct (String.eqb_spec k key) as [-> | Hne].
  - rewrite decide_True by reflexivity. reflexivity.
  - rewrite decide_False by exact Hne. reflexivity.
Qed.

Lemma addToBucket_keeps (k key : string) (x : Q) (m : gmap string Q) :
  is_Some (m !! key) -> is_Some (addToBucket k x m !! key).
Proof.
  intros Hs. unfold addToBucket. rewrite lookup_insert.
  destruct (decide (k = key)); [eexists; reflexivity | exact Hs].
Qed.

Lemma gramsAged_cons (key : string) (b : InventoryBatch)
    (l : list InventoryBatch) :
  gramsAged getTime now key (b :: l) =
    if agedIn getTime now key b
    then remainingQuantity b + gramsAged getTime now key l
    else gramsAged getTime now key l.
Proof.
  unfold gramsAged. simpl.
  destruct (agedIn getTime now key b); reflexivity.
Qed.

(** The loop invariant of [inventory.forEach]. *)
Lemma aging_fold (inventory : list InventoryBatch) :
  forall acc : AgingAcc,
    let acc' := fold_left (agingStep getTime now) inventory acc in
    totalStock acc'
      == totalStock acc + sumQ (map remainingQuantity (activeBatches inventory))
    /\ daysWeightedAfter getTime now (totalDaysWeighted acc)
         (activeBatches inventory)
         (totalDaysWeighted acc')
    /\ (forall key,
          bucketGrams (accBuckets acc') key
          == bucketGrams (accBuckets acc) key
             + gramsAged getTime now key (activeBatches inventory))
    /\ (forall key,
          is_Some (accBuckets acc !! key) -> is_Some (accBuckets acc' !! key)).
Proof.
  induction inventory as [| b rest IH]; intros acc; simpl.
  - unfold gramsAged, daysWeightedAfter. simpl.
    split; [lra |]. split; [destruct (totalDaysWeighted acc); [lra | exact I] |].
    split; [intros key; lra | auto].
  - unfold agingStep at 2 4 6 8. unfold activeBatches. simpl.
    fold (activeBatches rest).
    destruct (Qleb (remainingQuantity b) 0) eqn:Hc.
    + apply Qleb_true in Hc.
      assert (Hf : Qltb 0 (remainingQuantity b) = false)
        by (apply Qltb_false; exact Hc).
      rewrite Hf. apply IH.
    + apply Qleb_false in Hc.
      assert (Ht : Qltb 0 (remainingQuantity b) = true)
        by (apply Qltb_true; exact Hc).
      rewrite Ht.
      match goal with
      | |- context [fold_left _ rest ?a] => specialize (IH a)
      end.
      cbv zeta in IH. simpl in IH.
      destruct IH as (IH1 & IH2 & IH3 & IH4).
      split; [simpl; lra |]. split; [| split].
      * clear IH1 IH3 IH4. revert IH2.
        unfold daysWeightedAfter, addWeighted. simpl.
        rewrite diffDays_batchAge.
        destruct (totalDaysWeighted acc) as [a |];
          destruct (batchAge getTime now b) as [age |];
          destruct (weightedAgeSum getTime now (activeBatches rest)) as [sum |];
          destruct (totalDaysWeighted (fold_left _ rest _)) as [c |];
          simpl; try tauto; intros; lra.
      * intros key. rewrite IH3, bucketGrams_add, gramsAged_cons.
        rewrite <- bucketOf_agedIn.
        destruct (String.eqb_spec (bucketOf (diffDays getTime now b)) key)
          as [-> | Hne]; lra.
      * intros key Hs. apply IH4. apply addToBucket_keeps. exact Hs.
Qed.

(** An age lies in the range of one bucket and of no other. *)
Lemma agedIn_unique (b : InventoryBatch) :
  exists key,
    In key ["0-7"; "8-15"; "16-30"; "30+"]
    /\ agedIn getTime now key b = true
    /\ forall key', agedIn getTime now key' b = true -> key' = key.
Proof.
  exists (bucketOf (diffDays getTime now b)).
  split; [| split].
  - unfold bucketOf. destruct (diffDays getTime now b) as [d |]; simpl;
      [| tauto].
    destruct (d <=? 7)%Z; [tauto |].
    destruct (d <=? 15)%Z; [tauto |].
    destruct (d <=? 30)%Z; tauto.
  - rewrite <- bucketOf_agedIn. apply String.eqb_refl.
  - intros key' H. rewrite <- bucketOf_agedIn in H.
    apply String.eqb_eq in H. symmetry. exact H.
Qed.

(** Every batch falls in one bucket: the four buckets split the grams. *)
Lemma buckets_partition (l : list InventoryBatch) :
  gramsAged getTime now "0-7" l + gramsAged getTime now "8-15" l
  + gramsAged getTime now "16-30" l + gramsAged getTime now "30+" l
  == sumQ (map remainingQuantity l).
Proof.
  induction l as [| b l IH].
  - unfold gramsAged. simpl. lra.
  - rewrite !gramsAged_cons. simpl.
    destruct (agedIn_unique b) as (key & Hkey & Hin & Huniq).
    assert (Hother : forall key', key' <> key ->
                       agedIn getTime now key' b = false).
    { intros key' Hne. destruct (agedIn getTime now key' b) eqn:E;
        [| reflexivity].
      exfalso. apply Hne. apply Huniq. exact E. }
    simpl in Hkey.
    destruct Hkey as [<- | [<- | [<- | [<- | []]]]]; rewrite Hin;
      rewrite !Hother by discriminate; lra.
Qed.

Lemma active_total_positive (inventory : list InventoryBatch) :
  (activeBatches inventory <> [] ->
   0 < sumQ (map remainingQuantity (activeBatches inventory)))
  /\ 0 <= sumQ (map remainingQuantity (activeBatches inventory)).
Proof.
  induction inventory as [| b rest [IH1 IH2]]; simpl.
  - split; [congruence | lra].
  - unfold activeBatches. simpl. fold (activeBatches rest).
    destruct (Qltb 0 (remainingQuantity b)) eqn:Hc; [| split; assumption].
    apply Qltb_true in Hc. simpl. split; [intros _ |]; lra.
Qed.

(** C7: every batch with a positive remaining quantity is counted in
    exactly one of the four buckets, the one whose range holds its age in
    whole days, rounded up (a batch whose date the runtime cannot read is
    counted in "30+"); so each bucket holds the grams of the active
    batches of its range and the four buckets add up to the grams of all
    active batches.  The reported average is the grams-weighted mean of
    these ages (0 when there is no active batch, [NaN] when an active
    batch has no readable date).  The age is the least number of days
    that covers the time between the batch date and now. *)
Theorem C7_aging_partition (inventory : list InventoryBatch) :
  let stats := calculateStockAging getTime now inventory in
  let active := activeBatches inventory in
  (forall key, In key ["0-7"; "8-15"; "16-30"; "30+"] ->
     exists g, buckets stats !! key = Some g
               /\ g == gramsAged getTime now key active)
  /\ (forall b, In b active ->
        exists key,
          In key ["0-7"; "8-15"; "16-30"; "30+"]
          /\ agedIn getTime now key b = true
          /\ forall key', agedIn getTime now key' b = true -> key' = key)
  /\ bucketGrams (buckets stats) "0-7" + bucketGrams (buckets stats) "8-15"
     + bucketGrams (buckets stats) "16-30" + bucketGrams (buckets stats) "30+"
     == sumQ (map remainingQuantity active)
  /\ match weightedAgeSum getTime now active with
     | Some sum =>
         exists w,
           weightedAvgDays stats = Fin w
           /\ (active <> [] -> w == sum / sumQ (map remainingQuantity active))
           /\ (active = [] -> w == 0)
     | None => weightedAvgDays stats = NaN
     end
  /\ (forall t,
        ((ceilingDayAge now t - 1) * 86400000 < Z.abs (now - t)
         /\ Z.abs (now - t) <= ceilingDayAge now t * 86400000)%Z).
Proof.
  intros stats active. subst stats active. unfold calculateStockAging.
  set (acc0 := {| accBuckets := emptyBuckets; totalDaysWeighted := Some 0;
                  totalStock := 0 |}).
  destruct (aging_fold inventory acc0) as (H1 & H2 & H3 & H4).
  simpl in H1, H2. simpl buckets. simpl weightedAvgDays.
  assert (Hkey : forall key,
             bucketGrams emptyBuckets key = 0
             -> bucketGrams
                  (accBuckets (fold_left (agingStep getTime now) inventory acc0))
                  key
                == gramsAged getTime now key (activeBatches inventory)).
  { intros key H0. rewrite H3. simpl. rewrite H0. lra. }
  split; [| split; [| split; [| split]]].
  - intros key Hkeys.
    assert (Hs : is_Some (emptyBuckets !! key)).
    { simpl in Hkeys.
      destruct Hkeys as [<- | [<- | [<- | [<- | []]]]];
        eexists; vm_compute; reflexivity. }
    assert (H0 : bucketGrams emptyBuckets key = 0).
    { simpl in Hkeys.
      destruct Hkeys as [<- | [<- | [<- | [<- | []]]]];
        vm_compute; reflexivity. }
    specialize (Hkey key H0). apply H4 in Hs. destruct Hs as [g Hg].
    exists g. split; [exact Hg |].
    unfold bucketGrams in Hkey. rewrite Hg in Hkey. exact Hkey.
  - intros b _. apply agedIn_unique.
  - rewrite !Hkey by (vm_compute; reflexivity). apply buckets_partition.
  - destruct (active_total_positive inventory) as [Hpos Hnn].
    unfold daysWeightedAfter in H2.
    destruct (weightedAgeSum getTime now (activeBatches inventory))
      as [sum |] eqn:Hsum.
    + destruct (totalDaysWeighted (fold_left _ inventory acc0)) as [c |];
        [| contradiction].
      qcase.
      * simpl. rewrite jsDiv_positive by exact Hc.
        eexists. split; [reflexivity |]. split.
        -- intros _. rewrite H1, H2. field. lra.
        -- intros He. rewrite He in H1. simpl in H1. lra.
      * eexists. split; [reflexivity |]. split; [| reflexivity].
        intros Hne. apply Hpos in Hne. lra.
    + destruct (totalDaysWeighted (fold_left _ inventory acc0)) as [c |];
        [contradiction |].
      assert (Hne : activeBatches inventory <> []).
      { intros He. rewrite He in Hsum. discriminate. }
      apply Hpos in Hne.
      rewrite (proj2 (Qltb_true 0 _)) by lra. reflexivity.
  - intros t. apply ceilingDayAge_spec.
Qed.
End AgingFacts.

(** With a batch whose date is blank the average is [NaN], and the grams
    of that batch are counted in "30+". *)
Example aging_of_undated_batch :
  let stats :=
    calculateStockAging sampleTime 1704412800000 batchesWithUndated in
  weightedAvgDays stats = NaN
  /\ bucketGrams (buckets stats) "0-7" == 15
  /\ bucketGrams (buckets stats) "30+" == 3.
Proof. vm_compute. repeat split. Qed.

(** ** Snapshot against replay *)

(** [Math.min] returns one of its arguments. *)
Lemma Qmin_left (x y : Q) : x <= y -> Qmin x y = x.
Proof.
  intros H. unfold Qmin, GenericMinMax.gmin.
  destruct (x ?= y) eqn:Hc; try reflexivity.
  exfalso. apply Qgt_alt in Hc. lra.
Qed.

Lemma Qmin_right (x y : Q) : y < x -> Qmin x y = y.
Proof.
  intros H. unfold Qmin, GenericMinMax.gmin.
  destruct (x ?= y) eqn:Hc; try reflexivity; exfalso.
  - apply Qeq_alt in Hc. lra.
  - apply Qlt_alt in Hc. lra.
Qed.

Lemma onGridb_onGrid (u q : Q) : onGridb u q = true -> onGrid u q.
Proof.
  intros H. apply Qeq_bool_iff in H. exists (Qfloor (q / u)).
  symmetry. exact H.
Qed.

Lemma onGrid_zero (u : Q) : onGrid u 0.
Proof. exists 0%Z. simpl. ring. Qed.

Lemma onGrid_minus (u a b : Q) : onGrid u a -> onGrid u b -> onGrid u (a - b).
Proof.
  intros [ka Ha] [kb Hb]. exists (ka - kb)%Z.
  rewrite Ha, Hb. unfold Z.sub. rewrite inject_Z_plus, inject_Z_opp. ring.
Qed.

Lemma onGrid_pos (u q : Q) : 0 < u -> onGrid u q -> 0 < q -> u <= q.
Proof.
  intros Hu [k Hk] Hq.
  assert (Hk1 : (1 <= k)%Z).
  { destruct (Z.leb_spec 1 k) as [Hge | Hlt]; [exact Hge |].
    exfalso. assert (inject_Z k <= 0).
    { change 0 with (inject_Z 0). rewrite <- Zle_Qle. lia. }
    nra. }
  rewrite Zle_Qle in Hk1. change (inject_Z 1) with 1 in Hk1. nra.
Qed.

Lemma snapView_cons (b : InventoryBatch) (rest : list InventoryBatch) :
  snapView (b :: rest) =
    if inStock b then toSnap b :: snapView rest else snapView rest.
Proof. unfold snapView. simpl. destruct (inStock b); reflexivity. Qed.

Lemma snapView_app (l1 l2 : list InventoryBatch) :
  snapView (l1 ++ l2) = snapView l1 ++ snapView l2.
Proof. unfold snapView. rewrite List.filter_app, map_app. reflexivity. Qed.

Lemma consumeBatches_done (d : string) (inventory : list InventoryBatch)
    (st : SaleState) :
  remainingToSell st <= 0 -> consumeBatches d inventory st = (inventory, st).
Proof.
  intros H. destruct inventory as [| b rest]; simpl; [reflexivity |].
  rewrite (proj2 (Qleb_true _ _) H). reflexivity.
Qed.

Lemma sellRec_done (need : Q) (bs : list SnapBatch) :
  need <= EPS_SNAPSHOT -> sellRec need bs = (need, bs).
Proof.
  intros H. destruct bs as [| b rest]; simpl; [reflexivity |].
  rewrite (proj2 (Qltb_false _ _) H). reflexivity.
Qed.

Section GridSimulation.
Variable u : Q.
Hypothesis Hu : EPS_BATCH < u.

Lemma grid_zero_or_unit (q : Q) : onGrid u q -> 0 <= q -> q <= 0 \/ u <= q.
Proof.
  intros Hg H0. destruct (Qlt_le_dec 0 q) as [Hpos | Hle]; [| left; exact Hle].
  right. apply onGrid_pos; [unfold EPS_BATCH in Hu; lra | exact Hg | exact Hpos].
Qed.

(** One sale: the replay's walk over its batch list and the snapshot's
    loop over its queue leave the same stock behind, batch by batch. *)
Lemma consumeBatches_simulates (d : string) (inventory : list InventoryBatch) :
  forall st : SaleState,
    onGrid u (remainingToSell st) -> 0 <= remainingToSell st ->
    Forall (gridInv u) inventory ->
    snapView (fst (consumeBatches d inventory st))
      = snd (sellRec (remainingToSell st) (snapView inventory))
    /\ Forall (gridInv u) (fst (consumeBatches d inventory st))
    /\ (remainingToSell st <= sumQ (map remainingQuantity inventory) ->
        sumQ (map remainingQuantity (fst (consumeBatches d inventory st)))
        == sumQ (map remainingQuantity inventory) - remainingToSell st).
Proof.
  assert (Hu0 : 0 < u) by (unfold EPS_BATCH in Hu; lra).
  assert (Hu6 : EPS_SNAPSHOT < u) by (unfold EPS_BATCH, EPS_SNAPSHOT in *; lra).
  induction inventory as [| b rest IH]; intros st Hg Hnn Hall.
  - simpl. repeat split; [constructor | intros; lra].
  - inversion Hall as [| ? ? [Hgb Hb0] Hrest]; subst.
    destruct (grid_zero_or_unit _ Hg Hnn) as [Hzero | Hunit].
    { rewrite consumeBatches_done by exact Hzero.
      rewrite sellRec_done by (unfold EPS_SNAPSHOT; lra).
      simpl. repeat split; [exact Hall | intros; lra]. }
    simpl consumeBatches.
    rewrite (proj2 (Qleb_false (remainingToSell st) 0)) by lra.
    rewrite snapView_cons. unfold inStock.
    destruct (grid_zero_or_unit _ Hgb Hb0) as [Hbz | Hbu].
    + (* a closed batch: skipped by both *)
      rewrite (proj2 (Qltb_false EPS_BATCH (remainingQuantity b)))
        by (unfold EPS_BATCH; lra).
      rewrite (proj2 (Qltb_false 0 (remainingQuantity b))) by exact Hbz.
      destruct (IH st Hg Hnn Hrest) as (IH1 & IH2 & IH3).
      destruct (consumeBatches d rest st) as [rest' st'].
      simpl in *. rewrite snapView_cons. unfold inStock.
      rewrite (proj2 (Qltb_false 0 (remainingQuantity b))) by exact Hbz.
      split; [exact IH1 |]. split; [constructor; [split |]; assumption |].
      intros Hle. rewrite IH3 by lra. lra.
    + (* an open batch *)
      rewrite (proj2 (Qltb_true EPS_BATCH (remainingQuantity b))) by lra.
      rewrite (proj2 (Qltb_true 0 (remainingQuantity b))) by lra.
      simpl sellRec.
      rewrite (proj2 (Qltb_true EPS_SNAPSHOT (remainingToSell st))) by lra.
      unfold takeFromBatch.
      destruct (Qlt_le_dec (remainingToSell st) (remainingQuantity b))
        as [Hlt | Hge].
      * (* the sale ends inside this batch *)
        rewrite (proj2 (Qltb_true _ _) Hlt).
        rewrite (Qmin_right _ _ Hlt).
        assert (Hleft : onGrid u (remainingQuantity b - remainingToSell st))
          by (apply onGrid_minus; assumption).
        assert (Hleftu : u <= remainingQuantity b - remainingToSell st)
          by (apply onGrid_pos; [exact Hu0 | exact Hleft | lra]).
        rewrite (proj2 (Qltb_false _ EPS_BATCH)) by lra.
        rewrite consumeBatches_done by (simpl; lra).
        simpl. rewrite snapView_cons. unfold inStock. simpl.
        rewrite (proj2 (Qltb_true 0 _)) by lra.
        split; [reflexivity |].
        split; [constructor; [split; simpl; [exact Hleft | lra] | exact Hrest] |].
        intros _. lra.
      * (* the batch is used up *)
        rewrite (proj2 (Qltb_false _ _) Hge).
        rewrite (Qmin_left _ _ Hge).
        rewrite (proj2 (Qltb_true _ EPS_BATCH)) by (unfold EPS_BATCH; lra).
        match goal with
        | |- context [consumeBatches d rest ?s] =>
            destruct (IH s) as (IH1 & IH2 & IH3);
              [ simpl; apply onGrid_minus; assumption
              | simpl; lra | exact Hrest | ];
            destruct (consumeBatches d rest s) as [rest' st'']
        end.
        simpl in *. rewrite snapView_cons. unfold inStock. simpl.
        split; [exact IH1 |].
        split; [constructor;
                [split; simpl; [apply onGrid_zero | lra] | exact IH2] |].
        intros Hle. rewrite IH3 by lra. lra.
Qed.
End GridSimulation.

Lemma sumQ_app (l1 l2 : list Q) : sumQ (l1 ++ l2) == sumQ l1 + sumQ l2.
Proof.
  induction l1 as [| x l1 IH]; simpl; [lra | rewrite IH; lra].
Qed.

Section ReplaySimulation.
Variable u : Q.
Hypothesis Hu : EPS_BATCH < u.

(** The main loops of the two engines, run side by side over the same
    sorted transactions. *)
Lemma replay_simulates (l : list Invoice) :
  forall (s : list InventoryBatch * list Invoice) (ss : SnapState),
    (forall inv, In inv l ->
       0 < quantityGrams inv /\ onGrid u (quantityGrams inv)) ->
    Forall (gridInv u) (fst s) ->
    batches ss = snapView (fst s) ->
    batches (fold_left snapshotStepRec l ss)
      = snapView (fst (fold_left replayStep l s))
    /\ Forall (gridInv u) (fst (fold_left replayStep l s))
    /\ (totalQuantity ss == sumQ (map remainingQuantity (fst s)) ->
        neverOversoldFrom (totalQuantity ss) l = true ->
        totalQuantity (fold_left snapshotStepRec l ss)
        == sumQ (map remainingQuantity (fst (fold_left replayStep l s)))).
Proof.
  induction l as [| inv l IH]; intros [inventory processed] ss Hq Hall Hview.
  - simpl in *. repeat split; auto.
  - destruct (Hq inv (or_introl eq_refl)) as [Hpos Hgrid].
    assert (Hq' : forall i, In i l ->
                    0 < quantityGrams i /\ onGrid u (quantityGrams i))
      by (intros i Hi; apply Hq; right; exact Hi).
    simpl fold_left. simpl in Hall, Hview.
    unfold replayStep at 2, snapshotStepRec at 2 4.
    unfold neverOversoldFrom; fold neverOversoldFrom.
    destruct (type inv).
    + (* PURCHASE *)
      match goal with
      | |- context [fold_left replayStep l ?s'] =>
          match goal with
          | |- context [fold_left snapshotStepRec l ?ss'] =>
              destruct (IH s' ss' Hq') as (IH1 & IH2 & IH3)
          end
      end.
      * simpl. apply Forall_app. split; [exact Hall |].
        constructor; [| constructor].
        split; simpl; [exact Hgrid | lra].
      * simpl. rewrite snapView_app, Hview. f_equal.
        unfold snapView, inStock. simpl.
        rewrite (proj2 (Qltb_true 0 (quantityGrams inv)) Hpos). reflexivity.
      * split; [exact IH1 |]. split; [exact IH2 |].
        simpl. intros Ht Hno. apply andb_true_iff in Hno.
        destruct Hno as [_ Hno]. apply IH3; [| exact Hno].
        simpl. rewrite map_app, sumQ_app, Ht. simpl. lra.
    + (* SALE *)
      rewrite processSale_eq. cbv zeta.
      set (st0 := {| remainingToSell := quantityGrams inv; totalCOGS := 0;
                     consumptionLog := _ |}).
      destruct (consumeBatches_simulates u Hu (date inv) inventory st0)
        as (S1 & S2 & S3); [exact Hgrid | simpl; lra | exact Hall |].
      match goal with
      | |- context [fold_left replayStep l ?s'] =>
          match goal with
          | |- context [fold_left snapshotStepRec l ?ss'] =>
              destruct (IH s' ss' Hq') as (IH1 & IH2 & IH3)
          end
      end.
      * simpl. exact S2.
      * simpl. rewrite Hview, S1. reflexivity.
      * split; [exact IH1 |]. split; [exact IH2 |].
        simpl. intros Ht Hno. apply andb_true_iff in Hno.
        destruct Hno as [Hge Hno]. apply Qleb_true in Hge.
        apply IH3; [| exact Hno].
        simpl. simpl in S3. rewrite S3 by lra. lra.
Qed.
End ReplaySimulation.

Lemma snapshotValue_acc (bs : list SnapBatch) :
  forall acc,
    fold_left (fun sum batch => sum + quantity batch * cost batch) bs acc
    == acc + sumQ (map (fun b => quantity b * cost b) bs).
Proof.
  induction bs as [| b bs IH]; intros acc; simpl; [lra | rewrite IH; lra].
Qed.

Lemma fifoValue_acc (inventory : list InventoryBatch) :
  forall acc,
    fold_left (fun a batch => a + remainingQuantity batch * costPerGram batch)
      inventory acc
    == acc + sumQ (map (fun b => remainingQuantity b * costPerGram b) inventory).
Proof.
  induction inventory as [| b rest IH]; intros acc; simpl;
    [lra | rewrite IH; lra].
Qed.

(** Batches without stock add nothing to the value. *)
Lemma snapView_value (inventory : list InventoryBatch) :
  Forall (fun b => 0 <= remainingQuantity b) inventory ->
  snapshotValue (snapView inventory) == fifoValue inventory.
Proof.
  intros Hall. unfold snapshotValue, fifoValue.
  rewrite snapshotValue_acc, fifoValue_acc.
  induction Hall as [| b rest Hb _ IH]; simpl; [lra |].
  rewrite snapView_cons. unfold inStock. qcase; simpl.
  - lra.
  - assert (Hz : remainingQuantity b == 0) by lra. rewrite Hz. lra.
Qed.

Lemma filter_all {A : Type} (f : A -> bool) (l : list A) :
  forallb f l = true -> List.filter f l = l.
Proof.
  induction l as [| x l IH]; simpl; [reflexivity |].
  intros H. apply andb_true_iff in H. destruct H as [Hx Hl].
  rewrite Hx, IH by exact Hl. reflexivity.
Qed.

(** C1, as stated, fails: after a stockout the snapshot at the latest
    transaction date reports 0 g ([10 - 15 + 5], clamped at zero) while
    the replay's batches hold 5 g; both value the stock at 30500. *)
Lemma C1_snapshot_after_stockout_counterexample :
  exists snap,
    getInventorySnapshot 4 ledgerOversold "2024-01-03" = Some snap
    /\ grams snap == 0
    /\ currentStock (updatedInventory (recalculateAllData ledgerOversold)) == 5
    /\ value snap == 30500
    /\ fifoValue (updatedInventory (recalculateAllData ledgerOversold)) == 30500
    /\ ~ (grams snap
          == currentStock (updatedInventory (recalculateAllData ledgerOversold))).
Proof.
  eexists. split; [vm_compute; reflexivity |].
  repeat split; try (vm_compute; reflexivity).
  vm_compute. discriminate.
Qed.

Example snapshot_keeps_residue :
  exists snap,
    getInventorySnapshot 3 ledgerResidue "2024-01-02" = Some snap
    /\ grams snap == 1 # 16384
    /\ currentStock (updatedInventory (recalculateAllData ledgerResidue)) == 0.
Proof.
  eexists. split; [vm_compute; reflexivity |].
  split; vm_compute; reflexivity.
Qed.

(** ** The engines on any runtime *)

Lemma binaryUnit_above_tolerance (n : nat) :
  (n <= 13)%nat -> EPS_BATCH < binaryUnit n.
Proof.
  intros Hn.
  do 14 (destruct n as [| n]; [vm_compute; reflexivity |]). lia.
Qed.

Lemma binaryQuantities_units (n : nat) (invoices : list Invoice) :
  binaryQuantities n invoices = true ->
  EPS_BATCH < binaryUnit n
  /\ forall inv, In inv invoices ->
       0 < quantityGrams inv /\ onGrid (binaryUnit n) (quantityGrams inv).
Proof.
  unfold binaryQuantities. intros H.
  apply andb_true_iff in H. destruct H as [H _].
  apply andb_true_iff in H. destruct H as [Hn Hunits].
  split.
  - apply binaryUnit_above_tolerance. apply Nat.leb_le. exact Hn.
  - intros inv Hin. rewrite forallb_forall in Hunits.
    specialize (Hunits inv Hin). unfold wholeUnits in Hunits.
    apply andb_true_iff in Hunits. destruct Hunits as [Hp Hg]. split.
    + apply Qltb_true. exact Hp.
    + apply onGridb_onGrid. exact Hg.
Qed.

Section OnAnyRuntime.
Variable localeCompare : string -> string -> comparison.
Variable arraySort :
  (Invoice -> Invoice -> comparison) -> list Invoice -> list Invoice.

(** All that is assumed of the runtime's sort: it returns the records it
    was given, in some order. *)
Hypothesis arraySort_Permutation :
  forall l : list Invoice,
    Permutation (arraySort (Runtime.compareInvoices localeCompare) l) l.

Lemma arraySort_In (inv : Invoice) (l : list Invoice) :
  In inv (arraySort (Runtime.compareInvoices localeCompare) l) <-> In inv l.
Proof.
  split; apply Permutation_in;
    [| apply Permutation_sym]; apply arraySort_Permutation.
Qed.

Lemma arraySort_length (l : list Invoice) :
  length (arraySort (Runtime.compareInvoices localeCompare) l) = length l.
Proof. apply Permutation_length, arraySort_Permutation. Qed.

Lemma runtime_recalculateAllData_eq (allInvoices : list Invoice) :
  Runtime.recalculateAllData localeCompare arraySort allInvoices =
    {| updatedInvoices :=
         snd (fold_left replayStep
                (arraySort (Runtime.compareInvoices localeCompare) allInvoices)
                ([], []));
       updatedInventory :=
         fst (fold_left replayStep
                (arraySort (Runtime.compareInvoices localeCompare) allInvoices)
                ([], [])) |}.
Proof.
  unfold Runtime.recalculateAllData.
  destruct (fold_left _ _ _) as [a b]. reflexivity.
Qed.

Lemma runtime_getInventorySnapshot_rec (fuel : nat) (invoices : list Invoice)
    (targetDate : string) :
  (length invoices < fuel)%nat ->
  Runtime.getInventorySnapshot localeCompare arraySort fuel invoices targetDate =
    let s := fold_left snapshotStepRec
               (arraySort (Runtime.compareInvoices localeCompare)
                  (List.filter (fun inv => String.leb (date inv) targetDate)
                     invoices))
               {| batches := []; totalQuantity := 0 |} in
    Some {| grams := Qmax 0 (totalQuantity s);
            value := snapshotValue (batches s) |}.
Proof.
  intros Hlen. unfold Runtime.getInventorySnapshot.
  rewrite snapshotLoop_rec; [reflexivity |].
  simpl. rewrite arraySort_length.
  pose proof (filter_length_bound
                (fun inv => String.leb (date inv) targetDate) invoices).
  lia.
Qed.

(** C1 (amended): on any runtime, whatever order its sort puts the
    transactions in.  When every quantity is a positive whole number of
    units of a binary fraction of a gram above the tolerance (1 g, 1/2 g,
    ... 1/8192 g), the quantities together stay below 2^53 units, the
    rates are of ordinary size, and the cutoff is not before any
    transaction date, the snapshot's value equals the live value of the
    replay's batches; its grams equal the live stock when, in the order
    in which the engines walk the transactions, no sale exceeds the stock
    on hand. *)
Theorem C1_snapshot_matches_replay (n : nat) (fuel : nat)
    (invoices : list Invoice) (cutoff : string)
    (Hexact : binaryQuantities n invoices = true)
    (Hrates : forallb (fun inv => ordinaryAmount (ratePerGram inv)) invoices
              = true)
    (Hcutoff : forallb (fun inv => String.leb (date inv) cutoff) invoices = true)
    (Hfuel : (length invoices < fuel)%nat) :
  exists snap,
    Runtime.getInventorySnapshot localeCompare arraySort fuel invoices cutoff
    = Some snap
    /\ value snap
       == fifoValue
            (updatedInventory
               (Runtime.recalculateAllData localeCompare arraySort invoices))
    /\ (Runtime.neverOversold localeCompare arraySort invoices = true ->
        grams snap
        == currentStock
             (updatedInventory
                (Runtime.recalculateAllData localeCompare arraySort invoices))).
Proof.
  destruct (binaryQuantities_units n invoices Hexact) as [Hu Hunits].
  rewrite runtime_getInventorySnapshot_rec by exact Hfuel.
  rewrite (filter_all _ _ Hcutoff). cbv zeta.
  rewrite runtime_recalculateAllData_eq. simpl updatedInventory.
  unfold Runtime.neverOversold.
  set (sorted := arraySort (Runtime.compareInvoices localeCompare) invoices).
  assert (Hq : forall inv, In inv sorted ->
                 0 < quantityGrams inv
                 /\ onGrid (binaryUnit n) (quantityGrams inv)).
  { intros inv Hin. apply Hunits. apply arraySort_In. exact Hin. }
  destruct (replay_simulates (binaryUnit n) Hu sorted ([], [])
              {| batches := []; totalQuantity := 0 |} Hq)
    as (Hview & Hinv & Htotal); [constructor | reflexivity |].
  eexists. split; [reflexivity |]. simpl grams. simpl value.
  assert (Hnn : Forall (fun b => 0 <= remainingQuantity b)
                  (fst (fold_left replayStep sorted ([], [])))).
  { eapply Forall_impl; [exact Hinv |]. intros b [_ H0]. exact H0. }
  split.
  - rewrite Hview. apply snapView_value. exact Hnn.
  - intros Hno. rewrite currentStock_sum.
    simpl in Htotal. rewrite <- Htotal; [| lra | exact Hno].
    apply Q.max_r. rewrite Htotal; [| lra | exact Hno].
    clear - Hnn. induction Hnn as [| b rest Hb _ IH]; simpl; lra.
Qed.
End OnAnyRuntime.

(** On [ledgerQuarters], in quarters of a gram, with the code-point order
    and the insertion sort for runtime. *)
Lemma C1_snapshot_matches_replay_witness :
  exists snap,
    Runtime.getInventorySnapshot String.compare (@sortBy Invoice) 4
      ledgerQuarters "2024-01-05"
    = Some snap
    /\ value snap
       == fifoValue
            (updatedInventory
               (Runtime.recalculateAllData String.compare (@sortBy Invoice)
                  ledgerQuarters))
    /\ (Runtime.neverOversold String.compare (@sortBy Invoice) ledgerQuarters
        = true ->
        grams snap
        == currentStock
             (updatedInventory
                (Runtime.recalculateAllData String.compare (@sortBy Invoice)
                   ledgerQuarters))).
Proof.
  apply (C1_snapshot_matches_replay String.compare (@sortBy Invoice)
           (sortBy_Permutation _) 2 4 ledgerQuarters "2024-01-05").
  - vm_compute. reflexivity.
  - vm_compute. reflexivity.
  - vm_compute. reflexivity.
  - simpl. lia.
Defined.

(** The totals on [ledgerQuarters]: 3/4 g are left, worth 4575. *)
Example snapshot_of_ledgerQuarters :
  Runtime.neverOversold String.compare (@sortBy Invoice) ledgerQuarters = true
  /\ exists snap,
       getInventorySnapshot 4 ledgerQuarters "2024-01-05" = Some snap
       /\ grams snap == 3 # 4 /\ value snap == 4575.
Proof.
  split; [vm_compute; reflexivity |].
  eexists. split; [vm_compute; reflexivity |]. split; vm_compute; reflexivity.
Qed.

(** ** The replay on the heap refines the replay on batch lists *)

Lemma insert_at_end_of_prefix {A : Type} (pre : list A) (x y : A) (l : list A) :
  <[length pre := x]> (pre ++ y :: l) = pre ++ x :: l.
Proof.
  induction pre as [| z pre IH]; simpl; [reflexivity |].
  f_equal. exact IH.
Qed.

(** The references handed out after [pre] address the batches [inventory]
    laid out behind it. *)
Lemma consumeRefs_refines (d : string) (inventory : list InventoryBatch) :
  forall (pre suf : list InventoryBatch) (st : SaleState),
    consumeRefs d (seq (length pre) (length inventory))
      (pre ++ inventory ++ suf) st
    = Some (pre ++ fst (consumeBatches d inventory st) ++ suf,
            snd (consumeBatches d inventory st)).
Proof.
  induction inventory as [| b rest IH]; intros pre suf st.
  - reflexivity.
  - simpl. destruct (Qleb (remainingToSell st) 0); [reflexivity |].
    rewrite list_lookup_middle by reflexivity.
    destruct (Qltb EPS_BATCH (remainingQuantity b)).
    + destruct (takeFromBatch d b st) as [b' st'].
      replace (<[length pre := b']> (pre ++ b :: rest ++ suf))
        with ((pre ++ [b']) ++ rest ++ suf).
      * replace (S (length pre)) with (length (pre ++ [b']))
          by (rewrite length_app; simpl; lia).
        rewrite IH. destruct (consumeBatches d rest st') as [rest' st''].
        simpl. rewrite <- app_assoc. reflexivity.
      * rewrite insert_at_end_of_prefix, <- app_assoc. reflexivity.
    + replace (pre ++ b :: rest ++ suf) with ((pre ++ [b]) ++ rest ++ suf)
        by (rewrite <- app_assoc; reflexivity).
      replace (S (length pre)) with (length (pre ++ [b]))
        by (rewrite length_app; simpl; lia).
      rewrite IH. destruct (consumeBatches d rest st) as [rest' st'].
      simpl. rewrite <- app_assoc. reflexivity.
Qed.

Lemma consumeBatches_length (d : string) (inventory : list InventoryBatch) :
  forall st, length (fst (consumeBatches d inventory st)) = length inventory.
Proof.
  induction inventory as [| b rest IH]; intros st; simpl; [reflexivity |].
  destruct (Qleb (remainingToSell st) 0); [reflexivity |].
  destruct (Qltb EPS_BATCH (remainingQuantity b)).
  - destruct (takeFromBatch d b st) as [b' st']. specialize (IH st').
    destruct (consumeBatches d rest st'). simpl in *. lia.
  - specialize (IH st). destruct (consumeBatches d rest st). simpl in *. lia.
Qed.

(** The loop on the heap does what the loop on batch lists does, on fresh
    objects behind the heap it was given. *)
Lemma replayLoopOnHeap_refines (sorted : list Invoice) :
  forall (h0 : Heap) (inventory : list InventoryBatch) (done : list Invoice),
    replayLoopOnHeap sorted
      {| heap := h0 ++ inventory;
         inventoryRefs := seq (length h0) (length inventory);
         processed := done |}
    = Some {| heap := h0 ++ fst (fold_left replayStep sorted (inventory, done));
              inventoryRefs :=
                seq (length h0)
                  (length (fst (fold_left replayStep sorted (inventory, done))));
              processed := snd (fold_left replayStep sorted (inventory, done)) |}.
Proof.
  induction sorted as [| inv sorted IH]; intros h0 inventory done.
  - reflexivity.
  - simpl. unfold replayStepOnHeap, replayStep. simpl.
    destruct (type inv).
    + rewrite <- app_assoc.
      replace (seq (length h0) (length inventory) ++ [length (h0 ++ inventory)])
        with (seq (length h0) (length (inventory ++ [newBatch inv]))).
      * apply IH.
      * rewrite !length_app. simpl. rewrite Nat.add_1_r, seq_S. reflexivity.
    + pose proof (consumeRefs_refines (date inv) inventory h0 []) as Hc.
      rewrite !app_nil_r in Hc. setoid_rewrite app_nil_r in Hc.
      rewrite Hc. rewrite processSale_eq. cbv zeta.
      rewrite <- (consumeBatches_length (date inv) inventory
                    {| remainingToSell := quantityGrams inv; totalCOGS := 0;
                       consumptionLog :=
                         if truthyOpt (createdAt inv) then []
                         else [NoTimestampWarning] |}) at 1.
      apply IH.
Qed.

Lemma recalculateAllDataOnHeap_refines (allInvoices : list Invoice) (h : Heap) :
  recalculateAllDataOnHeap allInvoices h
  = Some {| heap := h ++ updatedInventory (recalculateAllData allInvoices);
            inventoryRefs :=
              seq (length h)
                (length (updatedInventory (recalculateAllData allInvoices)));
            processed := updatedInvoices (recalculateAllData allInvoices) |}.
Proof.
  unfold recalculateAllDataOnHeap.
  pose proof (replayLoopOnHeap_refines (sortBy compareInvoices allInvoices)
                h [] []) as H.
  rewrite app_nil_r in H. simpl in H. rewrite H.
  rewrite recalculateAllData_eq. reflexivity.
Qed.

Lemma readRefs_middle (inventory : list InventoryBatch) :
  forall pre suf : list InventoryBatch,
    readRefs (pre ++ inventory ++ suf) (seq (length pre) (length inventory))
    = map Some inventory.
Proof.
  induction inventory as [| b rest IH]; intros pre suf; [reflexivity |].
  simpl. unfold readRefs in *. simpl.
  rewrite list_lookup_middle by reflexivity. f_equal.
  replace (pre ++ b :: rest ++ suf) with ((pre ++ [b]) ++ rest ++ suf)
    by (rewrite <- app_assoc; reflexivity).
  replace (S (length pre)) with (length (pre ++ [b]))
    by (rewrite length_app; simpl; lia).
  apply IH.
Qed.

(** C6: two runs of the replay on the same transactions, the second on the
    heap the first one left, return the same annotated transactions and
    batch lists with the same contents.  Each run allocates its batches
    afresh: the second run's references all lie beyond the heap of the
    first, whose batches it leaves as they were; and what a run returns
    is a function of the transactions alone. *)
Theorem C6_replay_twice_same_output (invoices : list Invoice) (h : Heap) :
  exists run1 run2,
    recalculateAllDataOnHeap invoices h = Some run1
    /\ recalculateAllDataOnHeap invoices (heap run1) = Some run2
    /\ processed run2 = processed run1
    /\ readRefs (heap run2) (inventoryRefs run2)
       = readRefs (heap run1) (inventoryRefs run1)
    /\ readRefs (heap run2) (inventoryRefs run1)
       = readRefs (heap run1) (inventoryRefs run1)
    /\ (forall r, In r (inventoryRefs run2) -> (length (heap run1) <= r)%nat)
    /\ processed run1 = updatedInvoices (recalculateAllData invoices)
    /\ readRefs (heap run1) (inventoryRefs run1)
       = map Some (updatedInventory (recalculateAllData invoices)).
Proof.
  eexists. eexists.
  split; [apply recalculateAllDataOnHeap_refines |].
  split; [apply recalculateAllDataOnHeap_refines |].
  simpl.
  set (out := updatedInventory (recalculateAllData invoices)).
  assert (R1 : readRefs (h ++ out) (seq (length h) (length out)) = map Some out).
  { pose proof (readRefs_middle out h []) as H.
    rewrite app_nil_r in H. exact H. }
  assert (R2 : readRefs ((h ++ out) ++ out)
                 (seq (length (h ++ out)) (length out)) = map Some out).
  { pose proof (readRefs_middle out (h ++ out) []) as H.
    rewrite app_nil_r in H. exact H. }
  assert (R3 : readRefs ((h ++ out) ++ out) (seq (length h) (length out))
               = map Some out).
  { rewrite <- app_assoc. apply readRefs_middle. }
  split; [reflexivity |].
  split; [rewrite R1, R2; reflexivity |].
  split; [rewrite R1, R3; reflexivity |].
  split; [| split; [reflexivity | exact R1]].
  intros r Hr. apply in_seq in Hr. lia.
Qed.

(** The second run on [ledgerA] starts from the heap that holds the batch
    of the first run, already drawn down to 60 g, and again returns a
    batch of 60 g from the original 100 g. *)
Example replay_twice_ledgerA :
  exists run1 run2,
    recalculateAllDataOnHeap ledgerA [] = Some run1
    /\ recalculateAllDataOnHeap ledgerA (heap run1) = Some run2
    /\ inventoryRefs run1 = [0%nat] /\ inventoryRefs run2 = [1%nat]
    /\ map remainingQuantity (heap run2) = [60; 60].
Proof.
  eexists. eexists. split; [vm_compute; reflexivity |].
  split; [vm_compute; reflexivity |]. vm_compute. repeat split.
Qed.

(** * Further properties *)

(** ** The replay: what it returns *)

Lemma filter_respects_Permutation {A : Type} (f : A -> bool) (l l' : list A) :
  Permutation l l' -> Permutation (List.filter f l) (List.filter f l').
Proof.
  induction 1 as [| x l l' _ IH | x y l | l l' l'' _ IH1 _ IH2]; simpl.
  - reflexivity.
  - destruct (f x); [constructor |]; exact IH.
  - destruct (f x), (f y); try reflexivity. apply perm_swap.
  - etransitivity; eassumption.
Qed.

Lemma processSale_inputFields (inv : Invoice) (inventory : list InventoryBatch) :
  inputFields (snd (processSale inv inventory)) = inputFields inv
  /\ type (snd (processSale inv inventory)) = type inv.
Proof. rewrite processSale_eq. split; reflexivity. Qed.

Lemma replay_inputFields (l : list Invoice) :
  forall s : list InventoryBatch * list Invoice,
    map inputFields (snd (fold_left replayStep l s))
    = map inputFields (snd s) ++ map inputFields l.
Proof.
  induction l as [| inv l IH]; intros [inventory done]; simpl.
  - rewrite app_nil_r. reflexivity.
  - rewrite IH. unfold replayStep. destruct (type inv).
    + simpl. rewrite map_app, <- app_assoc. reflexivity.
    + pose proof (processSale_inputFields inv inventory) as [Hf _].
      destruct (processSale inv inventory) as [inventory' inv'].
      simpl in *. rewrite map_app, <- app_assoc. simpl. rewrite Hf.
      reflexivity.
Qed.

(** X1: on any runtime, the replay returns every transaction it was
    given exactly once, in the order in which the runtime's sort puts
    them, with the fields the caller supplied unchanged; a PURCHASE comes
    back with cost 0, profit 0 and an empty trace. *)
Theorem replay_returns_sorted_input
    (localeCompare : string -> string -> comparison)
    (arraySort :
       (Invoice -> Invoice -> comparison) -> list Invoice -> list Invoice)
    (Hsort : forall l : list Invoice,
               Permutation (arraySort (Runtime.compareInvoices localeCompare) l) l)
    (invoices : list Invoice) :
  let run := Runtime.recalculateAllData localeCompare arraySort invoices in
  map inputFields (updatedInvoices run)
  = map inputFields
      (arraySort (Runtime.compareInvoices localeCompare) invoices)
  /\ Permutation (map inputFields (updatedInvoices run))
       (map inputFields invoices)
  /\ (forall out,
        In out (updatedInvoices run) ->
        type out = PURCHASE ->
        cogs out = Some 0 /\ profit out = Some 0 /\ fifoLog out = Some []).
Proof.
  cbv zeta. rewrite runtime_recalculateAllData_eq. simpl updatedInvoices.
  assert (H : map inputFields
                (snd (fold_left replayStep
                        (arraySort (Runtime.compareInvoices localeCompare)
                           invoices) ([], [])))
              = map inputFields
                  (arraySort (Runtime.compareInvoices localeCompare) invoices)).
  { rewrite replay_inputFields. reflexivity. }
  split; [exact H |]. split.
  - rewrite H. apply Permutation_map, Hsort.
  - intros out Hin Ht.
    apply replay_processed in Hin. simpl in Hin.
    destruct Hin as [[] | [(inv & _ & _ & ->) | (inv & b & _ & Hs & ->)]].
    + repeat split.
    + destruct (processSale_inputFields inv b) as [_ Hty]. congruence.
Qed.

Lemma replay_returns_sorted_input_witness :
  let run := Runtime.recalculateAllData String.compare (@sortBy Invoice)
               ledgerA in
  map inputFields (updatedInvoices run)
  = map inputFields
      (sortBy (Runtime.compareInvoices String.compare) ledgerA)
  /\ Permutation (map inputFields (updatedInvoices run))
       (map inputFields ledgerA)
  /\ (forall out,
        In out (updatedInvoices run) ->
        type out = PURCHASE ->
        cogs out = Some 0 /\ profit out = Some 0 /\ fifoLog out = Some []).
Proof.
  apply (replay_returns_sorted_input String.compare (@sortBy Invoice)
           (sortBy_Permutation _) ledgerA).
Defined.

(** What one sale does to each batch: identity kept, remaining quantity
    not increased, and only a batch it draws from may get the sale's date
    as closed date. *)
Lemma consumeBatches_batchwise (d : string) (inventory : list InventoryBatch) :
  forall st : SaleState,
    Forall2
      (fun b b' =>
         batchIdentity b' = batchIdentity b
         /\ remainingQuantity b' <= remainingQuantity b
         /\ (b' = b
             \/ (isOpen b = true
                 /\ (closedDate b' = closedDate b \/ closedDate b' = Some d))))
      inventory (fst (consumeBatches d inventory st)).
Proof.
  induction inventory as [| b rest IH]; intros st; simpl; [constructor |].
  assert (Hsame : Forall2
            (fun b0 b' =>
               batchIdentity b' = batchIdentity b0
               /\ remainingQuantity b' <= remainingQuantity b0
               /\ (b' = b0
                   \/ (isOpen b0 = true
                       /\ (closedDate b' = closedDate b0
                           \/ closedDate b' = Some d))))
            (b :: rest) (b :: rest)).
  { apply Forall2_same_length_lookup_2; [reflexivity |].
    intros i x y Hx Hy. rewrite Hx in Hy. inversion Hy; subst.
    repeat split; [lra | left; reflexivity]. }
  qcase_on (Qleb (remainingToSell st) 0); [exact Hsame |].
  unfold isOpen in *.
  destruct (Qltb EPS_BATCH (remainingQuantity b)) eqn:Ho.
  - apply Qltb_true in Ho. unfold EPS_BATCH in Ho.
    assert (Hb : let b' := fst (takeFromBatch d b st) in
                 batchIdentity b' = batchIdentity b
                 /\ remainingQuantity b' <= remainingQuantity b
                 /\ (closedDate b' = closedDate b \/ closedDate b' = Some d)).
    { unfold takeFromBatch.
      destruct (Qmin_cases (remainingQuantity b) (remainingToSell st))
        as [[H1 H2] | [H1 H2]];
        qcase; simpl; repeat split; try lra; auto. }
    destruct (takeFromBatch d b st) as [b' st'].
    specialize (IH st'). destruct (consumeBatches d rest st') as [rest' st''].
    simpl in *. constructor; [| exact IH].
    destruct Hb as (H1 & H2 & H3). repeat split; try assumption.
    right. split; [apply Qltb_true; unfold EPS_BATCH; exact Ho | exact H3].
  - specialize (IH st). destruct (consumeBatches d rest st) as [rest' st'].
    simpl in *. constructor; [| exact IH].
    repeat split; [lra | left; reflexivity].
Qed.

Lemma consumeBatches_identity (d : string) (inventory : list InventoryBatch)
    (st : SaleState) :
  map batchIdentity (fst (consumeBatches d inventory st))
  = map batchIdentity inventory.
Proof.
  pose proof (consumeBatches_batchwise d inventory st) as H.
  induction H as [| b b' l l' (Hid & _) _ IH]; simpl; [reflexivity |].
  rewrite Hid, IH. reflexivity.
Qed.

Lemma replay_batches (l : list Invoice) :
  forall s : list InventoryBatch * list Invoice,
    map batchIdentity (fst (fold_left replayStep l s))
    = map batchIdentity (fst s)
      ++ map (fun inv => batchIdentity (newBatch inv)) (List.filter isPurchase l).
Proof.
  induction l as [| inv l IH]; intros [inventory done]; simpl.
  - rewrite app_nil_r. reflexivity.
  - rewrite IH. unfold replayStep, isPurchase. destruct (type inv).
    + simpl. rewrite map_app, <- app_assoc. reflexivity.
    + rewrite processSale_eq. simpl. rewrite consumeBatches_identity.
      reflexivity.
Qed.

(** X2: on any runtime, the batch list the replay returns has one batch
    per PURCHASE, in the order in which the runtime's sort puts the
    purchases, carrying that purchase's id, date, quantity (as original
    quantity) and unit price (as cost): sales never add, drop, reorder or
    re-price a batch. *)
Theorem replay_one_batch_per_purchase
    (localeCompare : string -> string -> comparison)
    (arraySort :
       (Invoice -> Invoice -> comparison) -> list Invoice -> list Invoice)
    (Hsort : forall l : list Invoice,
               Permutation (arraySort (Runtime.compareInvoices localeCompare) l) l)
    (invoices : list Invoice) :
  let run := Runtime.recalculateAllData localeCompare arraySort invoices in
  map batchIdentity (updatedInventory run)
  = map (fun inv => (id inv, date inv, quantityGrams inv, ratePerGram inv))
      (List.filter isPurchase
         (arraySort (Runtime.compareInvoices localeCompare) invoices))
  /\ length (updatedInventory run) = length (List.filter isPurchase invoices).
Proof.
  cbv zeta. rewrite runtime_recalculateAllData_eq. simpl updatedInventory.
  assert (H : map batchIdentity
                (fst (fold_left replayStep
                        (arraySort (Runtime.compareInvoices localeCompare)
                           invoices) ([], [])))
              = map (fun inv => (id inv, date inv, quantityGrams inv,
                                 ratePerGram inv))
                  (List.filter isPurchase
                     (arraySort (Runtime.compareInvoices localeCompare)
                        invoices))).
  { rewrite replay_batches. reflexivity. }
  split; [exact H |].
  apply (f_equal (@length _)) in H. rewrite !length_map in H. rewrite H.
  apply Permutation_length.
  apply filter_respects_Permutation, Hsort.
Qed.

Lemma replay_one_batch_per_purchase_witness :
  let run := Runtime.recalculateAllData String.compare (@sortBy Invoice)
               ledgerQuarters in
  map batchIdentity (updatedInventory run)
  = map (fun inv => (id inv, date inv, quantityGrams inv, ratePerGram inv))
      (List.filter isPurchase
         (sortBy (Runtime.compareInvoices String.compare) ledgerQuarters))
  /\ length (updatedInventory run)
     = length (List.filter isPurchase ledgerQuarters).
Proof.
  apply (replay_one_batch_per_purchase String.compare (@sortBy Invoice)
           (sortBy_Permutation _) ledgerQuarters).
Defined.

(** X3: a sale never restocks: it leaves every batch's id, date, original
    quantity and cost as they were, never raises a remaining quantity,
    and sets no closed date other than its own date. *)
Theorem sale_only_draws_down (inv : Invoice) (inventory : list InventoryBatch) :
  Forall2
    (fun b b' =>
       batchIdentity b' = batchIdentity b
       /\ remainingQuantity b' <= remainingQuantity b
       /\ (closedDate b' = closedDate b \/ closedDate b' = Some (date inv)))
    inventory (fst (processSale inv inventory)).
Proof.
  rewrite processSale_eq. simpl.
  eapply Forall2_impl; [apply consumeBatches_batchwise |].
  intros b b' (H1 & H2 & [-> | [_ H3]]); repeat split; auto.
Qed.

(** ** The replay: what a sale removes from the stock *)

Lemma stockDrawn_same (l : list InventoryBatch) :
  stockDrawn l l == 0 /\ costDrawn l l == 0.
Proof. induction l as [| b l [IH1 IH2]]; simpl; split; lra. Qed.

(** The inner loop sells the smaller of the amount asked for and the
    open stock.  The batches lose these grams and, in the one batch where
    the sale ends, a residue below the tolerance that is set to zero
    without being charged. *)
Lemma consumeBatches_drawn (d : string) (inventory : list InventoryBatch) :
  forall st : SaleState,
    0 <= remainingToSell st ->
    let r := consumeBatches d inventory st in
    let sold := Qmin (remainingToSell st) (openStock inventory) in
    remainingToSell (snd r) == remainingToSell st - sold
    /\ exists residue k,
         0 <= residue /\ residue < EPS_BATCH
         /\ (residue == 0
             \/ exists b, In b inventory /\ k = costPerGram b)
         /\ stockDrawn inventory (fst r) == sold + residue
         /\ costDrawn inventory (fst r)
            == totalCOGS (snd r) - totalCOGS st + residue * k.
Proof.
  induction inventory as [| b rest IH]; intros st Hst; cbv zeta.
  - simpl. unfold openStock. simpl.
    destruct (Qmin_cases (remainingToSell st) 0) as [[H1 H2] | [H1 H2]];
      (split; [lra |]); exists 0, 0; unfold EPS_BATCH;
      (split; [lra |]); (split; [lra |]); (split; [left; lra |]); split; lra.
  - pose proof (openStock_nonneg rest) as Hos.
    simpl consumeBatches. rewrite openStock_cons. unfold isOpen.
    qcase_on (Qleb (remainingToSell st) 0).
    + destruct (stockDrawn_same (b :: rest)) as [S1 S2]. simpl fst. simpl snd.
      assert (Hsold : forall x, 0 <= x -> Qmin (remainingToSell st) x == 0).
      { intros x Hx.
        destruct (Qmin_cases (remainingToSell st) x) as [[H1 H2] | [H1 H2]];
          lra. }
      assert (H0 : Qmin (remainingToSell st)
                     (if Qltb EPS_BATCH (remainingQuantity b)
                      then remainingQuantity b + openStock rest
                      else openStock rest) == 0).
      { apply Hsold. qcase; unfold EPS_BATCH in *; lra. }
      set (sold := Qmin _ _) in *. split; [lra |]. exists 0, 0.
      split; [lra |]. split; [reflexivity |]. split; [left; lra |].
      split; lra.
    + qcase_on (Qltb EPS_BATCH (remainingQuantity b)).
      * unfold takeFromBatch. unfold EPS_BATCH in *.
        destruct (Qmin_cases (remainingQuantity b) (remainingToSell st))
          as [[H1 H2] | [H1 H2]].
        -- (* the batch is used up *)
           set (st' := {| remainingToSell := _; totalCOGS := _;
                          consumptionLog := _ |}).
           assert (Hst' : 0 <= remainingToSell st') by (subst st'; simpl; lra).
           specialize (IH st' Hst'). cbv zeta in IH.
           destruct IH as (I1 & residue & k & R1 & R2 & R3 & R4 & R5).
           assert (Hleft : Qltb (remainingQuantity b
                                 - Qmin (remainingQuantity b) (remainingToSell st))
                             (1 # 10000) = true)
             by (apply Qltb_true; lra).
           rewrite Hleft.
           destruct (consumeBatches d rest st') as [rest' st''] eqn:Hrest.
           simpl in *. rewrite H2 in R5.
           destruct (Qmin_cases (remainingToSell st - Qmin (remainingQuantity b)
                                                       (remainingToSell st))
                       (openStock rest)) as [[A1 A2] | [A1 A2]];
             destruct (Qmin_cases (remainingToSell st)
                         (remainingQuantity b + openStock rest))
               as [[B1 B2] | [B1 B2]];
             (split; [lra |]); exists residue, k;
             (split; [exact R1 |]); (split; [exact R2 |]);
             (split; [destruct R3 as [R3 | (x & Hx & Hk)];
                      [left; exact R3 | right; exists x; tauto] |]);
             split; lra.
        -- (* the sale ends in this batch *)
           set (st' := {| remainingToSell := _; totalCOGS := _;
                          consumptionLog := _ |}).
           assert (Hdone : remainingToSell st' <= 0) by (subst st'; simpl; lra).
           assert (Hsold : Qmin (remainingToSell st)
                             (remainingQuantity b + openStock rest)
                           == remainingToSell st).
           { destruct (Qmin_cases (remainingToSell st)
                         (remainingQuantity b + openStock rest))
               as [[B1 B2] | [B1 B2]]; lra. }
           destruct (stockDrawn_same rest) as [S1 S2].
           destruct (Qltb (remainingQuantity b
                           - Qmin (remainingQuantity b) (remainingToSell st))
                       (1 # 10000)) eqn:Hleft;
             [apply Qltb_true in Hleft | apply Qltb_false in Hleft];
             rewrite (consumeBatches_done d rest st' Hdone);
             subst st'; simpl; rewrite Hsold; (split; [lra |]).
           ++ exists (remainingQuantity b - remainingToSell st), (costPerGram b).
              split; [lra |]. split; [lra |].
              split; [right; exists b; split; [left |]; reflexivity |].
              split; [lra |]. rewrite H2. ring_simplify. lra.
           ++ exists 0, 0. split; [lra |]. split; [lra |].
              split; [left; lra |]. rewrite H2. split; ring_simplify; lra.
      * specialize (IH st Hst). cbv zeta in IH.
        destruct IH as (I1 & residue & k & R1 & R2 & R3 & R4 & R5).
        destruct (consumeBatches d rest st) as [rest' st'] eqn:Hrest.
        simpl in *. split; [exact I1 |]. exists residue, k.
        split; [exact R1 |]. split; [exact R2 |].
        split; [destruct R3 as [R3 | (x & Hx & Hk)];
                [left; exact R3 | right; exists x; tauto] |].
        split; lra.
Qed.

(** X4: what a sale of a non-negative quantity is charged accounts for
    what it removes from the stock.  It sells the smaller of its quantity
    and the open stock; the batches lose these grams and less than
    0.0001 g more (the residue of the one batch that is set to zero); and
    when no batch costs less than zero or more than a given rate, the
    cost of goods sold is the cost of the grams the batches lost, short
    of it by at most 0.0001 g at that rate. *)
Theorem sale_charge_accounts_for_stock_drawn (hi : Q) (inv : Invoice)
    (inventory : list InventoryBatch)
    (Hq : 0 <= quantityGrams inv) (Hhi : 0 <= hi)
    (Hcost : forall b, In b inventory ->
               0 <= costPerGram b /\ costPerGram b <= hi) :
  let r := processSale inv inventory in
  let sold := Qmin (quantityGrams inv) (openStock inventory) in
  sold <= stockDrawn inventory (fst r)
  /\ stockDrawn inventory (fst r) < sold + EPS_BATCH
  /\ exists c,
       cogs (snd r) = Some c
       /\ c <= costDrawn inventory (fst r)
       /\ costDrawn inventory (fst r) <= c + EPS_BATCH * hi.
Proof.
  rewrite processSale_eq. cbv zeta.
  set (st0 := {| remainingToSell := quantityGrams inv; totalCOGS := 0;
                 consumptionLog := _ |}).
  destruct (consumeBatches_drawn (date inv) inventory st0 Hq)
    as (_ & residue & k & R1 & R2 & R3 & R4 & R5).
  simpl in R4, R5. simpl fst. simpl snd. simpl cogs.
  split; [lra |]. split; [lra |].
  eexists. split; [reflexivity |].
  assert (Hk : 0 <= residue * k /\ residue * k <= EPS_BATCH * hi).
  { destruct R3 as [R3 | (b & Hb & ->)].
    - rewrite R3. unfold EPS_BATCH in *. split; nra.
    - destruct (Hcost b Hb) as [C1 C2]. unfold EPS_BATCH in *. split; nra. }
  split; lra.
Qed.

Lemma sale_charge_accounts_for_stock_drawn_witness :
  let r := processSale (sale "s1" "2024-01-03" None 12 6500 78000) twoBatches in
  12 <= stockDrawn twoBatches (fst r)
  /\ stockDrawn twoBatches (fst r) < 12 + EPS_BATCH
  /\ exists c,
       cogs (snd r) = Some c
       /\ c <= costDrawn twoBatches (fst r)
       /\ costDrawn twoBatches (fst r) <= c + EPS_BATCH * 6100.
Proof.
  apply (sale_charge_accounts_for_stock_drawn 6100
           (sale "s1" "2024-01-03" None 12 6500 78000) twoBatches).
  - vm_compute. discriminate.
  - vm_compute. discriminate.
  - intros b [<- | [<- | []]]; vm_compute; split; discriminate.
Defined.

(** ** The replay: first in, first out *)

Lemma consumeBatches_fifo (d : string) (inventory : list InventoryBatch) :
  forall (st : SaleState) (i j : nat) (b b' c' : InventoryBatch),
    (i < j)%nat ->
    inventory !! j = Some b ->
    fst (consumeBatches d inventory st) !! j = Some b' ->
    b' <> b ->
    fst (consumeBatches d inventory st) !! i = Some c' ->
    isOpen c' = false.
Proof.
  induction inventory as [| b0 rest IH]; intros st i j b b' c' Hij Hj Hj' Hne Hi.
  - discriminate.
  - destruct j as [| j]; [lia |]. simpl in Hj. simpl in Hj', Hi.
    revert Hj' Hi.
    qcase_on (Qleb (remainingToSell st) 0).
    { simpl. intros Hj' _. rewrite Hj in Hj'. congruence. }
    destruct (Qltb EPS_BATCH (remainingQuantity b0)) eqn:Ho.
    + apply Qltb_true in Ho.
      assert (Hhead : isOpen (fst (takeFromBatch d b0 st)) = false
                      \/ remainingToSell (snd (takeFromBatch d b0 st)) <= 0).
      { unfold takeFromBatch, isOpen.
        destruct (Qmin_cases (remainingQuantity b0) (remainingToSell st))
          as [[H1 H2] | [H1 H2]].
        - left. qcase_on (Qltb (remainingQuantity b0
                                - Qmin (remainingQuantity b0) (remainingToSell st))
                               EPS_BATCH); simpl.
          + reflexivity.
          + exfalso. unfold EPS_BATCH in *. lra.
        - right. destruct (Qltb _ EPS_BATCH); simpl; lra. }
      destruct (takeFromBatch d b0 st) as [b0' st'].
      destruct Hhead as [Hclosed | Hdone].
      * specialize (IH st').
        destruct (consumeBatches d rest st') as [rest' st''].
        simpl in *. intros Hj' Hi. destruct i as [| i].
        -- inversion Hi; subst. exact Hclosed.
        -- simpl in Hi. eapply (IH i j); eauto. lia.
      * rewrite (consumeBatches_done d rest st' Hdone). simpl.
        intros Hj' _. rewrite Hj in Hj'. congruence.
    + specialize (IH st). destruct (consumeBatches d rest st) as [rest' st'].
      simpl in *. intros Hj' Hi. destruct i as [| i].
      * inversion Hi; subst. unfold isOpen. exact Ho.
      * simpl in Hi. eapply (IH i j); eauto. lia.
Qed.

(** X5: first in, first out.  When a sale changes a batch, every batch
    before it in the list is left with at most 0.0001 g: a newer batch is
    drawn from only after the older ones are used up. *)
Theorem sale_draws_oldest_first (inv : Invoice) (inventory : list InventoryBatch)
    (i j : nat) (b b' c' : InventoryBatch)
    (Hij : (i < j)%nat)
    (Hbefore : inventory !! j = Some b)
    (Hafter : fst (processSale inv inventory) !! j = Some b')
    (Hchanged : b' <> b)
    (Hearlier : fst (processSale inv inventory) !! i = Some c') :
  isOpen c' = false /\ remainingQuantity c' <= EPS_BATCH.
Proof.
  rewrite processSale_eq in Hafter, Hearlier. simpl in Hafter, Hearlier.
  assert (H : isOpen c' = false)
    by exact (consumeBatches_fifo _ _ _ i j b b' c'
                Hij Hbefore Hafter Hchanged Hearlier).
  split; [exact H |]. apply Qltb_false. exact H.
Qed.

Lemma sale_draws_oldest_first_witness :
  isOpen {| batchId := "p1"; batchDate := "2024-01-01";
            originalQuantity := 10; remainingQuantity := 0;
            costPerGram := 6000; closedDate := Some "2024-01-03" |} = false
  /\ 0 <= EPS_BATCH.
Proof.
  apply (sale_draws_oldest_first
           (sale "s1" "2024-01-03" None 12 6500 78000) twoBatches 0 1
           (newBatch (purchase "p2" "2024-01-02" None 5 6100))
           {| batchId := "p2"; batchDate := "2024-01-02";
              originalQuantity := 5; remainingQuantity := 5 - (12 - 10);
              costPerGram := 6100; closedDate := None |}).
  - lia.
  - reflexivity.
  - vm_compute. reflexivity.
  - discriminate.
  - vm_compute. reflexivity.
Defined.

(** ** The replay: malformed and boundary sales *)

(** X6: a SALE of zero or negative quantity touches no batch: the batch
    list is returned as it was, the sale is charged no cost, its trace has
    no consumption and no stockout line, and its whole revenue is booked
    as profit. *)
Theorem nonpositive_sale_touches_nothing (inv : Invoice)
    (inventory : list InventoryBatch)
    (Hq : quantityGrams inv <= 0) :
  fst (processSale inv inventory) = inventory
  /\ cogs (snd (processSale inv inventory)) = Some 0
  /\ fifoLog (snd (processSale inv inventory))
     = Some (if truthyOpt (createdAt inv) then [] else [NoTimestampWarning])
  /\ profit (snd (processSale inv inventory))
     = Some (orElse (taxableAmount inv) (quantityGrams inv * ratePerGram inv) - 0).
Proof.
  rewrite processSale_eq. cbv zeta.
  rewrite consumeBatches_done by exact Hq. simpl.
  rewrite (proj2 (Qltb_false EPS_BATCH (quantityGrams inv)))
    by (unfold EPS_BATCH; lra).
  repeat split.
Qed.

Lemma nonpositive_sale_touches_nothing_witness :
  fst (processSale (sale "s2" "2024-01-03" None (-1) 6500 0) tenGramsInStock)
  = tenGramsInStock
  /\ cogs (snd (processSale (sale "s2" "2024-01-03" None (-1) 6500 0)
                  tenGramsInStock)) = Some 0
  /\ fifoLog (snd (processSale (sale "s2" "2024-01-03" None (-1) 6500 0)
                     tenGramsInStock))
     = Some [NoTimestampWarning]
  /\ profit (snd (processSale (sale "s2" "2024-01-03" None (-1) 6500 0)
                    tenGramsInStock))
     = Some (orElse 0 (-1 * 6500) - 0).
Proof.
  apply (nonpositive_sale_touches_nothing
           (sale "s2" "2024-01-03" None (-1) 6500 0) tenGramsInStock).
  vm_compute. discriminate.
Defined.

(** ** The replay: invariants of the batch list *)

(** Every entry of [processedInvoices] was pushed by one iteration, run on
    a batch list that satisfies whatever the iterations keep invariant. *)
Lemma replay_processed_inv (P : list InventoryBatch -> Prop) (l : list Invoice) :
  (forall inv inventory, In inv l -> P inventory ->
     (type inv = PURCHASE -> P (inventory ++ [newBatch inv]))
     /\ (type inv = SALE -> P (fst (processSale inv inventory)))) ->
  forall s : list InventoryBatch * list Invoice,
    P (fst s) ->
    P (fst (fold_left replayStep l s))
    /\ (forall x, In x (snd (fold_left replayStep l s)) ->
          In x (snd s)
          \/ (exists inv, In inv l /\ type inv = PURCHASE
                          /\ x = annotate inv 0 0 [])
          \/ (exists inv inventory, In inv l /\ type inv = SALE
                          /\ P inventory
                          /\ x = snd (processSale inv inventory))).
Proof.
  induction l as [| inv l IH]; intros Hstep [inventory done] HP; simpl in *.
  - split; [exact HP | auto].
  - destruct (Hstep inv inventory (or_introl eq_refl) HP) as [Hp Hs].
    assert (Hstep' : forall i b, In i l -> P b ->
              (type i = PURCHASE -> P (b ++ [newBatch i]))
              /\ (type i = SALE -> P (fst (processSale i b))))
      by (intros i b Hi; apply Hstep; right; exact Hi).
    destruct (type inv) eqn:Ht.
    + destruct (IH Hstep' (inventory ++ [newBatch inv],
                           done ++ [annotate inv 0 0 []]) (Hp eq_refl))
        as [I1 I2].
      split; [exact I1 |]. intros x Hx. apply I2 in Hx. simpl in Hx.
      destruct Hx as [Hx | [(i & Hi & Hti & He) | (i & b & Hi & Hti & Hb & He)]].
      * apply in_app_or in Hx. destruct Hx as [Hx | [<- | []]]; [auto |].
        right. left. exists inv. auto.
      * right. left. exists i. auto.
      * right. right. exists i, b. auto.
    + specialize (Hs eq_refl).
      destruct (processSale inv inventory) as [inventory' inv'] eqn:Hps.
      destruct (IH Hstep' (inventory', done ++ [inv']) Hs) as [I1 I2].
      split; [exact I1 |]. intros x Hx. apply I2 in Hx. simpl in Hx.
      destruct Hx as [Hx | [(i & Hi & Hti & He) | (i & b & Hi & Hti & Hb & He)]].
      * apply in_app_or in Hx. destruct Hx as [Hx | [<- | []]]; [auto |].
        right. right. exists inv, inventory. rewrite Hps. auto.
      * right. left. exists i. auto.
      * right. right. exists i, b. auto.
Qed.

Lemma takeFromBatch_closed (isSaleDate : string -> Prop) (d : string)
    (b : InventoryBatch) (st : SaleState) :
  isSaleDate d -> closedIffEmpty isSaleDate b ->
  EPS_BATCH < remainingQuantity b ->
  closedIffEmpty isSaleDate (fst (takeFromBatch d b st)).
Proof.
  intros Hd [[Hnone Hpos] | [Hzero _]] Ho;
    [| rewrite Hzero in Ho; unfold EPS_BATCH in Ho; lra].
  unfold takeFromBatch, closedIffEmpty. qcase; simpl.
  - right. split; [reflexivity |]. exists d. auto.
  - left. split; [exact Hnone | unfold EPS_BATCH in *; lra].
Qed.

Lemma consumeBatches_closed (isSaleDate : string -> Prop) (d : string)
    (inventory : list InventoryBatch) :
  isSaleDate d ->
  forall st : SaleState,
    Forall (closedIffEmpty isSaleDate) inventory ->
    Forall (closedIffEmpty isSaleDate) (fst (consumeBatches d inventory st)).
Proof.
  intros Hd.
  induction inventory as [| b rest IH]; intros st Hall; simpl; [constructor |].
  inversion Hall as [| ? ? Hb Hrest]; subst.
  destruct (Qleb (remainingToSell st) 0); [exact Hall |].
  destruct (Qltb EPS_BATCH (remainingQuantity b)) eqn:Ho.
  - apply Qltb_true in Ho.
    pose proof (takeFromBatch_closed isSaleDate d b st Hd Hb Ho) as Hb'.
    destruct (takeFromBatch d b st) as [b' st'].
    specialize (IH st' Hrest).
    destruct (consumeBatches d rest st') as [rest' st''].
    simpl in *. constructor; assumption.
  - specialize (IH st Hrest).
    destruct (consumeBatches d rest st) as [rest' st'].
    simpl in *. constructor; assumption.
Qed.

(** X7: when all quantities are positive, a batch the replay returns has
    a closed date exactly when its remaining quantity is zero, and that
    date is the date of one of the sales. *)
Theorem closed_date_marks_empty_batches (invoices : list Invoice)
    (Hpos : forall inv, In inv invoices -> 0 < quantityGrams inv) :
  forall b, In b (updatedInventory (recalculateAllData invoices)) ->
    (closedDate b = None /\ 0 < remainingQuantity b)
    \/ (remainingQuantity b = 0
        /\ exists s, In s invoices /\ type s = SALE
                     /\ closedDate b = Some (date s)).
Proof.
  set (isSaleDate := fun d => exists s, In s invoices /\ type s = SALE
                                        /\ date s = d).
  assert (Hall : Forall (closedIffEmpty isSaleDate)
                   (updatedInventory (recalculateAllData invoices))).
  { rewrite recalculateAllData_eq. simpl.
    apply (replay_processed_inv (Forall (closedIffEmpty isSaleDate)));
      [| constructor].
    intros inv inventory Hin HP.
    apply (proj1 (sortBy_In compareInvoices inv invoices)) in Hin.
    split; intros Ht.
    - apply Forall_app. split; [exact HP |]. constructor; [| constructor].
      left. split; [reflexivity |]. simpl. apply Hpos. exact Hin.
    - rewrite processSale_eq. simpl. apply consumeBatches_closed; [| exact HP].
      exists inv. auto. }
  intros b Hb. rewrite Forall_forall in Hall.
  destruct (Hall b (proj2 (list_elem_of_In _ _) Hb))
    as [H | (Hz & d & Hd & s & Hs & Ht & He)]; [left; exact H |].
  right. split; [exact Hz |]. exists s. subst d. auto.
Qed.

Lemma closed_date_marks_empty_batches_witness :
  Forall
    (fun b =>
       (closedDate b = None /\ 0 < remainingQuantity b)
       \/ (remainingQuantity b = 0
           /\ exists s, In s ledgerA /\ type s = SALE
                        /\ closedDate b = Some (date s)))
    (updatedInventory (recalculateAllData ledgerA)).
Proof.
  apply List.Forall_forall.
  apply (closed_date_marks_empty_batches ledgerA).
  intros inv [<- | [<- | []]]; vm_compute; reflexivity.
Defined.

(** ** The replay: cost of goods sold against purchase rates *)

Lemma consumeBatches_cost_bounds (lo hi : Q) (d : string)
    (inventory : list InventoryBatch) :
  Forall (fun b => lo <= costPerGram b /\ costPerGram b <= hi) inventory ->
  forall st : SaleState,
    lo * (remainingToSell st - remainingToSell (snd (consumeBatches d inventory st)))
      <= totalCOGS (snd (consumeBatches d inventory st)) - totalCOGS st
    /\ totalCOGS (snd (consumeBatches d inventory st)) - totalCOGS st
      <= hi * (remainingToSell st
               - remainingToSell (snd (consumeBatches d inventory st))).
Proof.
  induction 1 as [| b rest [Hlo Hhi] _ IH]; intros st; simpl.
  - split; lra.
  - qcase_on (Qleb (remainingToSell st) 0); [simpl; split; lra |].
    destruct (Qltb EPS_BATCH (remainingQuantity b)) eqn:Ho.
    + apply Qltb_true in Ho. unfold EPS_BATCH in Ho.
      assert (Hst : let st' := snd (takeFromBatch d b st) in
                exists take,
                  0 < take
                  /\ remainingToSell st' = remainingToSell st - take
                  /\ totalCOGS st' = totalCOGS st + take * costPerGram b).
      { unfold takeFromBatch.
        exists (Qmin (remainingQuantity b) (remainingToSell st)).
        destruct (Qmin_cases (remainingQuantity b) (remainingToSell st))
          as [[H1 H2] | [H1 H2]];
          destruct (Qltb _ EPS_BATCH); simpl; repeat split; lra. }
      destruct (takeFromBatch d b st) as [b' st'].
      specialize (IH st'). destruct (consumeBatches d rest st') as [rest' st''].
      simpl in *. destruct Hst as (take & Ht0 & Hn & Hc').
      rewrite Hn, Hc' in IH. destruct IH as [I1 I2]. split; nra.
    + specialize (IH st). destruct (consumeBatches d rest st) as [rest' st'].
      simpl in *. exact IH.
Qed.

(** X8: the cost of goods sold of a sale of a non-negative quantity lies
    between the lowest and the highest cost among the batches, times the
    grams it sells from stock: the smaller of its quantity and the open
    stock.  In particular it is not negative when no cost is. *)
Theorem cogs_between_purchase_rates (lo hi : Q) (inv : Invoice)
    (inventory : list InventoryBatch)
    (Hq : 0 <= quantityGrams inv)
    (Hrates : forall b, In b inventory ->
                lo <= costPerGram b /\ costPerGram b <= hi) :
  let sold := Qmin (quantityGrams inv) (openStock inventory) in
  exists c,
    cogs (snd (processSale inv inventory)) = Some c
    /\ lo * sold <= c /\ c <= hi * sold.
Proof.
  rewrite processSale_eq. cbv zeta.
  set (st0 := {| remainingToSell := quantityGrams inv; totalCOGS := 0;
                 consumptionLog := _ |}).
  destruct (consumeBatches_drawn (date inv) inventory st0 Hq) as [Hsold _].
  assert (HP : Forall (fun b => lo <= costPerGram b /\ costPerGram b <= hi)
                 inventory).
  { apply List.Forall_forall. exact Hrates. }
  destruct (consumeBatches_cost_bounds lo hi (date inv) inventory HP st0)
    as [B1 B2].
  simpl in Hsold, B1, B2. simpl snd. simpl cogs.
  eexists. split; [reflexivity |].
  set (sold := Qmin _ _) in *.
  set (left := remainingToSell _) in *.
  assert (E : quantityGrams inv - left == sold) by lra.
  rewrite E in B1, B2. split; lra.
Qed.

(** A sale of 12 g from a batch of 10 g at 6000 and a batch of 5 g at
    6100 costs 10 * 6000 + 2 * 6100, between 12 * 6000 and 12 * 6100. *)
Lemma cogs_between_purchase_rates_witness :
  exists c,
    cogs (snd (processSale (sale "s1" "2024-01-03" None 12 6500 78000)
                 twoBatches)) = Some c
    /\ 6000 * 12 <= c /\ c <= 6100 * 12.
Proof.
  apply (cogs_between_purchase_rates 6000 6100
           (sale "s1" "2024-01-03" None 12 6500 78000) twoBatches).
  - vm_compute. discriminate.
  - intros b [<- | [<- | []]]; vm_compute; split; discriminate.
Defined.

(** ** The comparator *)

(** X9: whatever collation the runtime uses, provided it answers a pair
    of strings the same way from either side, so does the comparator
    ([compareInvoices b a] is the opposite of [compareInvoices a b]),
    although it skips the timestamp tier for some pairs; and it ties two
    records only when the collation ties both their dates and their
    ids. *)
Theorem compareInvoices_antisymmetric
    (localeCompare : string -> string -> comparison)
    (Hopposite : forall s t, localeCompare t s = CompOpp (localeCompare s t))
    (a b : Invoice) :
  Runtime.compareInvoices localeCompare b a
  = CompOpp (Runtime.compareInvoices localeCompare a b)
  /\ (Runtime.compareInvoices localeCompare a b = Eq ->
      localeCompare (date a) (date b) = Eq
      /\ localeCompare (id a) (id b) = Eq).
Proof.
  unfold Runtime.compareInvoices.
  rewrite (Hopposite (date a) (date b)), (Hopposite (id a) (id b)).
  rewrite (andb_comm (truthyOpt (createdAt b))).
  destruct (localeCompare (date a) (date b)) eqn:Hd; simpl;
    [| split; [reflexivity | discriminate] ..].
  destruct (truthyOpt (createdAt a) && truthyOpt (createdAt b));
    [| split; [reflexivity | intros He; auto]].
  destruct (createdAt a) as [ta |], (createdAt b) as [tb |];
    try (split; [reflexivity | intros He; auto]).
  rewrite (Hopposite ta tb).
  destruct (localeCompare ta tb); simpl;
    split; try reflexivity; try discriminate.
  intros He. auto.
Qed.

(** The code-point order is such a collation. *)
Lemma compareInvoices_antisymmetric_witness :
  Runtime.compareInvoices String.compare cycleB cycleA
  = CompOpp (Runtime.compareInvoices String.compare cycleA cycleB)
  /\ (Runtime.compareInvoices String.compare cycleA cycleB = Eq ->
      String.compare (date cycleA) (date cycleB) = Eq
      /\ String.compare (id cycleA) (id cycleB) = Eq).
Proof.
  apply (compareInvoices_antisymmetric String.compare).
  intros s t. apply String.compare_antisym.
Defined.

(** X10: the comparator is not transitive.  Skipping the timestamp tier
    when one record of a pair has none lets three records of one day form
    a cycle: by id [cycleA] is before [cycleB] and [cycleB] before
    [cycleC], by timestamp [cycleC] is before [cycleA]. *)
Theorem compareInvoices_not_transitive :
  ~ (forall a b c : Invoice,
       compareInvoices a b = Lt -> compareInvoices b c = Lt ->
       compareInvoices a c = Lt).
Proof.
  intros Htrans.
  specialize (Htrans cycleA cycleB cycleC eq_refl eq_refl).
  vm_compute in Htrans. discriminate.
Qed.

(** ** Sums over transactions *)

Lemma sumQ_Permutation (l l' : list Q) :
  Permutation l l' -> sumQ l == sumQ l'.
Proof.
  induction 1 as [| x l l' _ IH | x y l | l l' l'' _ IH1 _ IH2]; simpl.
  - reflexivity.
  - rewrite IH. reflexivity.
  - lra.
  - rewrite IH1. exact IH2.
Qed.

Lemma stockCheck_acc (l : list Invoice) :
  forall acc,
    fold_left (fun a inv =>
                 match type inv with
                 | PURCHASE => a + quantityGrams inv
                 | SALE => a - quantityGrams inv
                 end) l acc
    == acc + sumQ (map signedGrams l).
Proof.
  induction l as [| inv l IH]; intros acc; simpl; [lra |].
  rewrite IH. unfold signedGrams. destruct (type inv); lra.
Qed.

Lemma stockCheck_sum (l : list Invoice) :
  stockCheck l == sumQ (map signedGrams l).
Proof. unfold stockCheck. rewrite stockCheck_acc. lra. Qed.

Lemma stockCheck_Permutation (l l' : list Invoice) :
  Permutation l l' -> stockCheck l == stockCheck l'.
Proof.
  intros H. rewrite !stockCheck_sum.
  apply sumQ_Permutation, Permutation_map, H.
Qed.

(** ** The snapshot *)

Lemma snapshot_total (l : list Invoice) :
  forall s : SnapState,
    totalQuantity (fold_left snapshotStepRec l s)
    == totalQuantity s + sumQ (map signedGrams l).
Proof.
  induction l as [| inv l IH]; intros s; simpl; [lra |].
  rewrite IH. unfold snapshotStepRec, signedGrams.
  destruct (type inv); simpl; lra.
Qed.

Lemma Qmax_zero_compat (x y : Q) : x == y -> Qmax 0 x == Qmax 0 y.
Proof.
  intros H.
  destruct (Q.max_spec 0 x) as [[H1 H2] | [H1 H2]];
    destruct (Q.max_spec 0 y) as [[H3 H4] | [H3 H4]]; lra.
Qed.

(** X11: the grams of a snapshot do not depend on the FIFO walk or on the
    order of the transactions: they are the purchases minus the sales
    dated on or before the cutoff, or zero when that figure is negative. *)
Theorem snapshot_grams_closed_form (fuel : nat) (invoices : list Invoice)
    (cutoff : string) (Hfuel : (length invoices < fuel)%nat) :
  exists snap,
    getInventorySnapshot fuel invoices cutoff = Some snap
    /\ grams snap == Qmax 0 (stockCheck (upTo cutoff invoices))
    /\ 0 <= grams snap.
Proof.
  rewrite getInventorySnapshot_rec by exact Hfuel. cbv zeta.
  eexists. split; [reflexivity |]. simpl grams.
  split; [| apply Q.le_max_l].
  apply Qmax_zero_compat. rewrite snapshot_total. simpl.
  rewrite stockCheck_sum.
  rewrite (sumQ_Permutation _ _
             (Permutation_map signedGrams
                (sortBy_Permutation compareInvoices (upTo cutoff invoices)))).
  unfold upTo. lra.
Qed.

Lemma snapshot_grams_closed_form_witness :
  exists snap,
    getInventorySnapshot 4 ledgerOversold "2024-01-02" = Some snap
    /\ grams snap == Qmax 0 (stockCheck (upTo "2024-01-02" ledgerOversold))
    /\ 0 <= grams snap.
Proof.
  apply (snapshot_grams_closed_form 4 ledgerOversold "2024-01-02").
  simpl. lia.
Defined.

Lemma filter_drops_later (cutoff : string) (l1 later l2 : list Invoice) :
  forallb (fun inv => negb (String.leb (date inv) cutoff)) later = true ->
  upTo cutoff (l1 ++ later ++ l2) = upTo cutoff (l1 ++ l2).
Proof.
  intros H. unfold upTo. rewrite !List.filter_app. f_equal.
  replace (List.filter (fun inv => String.leb (date inv) cutoff) later)
    with (@nil Invoice); [reflexivity |].
  induction later as [| x later IH]; simpl in *; [reflexivity |].
  apply andb_true_iff in H. destruct H as [Hx Hl].
  apply negb_true_iff in Hx. rewrite Hx. apply IH. exact Hl.
Qed.

(** X12: a snapshot is not affected by transactions dated after the
    cutoff, wherever they stand in the collection; when every transaction
    is dated after the cutoff, it is zero grams at zero value. *)
Theorem snapshot_ignores_later_transactions (fuel : nat)
    (l1 later l2 : list Invoice) (cutoff : string)
    (Hlater : forallb (fun inv => negb (String.leb (date inv) cutoff)) later
              = true) :
  getInventorySnapshot fuel (l1 ++ later ++ l2) cutoff
  = getInventorySnapshot fuel (l1 ++ l2) cutoff
  /\ getInventorySnapshot fuel later cutoff
     = Some {| grams := Qmax 0 0; value := 0 |}.
Proof.
  split.
  - unfold getInventorySnapshot.
    change (List.filter (fun inv => String.leb (date inv) cutoff)
              (l1 ++ later ++ l2)) with (upTo cutoff (l1 ++ later ++ l2)).
    rewrite (filter_drops_later cutoff l1 later l2 Hlater). reflexivity.
  - pose proof (filter_drops_later cutoff [] later [] Hlater) as H.
    rewrite app_nil_r in H. simpl in H.
    unfold getInventorySnapshot.
    change (List.filter (fun inv => String.leb (date inv) cutoff) later)
      with (upTo cutoff later).
    rewrite H. reflexivity.
Qed.

Lemma snapshot_ignores_later_transactions_witness :
  getInventorySnapshot 4
    ([purchase "p1" "2024-01-01" None 10 6000]
     ++ [sale "s1" "2024-01-02" None 15 6500 97500;
         purchase "p2" "2024-01-03" None 5 6100]
     ++ []) "2024-01-01"
  = getInventorySnapshot 4
      ([purchase "p1" "2024-01-01" None 10 6000] ++ []) "2024-01-01"
  /\ getInventorySnapshot 4
       [sale "s1" "2024-01-02" None 15 6500 97500;
        purchase "p2" "2024-01-03" None 5 6100] "2024-01-01"
     = Some {| grams := Qmax 0 0; value := 0 |}.
Proof.
  apply (snapshot_ignores_later_transactions 4
           [purchase "p1" "2024-01-01" None 10 6000]
           [sale "s1" "2024-01-02" None 15 6500 97500;
            purchase "p2" "2024-01-03" None 5 6100]
           [] "2024-01-01").
  vm_compute. reflexivity.
Defined.

Lemma sellRec_value (bs : list SnapBatch) :
  Forall (fun b => 0 < quantity b /\ 0 <= cost b) bs ->
  forall need,
    Forall (fun b => 0 < quantity b /\ 0 <= cost b) (snd (sellRec need bs))
    /\ sumQ (map (fun b => quantity b * cost b) (snd (sellRec need bs)))
       <= sumQ (map (fun b => quantity b * cost b) bs).
Proof.
  induction 1 as [| b rest [Hq Hc'] Hrest IH]; intros need; simpl.
  - split; [constructor | lra].
  - qcase_on (Qltb EPS_SNAPSHOT need).
    + unfold EPS_SNAPSHOT in Hc.
      qcase_on (Qltb need (quantity b)); simpl.
      * split; [constructor; [simpl; split; lra | exact Hrest] | nra].
      * destruct (IH (need - quantity b)) as [I1 I2].
        split; [exact I1 | nra].
    + simpl. split; [constructor; [split; assumption | exact Hrest] | lra].
Qed.

Lemma snapshot_value_bound (l : list Invoice) :
  (forall inv, In inv l -> type inv = PURCHASE ->
     0 < quantityGrams inv /\ 0 <= ratePerGram inv) ->
  forall s : SnapState,
    Forall (fun b => 0 < quantity b /\ 0 <= cost b) (batches s) ->
    Forall (fun b => 0 < quantity b /\ 0 <= cost b)
      (batches (fold_left snapshotStepRec l s))
    /\ sumQ (map (fun b => quantity b * cost b)
               (batches (fold_left snapshotStepRec l s)))
       <= sumQ (map (fun b => quantity b * cost b) (batches s))
          + purchaseCost l.
Proof.
  induction l as [| inv l IH]; intros Hp s Hs; simpl.
  - unfold purchaseCost. simpl. split; [exact Hs | lra].
  - assert (Hp' : forall i, In i l -> type i = PURCHASE ->
                    0 < quantityGrams i /\ 0 <= ratePerGram i)
      by (intros i Hi; apply Hp; right; exact Hi).
    unfold snapshotStepRec at 2 4. unfold purchaseCost, isPurchase. simpl.
    destruct (type inv) eqn:Ht.
    + destruct (Hp inv (or_introl eq_refl) Ht) as [Hq Hr].
      match goal with
      | |- context [fold_left snapshotStepRec l ?s'] =>
          destruct (IH Hp' s') as [I1 I2]
      end.
      * simpl. apply Forall_app. split; [exact Hs |].
        constructor; [simpl; split; assumption | constructor].
      * split; [exact I1 |]. simpl in I2.
        rewrite map_app, sumQ_app in I2. simpl in I2.
        unfold purchaseCost, isPurchase in I2. simpl. lra.
    + destruct (sellRec_value (batches s) Hs (quantityGrams inv)) as [S1 S2].
      match goal with
      | |- context [fold_left snapshotStepRec l ?s'] =>
          destruct (IH Hp' s') as [I1 I2]
      end.
      * simpl. exact S1.
      * split; [exact I1 |]. simpl in I2.
        unfold purchaseCost, isPurchase in I2. lra.
Qed.

Lemma sumQ_nonneg_products (bs : list SnapBatch) :
  Forall (fun b => 0 < quantity b /\ 0 <= cost b) bs ->
  0 <= sumQ (map (fun b => quantity b * cost b) bs).
Proof.
  induction 1 as [| b rest [Hq Hc'] _ IH]; simpl; [lra | nra].
Qed.

(** X13: when every purchase has a positive quantity and a non-negative
    rate, the value of a snapshot is not negative and not more than what
    the purchases dated on or before the cutoff cost. *)
Theorem snapshot_value_within_purchase_cost (fuel : nat)
    (invoices : list Invoice) (cutoff : string)
    (Hfuel : (length invoices < fuel)%nat)
    (Hpurchases : forall inv, In inv invoices -> type inv = PURCHASE ->
                    0 < quantityGrams inv /\ 0 <= ratePerGram inv) :
  exists snap,
    getInventorySnapshot fuel invoices cutoff = Some snap
    /\ 0 <= value snap
    /\ value snap <= purchaseCost (upTo cutoff invoices).
Proof.
  rewrite getInventorySnapshot_rec by exact Hfuel. cbv zeta.
  eexists. split; [reflexivity |]. simpl value.
  unfold snapshotValue. rewrite snapshotValue_acc.
  fold (upTo cutoff invoices).
  destruct (snapshot_value_bound
              (sortBy compareInvoices (upTo cutoff invoices)))
    with (s := {| batches := []; totalQuantity := 0 |}) as [B1 B2].
  { intros inv Hin. apply (proj1 (sortBy_In compareInvoices _ _)) in Hin.
    unfold upTo in Hin. apply filter_In in Hin. apply Hpurchases, Hin. }
  { constructor. }
  pose proof (sumQ_nonneg_products _ B1) as Hnn.
  simpl in B2.
  assert (Hperm : purchaseCost (sortBy compareInvoices (upTo cutoff invoices))
                  == purchaseCost (upTo cutoff invoices)).
  { unfold purchaseCost. apply sumQ_Permutation, Permutation_map.
    apply filter_respects_Permutation, sortBy_Permutation. }
  split; lra.
Qed.

Lemma snapshot_value_within_purchase_cost_witness :
  exists snap,
    getInventorySnapshot 4 ledgerOversold "2024-01-03" = Some snap
    /\ 0 <= value snap
    /\ value snap <= purchaseCost (upTo "2024-01-03" ledgerOversold).
Proof.
  apply (snapshot_value_within_purchase_cost 4 ledgerOversold "2024-01-03").
  - simpl. lia.
  - intros inv [<- | [<- | [<- | []]]] Ht; try discriminate;
      vm_compute; split; try reflexivity; discriminate.
Defined.

(** ** The audit *)

Lemma filter_nonempty_existsb {A : Type} (f : A -> bool) (l : list A) :
  (0 <? length (List.filter f l))%nat = existsb f l.
Proof.
  induction l as [| x l IH]; simpl; [reflexivity |].
  destruct (f x); simpl; [reflexivity | exact IH].
Qed.

(** X14: the audit's score is 100 minus 20 for a stock mismatch, 15 for
    negative stock and 10 for invalid records; the issues are listed in
    that order, one per deduction; the score is 100 exactly when there is
    no issue and never below 55, so the floor at zero is never reached. *)
Theorem audit_score_breakdown (nowIso : string) (invoices : list Invoice)
    (stock v : Q) :
  let report := performFullSystemAudit nowIso invoices stock v in
  let mismatch := Qltb (1 # 1000) (Qabs (stockCheck invoices - stock)) in
  let negative := (0 <? auditNegativeStockCount invoices)%nat in
  let invalid := existsb invalidRecord invoices in
  dataIntegrityIssues report
  = (if mismatch then [StockMismatch (stockCheck invoices) stock] else [])
    ++ (if negative then [NegativeStock (auditNegativeStockCount invoices)]
        else [])
    ++ (if invalid
        then [DataIntegrity (length (List.filter invalidRecord invoices))]
        else [])
  /\ healthScore report
     = (100 - 20 * Z.b2z mismatch - 15 * Z.b2z negative
        - 10 * Z.b2z invalid)%Z
  /\ (55 <= healthScore report <= 100)%Z
  /\ (healthScore report = 100%Z <-> dataIntegrityIssues report = []).
Proof.
  cbv zeta. unfold performFullSystemAudit.
  rewrite (filter_nonempty_existsb invalidRecord invoices).
  destruct (Qltb (1 # 1000) (Qabs (stockCheck invoices - stock)));
    destruct (0 <? auditNegativeStockCount invoices)%nat;
    destruct (existsb invalidRecord invoices); simpl;
    repeat split; try lia; try reflexivity; try discriminate.
Qed.

Lemma audit_issues_eq (nowIso : string) (l : list Invoice) (stock v : Q) :
  dataIntegrityIssues (performFullSystemAudit nowIso l stock v)
  = (if Qltb (1 # 1000) (Qabs (stockCheck l - stock))
     then [StockMismatch (stockCheck l) stock] else [])
    ++ (if (0 <? auditNegativeStockCount l)%nat
        then [NegativeStock (auditNegativeStockCount l)] else [])
    ++ (if (0 <? length (List.filter invalidRecord l))%nat
        then [DataIntegrity (length (List.filter invalidRecord l))] else []).
Proof.
  unfold performFullSystemAudit.
  destruct (Qltb _ _); destruct (0 <? auditNegativeStockCount l)%nat;
    destruct (0 <? length _)%nat; reflexivity.
Qed.

Lemma audit_DataIntegrity_count (l l' : list Invoice) :
  Permutation l l' ->
  length (List.filter invalidRecord l) = length (List.filter invalidRecord l').
Proof.
  intros H. apply Permutation_length, filter_respects_Permutation, H.
Qed.

(** X15: the stock the audit recomputes, the number of transactions it
    reports and its count of invalid records do not depend on the order
    in which the transactions are handed over. *)
Theorem audit_recount_ignores_order (nowIso : string)
    (invoices invoices' : list Invoice) (stock v : Q)
    (Hperm : Permutation invoices invoices') :
  recalculatedStock (performFullSystemAudit nowIso invoices stock v)
  == recalculatedStock (performFullSystemAudit nowIso invoices' stock v)
  /\ totalInvoices (performFullSystemAudit nowIso invoices stock v)
     = totalInvoices (performFullSystemAudit nowIso invoices' stock v)
  /\ (forall n,
        In (DataIntegrity n)
          (dataIntegrityIssues (performFullSystemAudit nowIso invoices stock v))
        <-> In (DataIntegrity n)
              (dataIntegrityIssues
                 (performFullSystemAudit nowIso invoices' stock v))).
Proof.
  assert (Hissue : forall l n,
            In (DataIntegrity n)
              (dataIntegrityIssues (performFullSystemAudit nowIso l stock v))
            <-> (n = length (List.filter invalidRecord l) /\ (0 < n)%nat)).
  { intros l n. rewrite audit_issues_eq, !in_app_iff.
    destruct (Qltb (1 # 1000) (Qabs (stockCheck l - stock)));
      destruct (0 <? auditNegativeStockCount l)%nat;
      destruct (0 <? length (List.filter invalidRecord l))%nat eqn:Hc;
      (apply Nat.ltb_lt in Hc || apply Nat.ltb_ge in Hc);
      simpl; split;
      try (intros [-> Hpos]; first [lia | tauto]);
      intros H; decompose [or] H; try discriminate; try tauto;
      match goal with
      | He : DataIntegrity _ = DataIntegrity _ |- _ =>
          inversion He; subst; split; [reflexivity | lia]
      end. }
  split; [| split].
  - assert (Hs : forall l,
              recalculatedStock (performFullSystemAudit nowIso l stock v)
              = stockCheck l).
    { intros l. unfold performFullSystemAudit.
      destruct (Qltb _ _); destruct (0 <? _)%nat; destruct (0 <? _)%nat;
        reflexivity. }
    rewrite !Hs. apply stockCheck_Permutation, Hperm.
  - assert (Ht : forall l,
              totalInvoices (performFullSystemAudit nowIso l stock v)
              = length l).
    { intros l. unfold performFullSystemAudit.
      destruct (Qltb _ _); destruct (0 <? _)%nat; destruct (0 <? _)%nat;
        reflexivity. }
    rewrite !Ht. apply Permutation_length, Hperm.
  - intros n. rewrite !Hissue.
    rewrite (audit_DataIntegrity_count _ _ Hperm). reflexivity.
Qed.

Lemma audit_recount_ignores_order_witness :
  recalculatedStock
    (performFullSystemAudit "2024-03-02T00:00:00.000Z" ledgerSameDay 0 0)
  == recalculatedStock
       (performFullSystemAudit "2024-03-02T00:00:00.000Z"
          (rev ledgerSameDay) 0 0)
  /\ totalInvoices
       (performFullSystemAudit "2024-03-02T00:00:00.000Z" ledgerSameDay 0 0)
     = totalInvoices
         (performFullSystemAudit "2024-03-02T00:00:00.000Z"
            (rev ledgerSameDay) 0 0)
  /\ (forall n,
        In (DataIntegrity n)
          (dataIntegrityIssues
             (performFullSystemAudit "2024-03-02T00:00:00.000Z"
                ledgerSameDay 0 0))
        <-> In (DataIntegrity n)
              (dataIntegrityIssues
                 (performFullSystemAudit "2024-03-02T00:00:00.000Z"
                    (rev ledgerSameDay) 0 0))).
Proof.
  apply (audit_recount_ignores_order "2024-03-02T00:00:00.000Z"
           ledgerSameDay (rev ledgerSameDay) 0 0).
  apply Permutation_rev.
Defined.

Lemma map_through {A B C : Type} (f : A -> B) (g : A -> C) :
  (forall a a', f a = f a' -> g a = g a') ->
  forall l l' : list A, map f l = map f l' -> map g l = map g l'.
Proof.
  intros Hfg. induction l as [| x l IH]; intros [| y l'] H; simpl in *;
    try discriminate; [reflexivity |].
  injection H as Hx Hl. rewrite (Hfg x y Hx), (IH l' Hl). reflexivity.
Qed.

Lemma signedGrams_inputFields (a b : Invoice) :
  inputFields a = inputFields b -> signedGrams a = signedGrams b.
Proof.
  unfold inputFields, signedGrams. intros H.
  injection H as _ _ Ht _ Hq _ _ _ _ _. rewrite Ht, Hq. reflexivity.
Qed.

(** X16: on any runtime, auditing the replay's own output against its
    own live stock, as the application does when no search filter is set
    (the annotated transactions newest first, the sum of the remaining
    quantities as current stock), reports no stock mismatch when the
    quantities are positive whole units of a binary fraction of a gram
    above the tolerance, stay below 2^53 units together, and no sale
    exceeds the stock on hand in the order in which the replay walks the
    transactions. *)
Theorem audit_of_replay_reconciles
    (localeCompare : string -> string -> comparison)
    (arraySort :
       (Invoice -> Invoice -> comparison) -> list Invoice -> list Invoice)
    (Hsort : forall l : list Invoice,
               Permutation (arraySort (Runtime.compareInvoices localeCompare) l) l)
    (n : nat) (nowIso : string) (invoices : list Invoice) (v : Q)
    (Hexact : binaryQuantities n invoices = true)
    (Hstock : Runtime.neverOversold localeCompare arraySort invoices = true) :
  let run := Runtime.recalculateAllData localeCompare arraySort invoices in
  let report :=
    performFullSystemAudit nowIso (rev (updatedInvoices run))
      (currentStock (updatedInventory run)) v in
  recalculatedStock report == currentStock (updatedInventory run)
  /\ forall c e, ~ In (StockMismatch c e) (dataIntegrityIssues report).
Proof.
  cbv zeta.
  destruct (binaryQuantities_units n invoices Hexact) as [Hu Hunits].
  set (run := Runtime.recalculateAllData localeCompare arraySort invoices).
  set (sorted := arraySort (Runtime.compareInvoices localeCompare) invoices).
  assert (Hq : forall inv, In inv sorted ->
                 0 < quantityGrams inv
                 /\ onGrid (binaryUnit n) (quantityGrams inv)).
  { intros inv Hin. apply Hunits.
    apply (arraySort_In localeCompare arraySort Hsort). exact Hin. }
  destruct (replay_simulates (binaryUnit n) Hu sorted ([], [])
              {| batches := []; totalQuantity := 0 |} Hq)
    as (_ & _ & Htotal); [constructor | reflexivity |].
  simpl in Htotal. specialize (Htotal ltac:(lra) Hstock).
  rewrite snapshot_total in Htotal. simpl in Htotal.
  assert (Hcheck : stockCheck (rev (updatedInvoices run))
                   == currentStock (updatedInventory run)).
  { rewrite (stockCheck_Permutation _ _ (Permutation_sym (Permutation_rev _))).
    rewrite stockCheck_sum, currentStock_sum.
    assert (Hm : map signedGrams (updatedInvoices run)
                 = map signedGrams sorted).
    { apply (map_through inputFields signedGrams signedGrams_inputFields).
      subst run. rewrite runtime_recalculateAllData_eq. simpl.
      rewrite replay_inputFields. reflexivity. }
    rewrite Hm. subst run. rewrite runtime_recalculateAllData_eq. simpl.
    fold sorted. lra. }
  split.
  - unfold performFullSystemAudit.
    destruct (Qltb _ _); destruct (0 <? _)%nat; destruct (0 <? _)%nat;
      exact Hcheck.
  - intros c e. rewrite audit_issues_eq.
    assert (Hok : Qltb (1 # 1000)
                    (Qabs (stockCheck (rev (updatedInvoices run))
                           - currentStock (updatedInventory run))) = false).
    { apply Qltb_false. apply Qabs_Qle_condition. split; lra. }
    rewrite Hok. simpl. rewrite in_app_iff.
    destruct (0 <? _)%nat; destruct (0 <? _)%nat; simpl;
      intros H; decompose [or] H; try discriminate; tauto.
Qed.

Lemma audit_of_replay_reconciles_witness :
  let run := Runtime.recalculateAllData String.compare (@sortBy Invoice)
               ledgerQuarters in
  let report :=
    performFullSystemAudit "2024-01-06T00:00:00.000Z"
      (rev (updatedInvoices run)) (currentStock (updatedInventory run)) 0 in
  recalculatedStock report == currentStock (updatedInventory run)
  /\ forall c e, ~ In (StockMismatch c e) (dataIntegrityIssues report).
Proof.
  apply (audit_of_replay_reconciles String.compare (@sortBy Invoice)
           (sortBy_Permutation _) 2 "2024-01-06T00:00:00.000Z"
           ledgerQuarters 0).
  - vm_compute. reflexivity.
  - vm_compute. reflexivity.
Defined.

(** ** Turnover on transactions without cost annotations *)

Lemma fold_cogs_zero (sales : list Invoice) :
  (forall s, In s sales -> cogs s = None) ->
  forall acc,
    fold_left (fun a s => a + orElse (default 0 (cogs s)) 0) sales acc == acc.
Proof.
  induction sales as [| s sales IH]; intros Hnone acc; simpl; [reflexivity |].
  rewrite IH by (intros x Hx; apply Hnone; right; exact Hx).
  rewrite (Hnone s (or_introl eq_refl)). simpl. unfold orElse. simpl. lra.
Qed.

(** X17: turnover statistics computed on transactions whose sales carry
    no cost of goods sold (the raw records, before the replay annotates
    them) report a total cost of 0, a turnover ratio of 0 and 0 days to
    sell, whatever the inventory was worth. *)
Theorem turnover_of_unannotated_sales_is_zero (getTime : string -> option Z)
    (fuel : nat) (invoices : list Invoice) (startDate endDate : string)
    (Hfuel : (length invoices < fuel)%nat)
    (Hraw : forall s, In s invoices -> type s = SALE -> cogs s = None) :
  exists stats ratio,
    calculateTurnoverStats getTime fuel invoices startDate endDate = Some stats
    /\ periodCOGS stats == 0
    /\ turnoverRatio stats = Fin ratio /\ ratio == 0
    /\ avgDaysToSell stats = Fin 0.
Proof.
  unfold calculateTurnoverStats.
  destruct (calculateInventoryValueOnDate_total fuel invoices startDate Hfuel)
    as [v1 ->].
  destruct (calculateInventoryValueOnDate_total fuel invoices endDate Hfuel)
    as [v2 ->].
  set (sales := List.filter (fun i => negb (isPurchase i)) _).
  assert (Hz : fold_left (fun a s => a + orElse (default 0 (cogs s)) 0) sales 0
               == 0).
  { apply fold_cogs_zero. intros s Hs. subst sales.
    apply filter_In in Hs. destruct Hs as [Hs Hty].
    apply filter_In in Hs. destruct Hs as [Hs _].
    apply Hraw; [exact Hs |]. unfold isPurchase in Hty.
    destruct (type s); [discriminate | reflexivity]. }
  set (total := fold_left _ sales 0) in *.
  set (avg := (v1 + v2) / 2).
  destruct (Qltb 0 avg) eqn:Havg.
  - apply Qltb_true in Havg.
    exists {| turnoverRatio := Fin (total / avg); avgDaysToSell := Fin 0;
              avgInventoryValue := avg; periodCOGS := total |}, (total / avg).
    assert (Hr : total / avg == 0) by (rewrite Hz; field; lra).
    rewrite (jsDiv_positive _ _ Havg). simpl.
    rewrite (proj2 (Qltb_false 0 (total / avg))) by lra.
    repeat split; try reflexivity; assumption.
  - exists {| turnoverRatio := Fin 0; avgDaysToSell := Fin 0;
              avgInventoryValue := avg; periodCOGS := total |}, 0.
    simpl. repeat split; try reflexivity; exact Hz.
Qed.

Lemma turnover_of_unannotated_sales_is_zero_witness :
  exists stats ratio,
    calculateTurnoverStats sampleTime 3 ledgerA "2024-01-01" "2024-01-05"
    = Some stats
    /\ periodCOGS stats == 0
    /\ turnoverRatio stats = Fin ratio /\ ratio == 0
    /\ avgDaysToSell stats = Fin 0.
Proof.
  apply (turnover_of_unannotated_sales_is_zero sampleTime 3 ledgerA
           "2024-01-01" "2024-01-05").
  - simpl. lia.
  - intros s [<- | [<- | []]] _; reflexivity.
Defined.

(** ** Supplier statistics *)

Example supplierStats_sample :
  map (fun s => (name s, txCount s, minRate s, maxRate s))
    (calculateSupplierStats ledgerSuppliers)
  = [ ("77", 1%nat, Fin 6100, Fin 6100);
      ("MMTC", 2%nat, Fin 6000, Fin 6200) ].
Proof. vm_compute. reflexivity. Qed.

Section JsObjectFacts.
Context {V : Type}.

Lemma getProp_setProp (o : list (string * V)) (k k' : string) (v : V) :
  getProp (setProp o k v) k' = if String.eqb k k' then Some v else getProp o k'.
Proof.
  induction o as [| [k0 v0] o IH]; simpl.
  - reflexivity.
  - destruct (String.eqb_spec k0 k) as [-> | Hne]; simpl.
    + destruct (String.eqb k k'); reflexivity.
    + rewrite IH. destruct (String.eqb_spec k0 k') as [-> | Hne'].
      * destruct (String.eqb_spec k k'); [congruence | reflexivity].
      * reflexivity.
Qed.

Lemma getProp_In (o : list (string * V)) (k : string) (v : V) :
  getProp o k = Some v -> In (k, v) o.
Proof.
  induction o as [| [k0 v0] o IH]; simpl; [discriminate |].
  destruct (String.eqb_spec k0 k) as [-> | Hne].
  - intros H. injection H as ->. left. reflexivity.
  - intros H. right. apply IH, H.
Qed.

Lemma getProp_None (o : list (string * V)) (k : string) :
  getProp o k = None <-> ~ In k (map fst o).
Proof.
  induction o as [| [k0 v0] o IH]; simpl; [tauto |].
  destruct (String.eqb_spec k0 k) as [-> | Hne].
  - split; [discriminate | intros H; exfalso; apply H; left; reflexivity].
  - rewrite IH. split; [intros H [He | Hi]; [congruence | tauto] | tauto].
Qed.

Lemma setProp_keys (o : list (string * V)) (k : string) (v : V) :
  map fst (setProp o k v)
  = match getProp o k with
    | Some _ => map fst o
    | None => map fst o ++ [k]
    end.
Proof.
  induction o as [| [k0 v0] o IH]; simpl; [reflexivity |].
  destruct (String.eqb_spec k0 k) as [-> | Hne]; simpl; [reflexivity |].
  rewrite IH. destruct (getProp o k); reflexivity.
Qed.

Lemma setProp_NoDup (o : list (string * V)) (k : string) (v : V) :
  NoDup (map fst o) -> NoDup (map fst (setProp o k v)).
Proof.
  intros Hnd. rewrite setProp_keys.
  destruct (getProp o k) eqn:Hg; [exact Hnd |].
  apply getProp_None in Hg. apply NoDup_app. split; [exact Hnd |].
  split; [| apply NoDup_singleton].
  intros x Hx Hk. apply list_elem_of_In in Hx, Hk.
  destruct Hk as [<- | []]. tauto.
Qed.

Lemma setProp_Forall (P : string * V -> Prop) (o : list (string * V))
    (k : string) (v : V) :
  Forall P o -> P (k, v) -> Forall P (setProp o k v).
Proof.
  intros Hall Hv. induction Hall as [| [k0 v0] o H0 Hrest IH]; simpl.
  - constructor; [exact Hv | constructor].
  - destruct (String.eqb_spec k0 k) as [-> | Hne];
      constructor; assumption.
Qed.

Lemma setProp_sumQ (f : V -> Q) (o : list (string * V)) (k : string) (v : V) :
  sumQ (map (fun p => f (snd p)) (setProp o k v))
  == sumQ (map (fun p => f (snd p)) o)
     - match getProp o k with Some old => f old | None => 0 end
     + f v.
Proof.
  induction o as [| [k0 v0] o IH]; simpl; [lra |].
  destruct (String.eqb_spec k0 k) as [-> | Hne]; simpl; [lra |].
  rewrite IH. lra.
Qed.

Lemma setProp_sum_nat (f : V -> nat) (o : list (string * V)) (k : string)
    (v : V) :
  (list_sum (map (fun p => f (snd p)) (setProp o k v))
   + match getProp o k with Some old => f old | None => 0 end
   = list_sum (map (fun p => f (snd p)) o) + f v)%nat.
Proof.
  induction o as [| [k0 v0] o IH]; simpl; [lia |].
  destruct (String.eqb_spec k0 k) as [-> | Hne]; simpl; [lia |].
  lia.
Qed.

Lemma filter_split_Permutation {A : Type} (f : A -> bool) (l : list A) :
  Permutation (List.filter f l ++ List.filter (fun x => negb (f x)) l) l.
Proof.
  induction l as [| x l IH]; simpl; [reflexivity |].
  destruct (f x); simpl.
  - constructor. exact IH.
  - rewrite <- Permutation_middle. constructor. exact IH.
Qed.

Lemma objectEntries_Permutation (o : list (string * V)) :
  Permutation (objectEntries o) o.
Proof.
  unfold objectEntries. rewrite sortBy_Permutation.
  apply filter_split_Permutation.
Qed.
End JsObjectFacts.

Lemma purchasesFrom_snoc (k : string) (done : list Invoice) (p : Invoice) :
  purchasesFrom k (done ++ [p])
  = purchasesFrom k done
    ++ (if String.eqb (partyName p) k then [p] else []).
Proof. unfold purchasesFrom. rewrite List.filter_app. reflexivity. Qed.

Lemma supplierStep_inv (done : list Invoice)
    (stats : list (string * SupplierAcc)) (p : Invoice) :
  supplierInv done stats -> supplierInv (done ++ [p]) (supplierStep stats p).
Proof.
  intros (Hnd & Hkeys & Hdata). unfold supplierStep.
  set (entry := match getProp stats (partyName p) with
                | Some data => data
                | None => {| totalGrams := 0; totalCost := 0; count := 0;
                             rates := [] |}
                end).
  assert (Hentry : rates entry = map ratePerGram (purchasesFrom (partyName p) done)
                   /\ count entry = length (purchasesFrom (partyName p) done)
                   /\ totalGrams entry
                      == sumQ (map quantityGrams
                                 (purchasesFrom (partyName p) done))
                   /\ totalCost entry
                      == sumQ (map (fun x => quantityGrams x * ratePerGram x)
                                 (purchasesFrom (partyName p) done))).
  { subst entry. destruct (getProp stats (partyName p)) as [data |] eqn:Hg.
    - apply Hdata. exact Hg.
    - apply getProp_None in Hg.
      assert (He : purchasesFrom (partyName p) done = []).
      { destruct (purchasesFrom (partyName p) done) eqn:Hp; [reflexivity |].
        exfalso. apply Hg. apply Hkeys. rewrite Hp. discriminate. }
      rewrite He. simpl. repeat split; reflexivity. }
  destruct Hentry as (E1 & E2 & E3 & E4).
  split; [apply setProp_NoDup; exact Hnd |]. split.
  - intros k. rewrite setProp_keys, purchasesFrom_snoc.
    destruct (String.eqb_spec (partyName p) k) as [<- | Hne].
    + split; [intros _ | intros _].
      * intros He. apply app_eq_nil in He. destruct He. discriminate.
      * destruct (getProp stats (partyName p)) eqn:Hg.
        -- apply getProp_In in Hg. apply in_map_iff.
           eexists. split; [| exact Hg]. reflexivity.
        -- apply in_or_app. right. left. reflexivity.
    + rewrite app_nil_r. rewrite <- Hkeys.
      destruct (getProp stats (partyName p)); [reflexivity |].
      rewrite in_app_iff. simpl. intuition congruence.
  - intros k data. rewrite getProp_setProp, purchasesFrom_snoc.
    destruct (String.eqb_spec (partyName p) k) as [<- | Hne].
    + intros H. injection H as <-. simpl.
      rewrite E1, E2, !map_app, !length_app, !sumQ_app, E3, E4. simpl.
      repeat split; try reflexivity; lra.
    + rewrite app_nil_r. apply Hdata.
Qed.

Lemma supplier_fold_inv (l : list Invoice) :
  forall (done : list Invoice) (stats : list (string * SupplierAcc)),
    supplierInv done stats ->
    supplierInv (done ++ l) (fold_left supplierStep l stats).
Proof.
  induction l as [| p l IH]; intros done stats Hinv; simpl.
  - rewrite app_nil_r. exact Hinv.
  - replace (done ++ p :: l) with ((done ++ [p]) ++ l)
      by (rewrite <- app_assoc; reflexivity).
    apply IH, supplierStep_inv, Hinv.
Qed.

Lemma supplier_stats_inv (invoices : list Invoice) :
  supplierInv (List.filter isPurchase invoices)
    (fold_left supplierStep (List.filter isPurchase invoices) []).
Proof.
  apply (supplier_fold_inv (List.filter isPurchase invoices) [] []).
  split; [constructor |]. split.
  - intros k. simpl. split; [tauto | intros H; apply H; reflexivity].
  - intros k data H. discriminate.
Qed.

Lemma In_getProp {V : Type} (o : list (string * V)) (k : string) (v : V) :
  NoDup (map fst o) -> In (k, v) o -> getProp o k = Some v.
Proof.
  induction o as [| [k0 v0] o IH]; simpl; [tauto |].
  intros Hnd [He | Hin].
  - injection He as -> ->. rewrite String.eqb_refl. reflexivity.
  - apply NoDup_cons in Hnd. destruct Hnd as [Hk0 Hnd].
    destruct (String.eqb_spec k0 k) as [-> | Hne]; [| apply IH; assumption].
    exfalso. apply Hk0. apply list_elem_of_In. apply in_map_iff.
    exists (k, v). split; [reflexivity | exact Hin].
Qed.

(** The rows of the result are the entries of [stats], one for one. *)
Lemma supplier_rows (invoices : list Invoice) (s : SupplierStat) :
  In s (calculateSupplierStats invoices)
  <-> exists k data,
        getProp (fold_left supplierStep (List.filter isPurchase invoices) [])
          k = Some data
        /\ s = supplierStat (k, data).
Proof.
  unfold calculateSupplierStats.
  set (stats := fold_left supplierStep (List.filter isPurchase invoices) []).
  destruct (supplier_stats_inv invoices) as (Hnd & _ & _). fold stats in Hnd.
  rewrite sortBy_In, in_map_iff. split.
  - intros ([k data] & <- & Hin). exists k, data. split; [| reflexivity].
    apply In_getProp; [exact Hnd |].
    apply (Permutation_in _ (objectEntries_Permutation stats)). exact Hin.
  - intros (k & data & Hg & ->). exists (k, data). split; [reflexivity |].
    apply (Permutation_in _ (Permutation_sym (objectEntries_Permutation stats))).
    apply getProp_In. exact Hg.
Qed.

Lemma calculateSupplierStats_Permutation (invoices : list Invoice) :
  Permutation (calculateSupplierStats invoices)
    (map supplierStat
       (fold_left supplierStep (List.filter isPurchase invoices) [])).
Proof.
  unfold calculateSupplierStats. rewrite sortBy_Permutation.
  apply Permutation_map, objectEntries_Permutation.
Qed.

(** X18: each row of the supplier statistics aggregates exactly the
    purchases from the party it names: there is at least one, the row
    counts them, adds up their grams, and its lowest and highest rate are
    the minimum and the maximum of their rates. *)
Theorem supplier_row_aggregates_its_purchases (invoices : list Invoice)
    (Hkeys : ownSupplierKeys invoices = true) :
  forall s, In s (calculateSupplierStats invoices) ->
    let mine := purchasesFrom (name s) (List.filter isPurchase invoices) in
    mine <> []
    /\ txCount s = length mine
    /\ totalGramsPurchased s == sumQ (map quantityGrams mine)
    /\ minRate s = mathMin (map ratePerGram mine)
    /\ maxRate s = mathMax (map ratePerGram mine).
Proof.
  intros s Hs. apply supplier_rows in Hs. destruct Hs as (k & data & Hg & ->).
  destruct (supplier_stats_inv invoices) as (_ & Hk & Hdata).
  destruct (Hdata k data Hg) as (D1 & D2 & D3 & _).
  simpl. rewrite <- D1. repeat split; try assumption.
  apply Hk. apply getProp_In in Hg. apply in_map_iff.
  exists (k, data). split; [reflexivity | exact Hg].
Qed.

Lemma supplier_row_aggregates_its_purchases_witness :
  Forall
    (fun s =>
       let mine :=
         purchasesFrom (name s) (List.filter isPurchase ledgerSuppliers) in
       mine <> []
       /\ txCount s = length mine
       /\ totalGramsPurchased s == sumQ (map quantityGrams mine)
       /\ minRate s = mathMin (map ratePerGram mine)
       /\ maxRate s = mathMax (map ratePerGram mine))
    (calculateSupplierStats ledgerSuppliers).
Proof.
  apply List.Forall_forall.
  apply (supplier_row_aggregates_its_purchases ledgerSuppliers).
  vm_compute. reflexivity.
Defined.

Lemma list_sum_Permutation (l l' : list nat) :
  Permutation l l' -> list_sum l = list_sum l'.
Proof.
  induction 1 as [| x l l' _ IH | x y l | l l' l'' _ IH1 _ IH2]; simpl; lia.
Qed.

Lemma supplier_fold_sums (l : list Invoice) :
  forall stats : list (string * SupplierAcc),
    list_sum (map (fun p => count (snd p)) (fold_left supplierStep l stats))
    = (list_sum (map (fun p => count (snd p)) stats) + length l)%nat
    /\ sumQ (map (fun p => totalGrams (snd p)) (fold_left supplierStep l stats))
       == sumQ (map (fun p => totalGrams (snd p)) stats)
          + sumQ (map quantityGrams l).
Proof.
  induction l as [| p l IH]; intros stats; simpl.
  - split; [lia | lra].
  - destruct (IH (supplierStep stats p)) as [I1 I2]. rewrite I1, I2.
    unfold supplierStep.
    match goal with
    | |- context [setProp stats ?k ?v] =>
        pose proof (setProp_sum_nat count stats k v) as S1;
        pose proof (setProp_sumQ totalGrams stats k v) as S2
    end.
    destruct (getProp stats (partyName p)); simpl in *; split; lia || lra.
Qed.

(** X19: the supplier statistics have one row per party that sold to the
    business and no other row; the rows' transaction counts add up to the
    number of purchases and their grams to the grams purchased. *)
Theorem supplier_rows_cover_purchases (invoices : list Invoice)
    (Hkeys : ownSupplierKeys invoices = true) :
  NoDup (map name (calculateSupplierStats invoices))
  /\ (forall k, In k (map name (calculateSupplierStats invoices))
        <-> exists p, In p invoices /\ type p = PURCHASE /\ partyName p = k)
  /\ list_sum (map txCount (calculateSupplierStats invoices))
     = length (List.filter isPurchase invoices)
  /\ sumQ (map totalGramsPurchased (calculateSupplierStats invoices))
     == sumQ (map quantityGrams (List.filter isPurchase invoices)).
Proof.
  pose proof (calculateSupplierStats_Permutation invoices) as Hperm.
  destruct (supplier_stats_inv invoices) as (Hnd & Hk & _).
  set (stats := fold_left supplierStep (List.filter isPurchase invoices) [])
    in *.
  assert (Hnames : map name (map supplierStat stats) = map fst stats).
  { rewrite map_map. apply map_ext. intros [k data]. reflexivity. }
  assert (Hpn : Permutation (map name (calculateSupplierStats invoices))
                  (map fst stats)).
  { rewrite <- Hnames. apply Permutation_map, Hperm. }
  destruct (supplier_fold_sums (List.filter isPurchase invoices) []) as [S1 S2].
  fold stats in S1, S2. simpl in S1, S2.
  split; [| split; [| split]].
  - rewrite Hpn. exact Hnd.
  - intros k. split.
    + intros Hin. apply (Permutation_in _ Hpn) in Hin. apply Hk in Hin.
      destruct (purchasesFrom k (List.filter isPurchase invoices))
        as [| p rest] eqn:Hp; [congruence |].
      assert (Hp' : In p (purchasesFrom k (List.filter isPurchase invoices)))
        by (rewrite Hp; left; reflexivity).
      unfold purchasesFrom in Hp'. apply filter_In in Hp'.
      destruct Hp' as [Hp1 Hp2]. apply filter_In in Hp1.
      destruct Hp1 as [Hp1 Hp3]. exists p. split; [exact Hp1 |].
      split; [unfold isPurchase in Hp3; destruct (type p);
              [reflexivity | discriminate] |].
      apply String.eqb_eq. exact Hp2.
    + intros (p & Hp & Ht & Hn).
      apply (Permutation_in _ (Permutation_sym Hpn)). apply Hk.
      assert (Hin : In p (purchasesFrom k (List.filter isPurchase invoices))).
      { unfold purchasesFrom. apply filter_In. split.
        - apply filter_In. split; [exact Hp |]. unfold isPurchase.
          rewrite Ht. reflexivity.
        - apply String.eqb_eq. exact Hn. }
      intros He. rewrite He in Hin. destruct Hin.
  - rewrite (list_sum_Permutation _ _ (Permutation_map txCount Hperm)).
    rewrite map_map. simpl in *.
    erewrite map_ext; [exact S1 |]. intros [k data]. reflexivity.
  - rewrite (sumQ_Permutation _ _ (Permutation_map totalGramsPurchased Hperm)).
    rewrite map_map.
    erewrite map_ext; [rewrite S2; lra |]. intros [k data]. reflexivity.
Qed.

Lemma supplier_rows_cover_purchases_witness :
  NoDup (map name (calculateSupplierStats ledgerSuppliers))
  /\ (forall k, In k (map name (calculateSupplierStats ledgerSuppliers))
        <-> exists p, In p ledgerSuppliers /\ type p = PURCHASE
                      /\ partyName p = k)
  /\ list_sum (map txCount (calculateSupplierStats ledgerSuppliers))
     = length (List.filter isPurchase ledgerSuppliers)
  /\ sumQ (map totalGramsPurchased (calculateSupplierStats ledgerSuppliers))
     == sumQ (map quantityGrams (List.filter isPurchase ledgerSuppliers)).
Proof.
  apply (supplier_rows_cover_purchases ledgerSuppliers).
  vm_compute. reflexivity.
Defined.

Lemma fold_left_Qmin_spec (rest : list Q) :
  forall x,
    fold_left Qmin rest x <= x
    /\ (forall r, In r rest -> fold_left Qmin rest x <= r)
    /\ (fold_left Qmin rest x = x \/ In (fold_left Qmin rest x) rest).
Proof.
  induction rest as [| y rest IH]; intros x; simpl.
  - repeat split; [lra | tauto | left; reflexivity].
  - destruct (IH (Qmin x y)) as (I1 & I2 & I3).
    pose proof (Q.le_min_l x y). pose proof (Q.le_min_r x y).
    split; [lra |]. split.
    + intros r [<- | Hr]; [lra | apply I2, Hr].
    + destruct I3 as [I3 | I3]; [| right; right; exact I3].
      rewrite I3. destruct (Qlt_le_dec y x) as [Hlt | Hle].
      * right. left. symmetry. apply Qmin_right, Hlt.
      * left. apply Qmin_left, Hle.
Qed.

Lemma fold_left_Qmax_spec (rest : list Q) :
  forall x,
    x <= fold_left Qmax rest x
    /\ (forall r, In r rest -> r <= fold_left Qmax rest x)
    /\ (fold_left Qmax rest x = x \/ In (fold_left Qmax rest x) rest).
Proof.
  induction rest as [| y rest IH]; intros x; simpl.
  - repeat split; [lra | tauto | left; reflexivity].
  - destruct (IH (Qmax x y)) as (I1 & I2 & I3).
    pose proof (Q.le_max_l x y). pose proof (Q.le_max_r x y).
    split; [lra |]. split.
    + intros r [<- | Hr]; [lra | apply I2, Hr].
    + destruct I3 as [I3 | I3]; [| right; right; exact I3].
      rewrite I3. unfold Qmax, GenericMinMax.gmax.
      destruct (x ?= y); [left | right; left | left]; reflexivity.
Qed.

Lemma weighted_cost_bounds (lo hi : Q) (l : list Invoice) :
  (forall p, In p l ->
     0 < quantityGrams p /\ lo <= ratePerGram p /\ ratePerGram p <= hi) ->
  lo * sumQ (map quantityGrams l)
    <= sumQ (map (fun p => quantityGrams p * ratePerGram p) l)
  /\ sumQ (map (fun p => quantityGrams p * ratePerGram p) l)
    <= hi * sumQ (map quantityGrams l)
  /\ (l <> [] -> 0 < sumQ (map quantityGrams l))
  /\ 0 <= sumQ (map quantityGrams l).
Proof.
  induction l as [| p l IH]; intros H; simpl.
  - repeat split; try lra. congruence.
  - destruct (H p (or_introl eq_refl)) as (Hq & Hlo & Hhi).
    destruct IH as (I1 & I2 & _ & I4);
      [intros x Hx; apply H; right; exact Hx |].
    split; [nra | split; [nra | split; [intros _; nra | nra]]].
Qed.

(** X20: in every row of the supplier statistics the lowest rate is not
    above the highest and the volatility is their difference; when the
    party's purchases all have a positive quantity, the average rate lies
    between the lowest and the highest rate. *)
Theorem supplier_average_between_extremes (invoices : list Invoice)
    (Hkeys : ownSupplierKeys invoices = true) :
  forall s, In s (calculateSupplierStats invoices) ->
    exists lo hi,
      minRate s = Fin lo /\ maxRate s = Fin hi
      /\ lo <= hi
      /\ volatility s = Fin (hi - lo)
      /\ ((forall p, In p invoices -> type p = PURCHASE ->
             partyName p = name s -> 0 < quantityGrams p) ->
          exists avg, avgRate s = Fin avg /\ lo <= avg /\ avg <= hi).
Proof.
  intros s Hs. apply supplier_rows in Hs. destruct Hs as (k & data & Hg & ->).
  destruct (supplier_stats_inv invoices) as (_ & Hk & Hdata).
  destruct (Hdata k data Hg) as (D1 & _ & D3 & D4).
  assert (Hne : purchasesFrom k (List.filter isPurchase invoices) <> []).
  { apply Hk. apply getProp_In in Hg. apply in_map_iff.
    exists (k, data). split; [reflexivity | exact Hg]. }
  set (mine := purchasesFrom k (List.filter isPurchase invoices)) in *.
  destruct (rates data) as [| x rest] eqn:Hr.
  { exfalso. apply Hne. destruct mine; [reflexivity | discriminate]. }
  destruct (fold_left_Qmin_spec rest x) as (M1 & M2 & _).
  destruct (fold_left_Qmax_spec rest x) as (X1 & X2 & _).
  exists (fold_left Qmin rest x), (fold_left Qmax rest x).
  simpl. rewrite Hr. simpl.
  split; [reflexivity |]. split; [reflexivity |]. split; [lra |].
  split; [reflexivity |].
  intros Hpos.
  assert (Hmine : forall p, In p mine ->
            0 < quantityGrams p
            /\ fold_left Qmin rest x <= ratePerGram p
            /\ ratePerGram p <= fold_left Qmax rest x).
  { intros p Hp.
    assert (Hrate : In (ratePerGram p) (x :: rest))
      by (rewrite D1; apply in_map; exact Hp).
    subst mine. unfold purchasesFrom in Hp. apply filter_In in Hp.
    destruct Hp as [Hp Hn]. apply filter_In in Hp. destruct Hp as [Hp Ht].
    apply String.eqb_eq in Hn.
    split.
    - apply Hpos; [exact Hp | | exact Hn].
      unfold isPurchase in Ht. destruct (type p); [reflexivity | discriminate].
    - destruct Hrate as [<- | Hrate]; [split; lra |].
      split; [apply M2 | apply X2]; exact Hrate. }
  destruct (weighted_cost_bounds _ _ mine Hmine) as (W1 & W2 & W3 & _).
  specialize (W3 Hne).
  rewrite <- D3 in W1, W2, W3. rewrite <- D4 in W1, W2.
  rewrite (proj2 (Qltb_true 0 (totalGrams data)) W3).
  rewrite (jsDiv_positive _ _ W3).
  eexists. split; [reflexivity |]. split.
  - apply Qle_shift_div_l; [exact W3 | exact W1].
  - apply Qle_shift_div_r; [exact W3 | exact W2].
Qed.

Lemma supplier_average_between_extremes_witness :
  Forall
    (fun s =>
       exists lo hi,
         minRate s = Fin lo /\ maxRate s = Fin hi
         /\ lo <= hi
         /\ volatility s = Fin (hi - lo)
         /\ ((forall p, In p ledgerSuppliers -> type p = PURCHASE ->
                partyName p = name s -> 0 < quantityGrams p) ->
             exists avg, avgRate s = Fin avg /\ lo <= avg /\ avg <= hi))
    (calculateSupplierStats ledgerSuppliers).
Proof.
  apply List.Forall_forall.
  apply (supplier_average_between_extremes ledgerSuppliers).
  vm_compute. reflexivity.
Defined.

Section SortSorted.
Context {A : Type} (cmp : A -> A -> comparison) (R : A -> A -> Prop).
Hypothesis cmp_le : forall x y, cmp x y <> Gt -> R x y.
Hypothesis cmp_gt : forall x y, cmp x y = Gt -> R y x.

Lemma insertSorted_HdRel (x y : A) (l : list A) :
  R y x -> HdRel R y l -> HdRel R y (insertSorted cmp x l).
Proof.
  intros Hyx Hhd. destruct l as [| z l]; simpl; [constructor; exact Hyx |].
  inversion Hhd; subst.
  destruct (cmp x z); constructor; assumption.
Qed.

Lemma insertSorted_Sorted (x : A) (l : list A) :
  Sorted R l -> Sorted R (insertSorted cmp x l).
Proof.
  induction 1 as [| y l Hs IH Hhd]; simpl.
  - repeat constructor.
  - destruct (cmp x y) eqn:Hc.
    + constructor; [constructor; assumption |].
      constructor. apply cmp_le. congruence.
    + constructor; [constructor; assumption |].
      constructor. apply cmp_le. congruence.
    + constructor; [exact IH |].
      apply insertSorted_HdRel; [apply cmp_gt, Hc | exact Hhd].
Qed.

Lemma sortBy_Sorted (l : list A) : Sorted R (sortBy cmp l).
Proof.
  induction l as [| x l IH]; simpl; [constructor |].
  apply insertSorted_Sorted, IH.
Qed.
End SortSorted.

(** X21: the supplier statistics come out in descending order of grams
    purchased: no row has more grams than a row before it. *)
Theorem supplier_rows_descend_by_grams (invoices : list Invoice)
    (Hkeys : ownSupplierKeys invoices = true) :
  StronglySorted
    (fun a b => totalGramsPurchased b <= totalGramsPurchased a)
    (calculateSupplierStats invoices).
Proof.
  apply Sorted_StronglySorted.
  - intros a b c Hab Hbc. simpl in *. lra.
  - unfold calculateSupplierStats.
    apply (sortBy_Sorted compareByGramsDesc).
    + intros x y Hc. unfold compareByGramsDesc in Hc.
      apply Qnot_lt_le. intros Hlt. apply Hc. apply Qgt_alt. exact Hlt.
    + intros x y Hc. unfold compareByGramsDesc in Hc.
      apply Qgt_alt in Hc. apply Qlt_le_weak. exact Hc.
Qed.

Lemma supplier_rows_descend_by_grams_witness :
  StronglySorted
    (fun a b => totalGramsPurchased b <= totalGramsPurchased a)
    (calculateSupplierStats ledgerSuppliers).
Proof.
  apply (supplier_rows_descend_by_grams ledgerSuppliers).
  vm_compute. reflexivity.
Defined.

(** ** Loading *)

Lemma existsb_eqb_In (x : string) (l : list string) :
  existsb (String.eqb x) l = true <-> In x l.
Proof.
  rewrite existsb_exists. split.
  - intros (y & Hy & He). apply String.eqb_eq in He. subst. exact Hy.
  - intros H. exists x. split; [exact H | apply String.eqb_refl].
Qed.

(** X22: the orders chosen for the replay lose nothing: every cloud order
    is among them, every local order is among them or has its id among
    the cloud orders, and nothing else is; where the cloud and the local
    store both hold an id, the cloud's record is the one replayed. *)
Theorem finalOrders_keeps_every_order (cloudOrders : option (list Invoice))
    (localOrders : list Invoice) :
  (forall o, In o (finalOrders cloudOrders localOrders) ->
     In o (default [] cloudOrders) \/ In o localOrders)
  /\ (forall o, In o (default [] cloudOrders) ->
        In o (finalOrders cloudOrders localOrders))
  /\ (forall lo, In lo localOrders ->
        In lo (finalOrders cloudOrders localOrders)
        \/ In (id lo) (map id (default [] cloudOrders)))
  /\ (forall o, In o (finalOrders cloudOrders localOrders) ->
        In (id o) (map id (default [] cloudOrders)) ->
        In o (default [] cloudOrders)).
Proof.
  destruct cloudOrders as [cloud |]; [| simpl; repeat split; tauto].
  unfold finalOrders. cbn [default].
  set (unsynced := List.filter _ localOrders).
  assert (Hun : forall lo, In lo unsynced
                <-> In lo localOrders /\ ~ In (id lo) (map id cloud)).
  { intros lo. subst unsynced. rewrite filter_In, negb_true_iff.
    rewrite <- existsb_eqb_In. destruct (existsb _ _); intuition congruence. }
  assert (Hdec : forall lo, In (id lo) (map id cloud)
                            \/ ~ In (id lo) (map id cloud)).
  { intros lo. destruct (in_dec string_dec (id lo) (map id cloud)); auto. }
  destruct (Nat.eqb (length cloud) 0 && Nat.ltb 0 (length localOrders)) eqn:Hc.
  - apply andb_true_iff in Hc. destruct Hc as [Hc _].
    apply Nat.eqb_eq in Hc. destruct cloud; [| discriminate].
    simpl. repeat split; tauto.
  - destruct (0 <? length unsynced)%nat eqn:Hl.
    + repeat split.
      * intros o Ho. apply in_app_or in Ho.
        destruct Ho as [Ho | Ho]; [left; exact Ho |].
        right. apply Hun, Ho.
      * intros o Ho. apply in_or_app. left. exact Ho.
      * intros lo Hlo. destruct (Hdec lo) as [Hin | Hout];
          [right; exact Hin |].
        left. apply in_or_app. right. apply Hun. split; assumption.
      * intros o Ho Hid. apply in_app_or in Ho.
        destruct Ho as [Ho | Ho]; [exact Ho |].
        apply Hun in Ho. destruct Ho as [_ Ho]. contradiction.
    + assert (Hempty : unsynced = []).
      { apply Nat.ltb_ge in Hl. destruct unsynced; [reflexivity |].
        simpl in Hl. lia. }
      repeat split; try tauto.
      intros lo Hlo. destruct (Hdec lo) as [Hin | Hout];
        [right; exact Hin |].
      exfalso. assert (Hu : In lo unsynced) by (apply Hun; split; assumption).
      rewrite Hempty in Hu. destruct Hu.
Qed.

Example finalOrders_sample :
  map id (finalOrders (Some cloudCopy) localCopy) = ["p1"; "s1"]
  /\ map createdAt (finalOrders (Some cloudCopy) localCopy)
     = [Some "2024-01-01T10:00:00Z"; None].
Proof. vm_compute. split; reflexivity. Qed.

Lemma NoDup_map_filter {A B : Type} (f : A -> B) (g : A -> bool) (l : list A) :
  NoDup (map f l) -> NoDup (map f (List.filter g l)).
Proof.
  induction l as [| x l IH]; simpl; [auto |].
  intros Hnd. apply NoDup_cons in Hnd. destruct Hnd as [Hx Hnd].
  destruct (g x); simpl; [| apply IH; exact Hnd].
  apply NoDup_cons. split; [| apply IH; exact Hnd].
  intros Hin. apply Hx. apply list_elem_of_In in Hin.
  apply list_elem_of_In. apply in_map_iff in Hin.
  destruct Hin as (y & Hy & Hin). apply filter_In in Hin.
  apply in_map_iff. exists y. tauto.
Qed.

Lemma finalOrders_NoDup (cloudOrders : option (list Invoice))
    (localOrders : list Invoice) :
  NoDup (map id (default [] cloudOrders)) ->
  NoDup (map id localOrders) ->
  NoDup (map id (finalOrders cloudOrders localOrders)).
Proof.
  intros Hc Hl. destruct cloudOrders as [cloud |]; [| exact Hl].
  unfold finalOrders. cbn [default] in *.
  destruct (Nat.eqb (length cloud) 0 && Nat.ltb 0 (length localOrders));
    [exact Hl |].
  set (unsynced := List.filter _ localOrders).
  destruct (0 <? length unsynced)%nat; [| exact Hc].
  rewrite map_app. apply NoDup_app. split; [exact Hc |]. split.
  - intros x Hx Hx'. apply list_elem_of_In in Hx, Hx'.
    apply in_map_iff in Hx'. destruct Hx' as (lo & <- & Hlo).
    subst unsynced. apply filter_In in Hlo. destruct Hlo as [_ Hlo].
    apply negb_true_iff in Hlo.
    apply existsb_eqb_In in Hx. congruence.
  - apply NoDup_map_filter. exact Hl.
Qed.

Lemma finalOrders_local_ids (cloudOrders : option (list Invoice))
    (localOrders : list Invoice) (lo : Invoice) :
  In lo localOrders ->
  In (id lo) (map id (finalOrders cloudOrders localOrders)).
Proof.
  intros Hlo. destruct cloudOrders as [cloud |]; [| apply in_map; exact Hlo].
  unfold finalOrders.
  destruct (Nat.eqb (length cloud) 0 && Nat.ltb 0 (length localOrders));
    [apply in_map; exact Hlo |].
  set (unsynced := List.filter _ localOrders).
  destruct (existsb (String.eqb (id lo)) (map id cloud)) eqn:He.
  - apply existsb_eqb_In in He.
    destruct (0 <? length unsynced)%nat; [| exact He].
    rewrite map_app. apply in_or_app. left. exact He.
  - assert (Hu : In lo unsynced).
    { subst unsynced. apply filter_In. split; [exact Hlo |].
      rewrite He. reflexivity. }
    destruct (0 <? length unsynced)%nat eqn:Hl.
    + apply in_map. apply in_or_app. right. exact Hu.
    + apply Nat.ltb_ge in Hl. destruct unsynced; [destruct Hu |].
      simpl in Hl. lia.
Qed.

Lemma id_inputFields (a b : Invoice) :
  inputFields a = inputFields b -> id a = id b.
Proof. unfold inputFields. intros H. injection H as Hid. exact Hid. Qed.

(** X23: when neither the cloud orders nor the local orders repeat an id,
    the invoice list [loadData] puts in the application state shows every
    chosen order exactly once, with the fields it was stored with, and no
    id twice; an order held only locally is not lost. *)
Theorem loadData_shows_each_order_once (cloudOrders : option (list Invoice))
    (localOrders : list Invoice)
    (Hcloud : NoDup (map id (default [] cloudOrders)))
    (Hlocal : NoDup (map id localOrders)) :
  Permutation (map inputFields (fst (loadData cloudOrders localOrders)))
    (map inputFields (finalOrders cloudOrders localOrders))
  /\ NoDup (map id (fst (loadData cloudOrders localOrders)))
  /\ (forall lo, In lo localOrders ->
        In (id lo) (map id (fst (loadData cloudOrders localOrders))))
  /\ length (snd (loadData cloudOrders localOrders))
     = length (List.filter isPurchase (finalOrders cloudOrders localOrders)).
Proof.
  unfold loadData. simpl fst. simpl snd.
  set (final := finalOrders cloudOrders localOrders).
  assert (Hfields : map inputFields (updatedInvoices (recalculateAllData final))
                    = map inputFields (sortBy compareInvoices final)).
  { rewrite recalculateAllData_eq. simpl. rewrite replay_inputFields.
    reflexivity. }
  assert (Hperm : Permutation
                    (map inputFields
                       (rev (updatedInvoices (recalculateAllData final))))
                    (map inputFields final)).
  { rewrite map_rev, <- Permutation_rev, Hfields.
    apply Permutation_map, sortBy_Permutation. }
  assert (Hids : Permutation
                   (map id (rev (updatedInvoices (recalculateAllData final))))
                   (map id final)).
  { rewrite map_rev, <- Permutation_rev.
    rewrite (map_through inputFields id id_inputFields _ _ Hfields).
    apply Permutation_map, sortBy_Permutation. }
  split; [exact Hperm |]. split; [| split].
  - rewrite Hids. apply finalOrders_NoDup; assumption.
  - intros lo Hlo. apply (Permutation_in _ (Permutation_sym Hids)).
    apply finalOrders_local_ids. exact Hlo.
  - rewrite recalculateAllData_eq. simpl.
    pose proof (replay_batches (sortBy compareInvoices final) ([], [])) as Hb.
    apply (f_equal (@length _)) in Hb. simpl in Hb.
    rewrite !length_map in Hb. rewrite Hb.
    apply Permutation_length, filter_respects_Permutation, sortBy_Permutation.
Qed.

Lemma loadData_shows_each_order_once_witness :
  Permutation (map inputFields (fst (loadData (Some cloudCopy) localCopy)))
    (map inputFields (finalOrders (Some cloudCopy) localCopy))
  /\ NoDup (map id (fst (loadData (Some cloudCopy) localCopy)))
  /\ (forall lo, In lo localCopy ->
        In (id lo) (map id (fst (loadData (Some cloudCopy) localCopy))))
  /\ length (snd (loadData (Some cloudCopy) localCopy))
     = length (List.filter isPurchase (finalOrders (Some cloudCopy) localCopy)).
Proof.
  apply (loadData_shows_each_order_once (Some cloudCopy) localCopy).
  - vm_compute. apply (bool_decide_unpack _). vm_compute. reflexivity.
  - vm_compute. apply (bool_decide_unpack _). vm_compute. reflexivity.
Defined.

(** ** The inventory table *)

Lemma active_sum_all (batches : list InventoryBatch) (w : InventoryBatch -> Q) :
  Forall (fun b => 0 <= remainingQuantity b) batches ->
  sumQ (map (fun b => remainingQuantity b * w b) (activeBatches batches))
  == sumQ (map (fun b => remainingQuantity b * w b) batches).
Proof.
  induction 1 as [| b rest Hb _ IH]; simpl; [reflexivity |].
  unfold activeBatches in *. simpl. qcase; simpl; rewrite IH; [reflexivity |].
  assert (Hz : remainingQuantity b == 0) by lra. rewrite Hz. lra.
Qed.

Lemma fold_weighted_acc (l : list InventoryBatch) (w : InventoryBatch -> Q) :
  forall acc,
    fold_left (fun a b => a + remainingQuantity b * w b) l acc
    == acc + sumQ (map (fun b => remainingQuantity b * w b) l).
Proof.
  induction l as [| b l IH]; intros acc; simpl; [lra | rewrite IH; lra].
Qed.

Lemma history_is_not_active (batches : list InventoryBatch) :
  Forall (fun b => 0 <= remainingQuantity b) batches ->
  InventoryTable.historyBatches batches
  = List.filter (fun b => negb (Qltb 0 (remainingQuantity b))) batches.
Proof.
  intros Hall. unfold InventoryTable.historyBatches.
  apply filter_ext_in. intros b Hb.
  rewrite Forall_forall in Hall.
  specialize (Hall b (proj2 (list_elem_of_In _ _) Hb)).
  destruct (Qeq_bool (remainingQuantity b) 0) eqn:He.
  - apply Qeq_bool_iff in He. symmetry. apply negb_true_iff, Qltb_false. lra.
  - symmetry. apply negb_false_iff, Qltb_true.
    destruct (Qlt_le_dec 0 (remainingQuantity b)) as [Hlt | Hle];
      [exact Hlt |].
    exfalso. assert (Hz : remainingQuantity b == 0) by lra.
    apply Qeq_bool_iff in Hz. congruence.
Qed.

(** X24: on any selection of the batches the replay returns for
    transactions of positive quantity, the inventory table's two views
    split the batches between them (each batch is active or history, none
    both, none neither), and the totals of its active view are the
    application's current stock and FIFO value of that selection. *)
Theorem inventory_table_views_partition (invoices : list Invoice)
    (keep : InventoryBatch -> bool)
    (Hpos : forall inv, In inv invoices -> 0 < quantityGrams inv) :
  let batches :=
    List.filter keep (updatedInventory (recalculateAllData invoices)) in
  Permutation (activeBatches batches ++ InventoryTable.historyBatches batches)
    batches
  /\ InventoryTable.totalStock batches == currentStock batches
  /\ InventoryTable.totalValue batches == fifoValue batches.
Proof.
  intros batches.
  assert (Hnn : Forall (fun b => 0 <= remainingQuantity b) batches).
  { subst batches. apply Forall_forall. intros b Hb.
    apply list_elem_of_In in Hb. apply filter_In in Hb. destruct Hb as [Hb _].
    assert (Hall : Forall batchOK
                     (updatedInventory (recalculateAllData invoices))).
    { rewrite recalculateAllData_eq. simpl. apply replay_ok; [| constructor].
      intros inv Hin. apply Hpos.
      apply (sortBy_In compareInvoices). exact Hin. }
    rewrite Forall_forall in Hall.
    destruct (Hall b (proj2 (list_elem_of_In _ _) Hb)) as [H0 _]. exact H0. }
  split; [| split].
  - rewrite (history_is_not_active batches Hnn).
    apply (filter_split_Permutation
             (fun b => Qltb 0 (remainingQuantity b)) batches).
  - unfold InventoryTable.totalStock. rewrite currentStock_acc.
    rewrite currentStock_sum.
    pose proof (active_sum_all batches (fun _ => 1) Hnn) as H.
    assert (E : forall l : list InventoryBatch,
              sumQ (map (fun b => remainingQuantity b * 1) l)
              == sumQ (map remainingQuantity l)).
    { induction l as [| x l IH]; simpl; [reflexivity | rewrite IH; lra]. }
    rewrite !E in H. lra.
  - unfold InventoryTable.totalValue, fifoValue.
    rewrite (fold_weighted_acc (activeBatches batches) costPerGram).
    rewrite (fold_weighted_acc batches costPerGram).
    rewrite (active_sum_all batches costPerGram Hnn). reflexivity.
Qed.

Lemma inventory_table_views_partition_witness :
  let batches :=
    List.filter (fun _ => true) (updatedInventory (recalculateAllData ledgerA)) in
  Permutation (activeBatches batches ++ InventoryTable.historyBatches batches)
    batches
  /\ InventoryTable.totalStock batches == currentStock batches
  /\ InventoryTable.totalValue batches == fifoValue batches.
Proof.
  apply (inventory_table_views_partition ledgerA (fun _ => true)).
  intros inv [<- | [<- | []]]; vm_compute; reflexivity.
Defined.

(** X25: in the table's what-if calculation the break-even market rate is
    the average cost: with stock on hand and a positive rate entered, the
    potential profit is not negative exactly when the rate is not below
    the average cost shown. *)
Theorem potential_profit_breaks_even_at_avg_cost
    (batches : list InventoryBatch) (r : Q)
    (Hrate : 0 < r)
    (Hstock : 0 < InventoryTable.totalStock batches) :
  exists a,
    InventoryTable.avgCost batches = Fin a
    /\ (0 <= InventoryTable.potentialProfit batches (Some r) <-> a <= r).
Proof.
  unfold InventoryTable.avgCost, InventoryTable.potentialProfit,
    InventoryTable.estimatedSalesValue, InventoryTable.hasRate.
  rewrite (proj2 (Qltb_true _ _) Hrate), (proj2 (Qltb_true _ _) Hstock).
  rewrite (jsDiv_positive _ _ Hstock).
  eexists. split; [reflexivity |].
  set (S := InventoryTable.totalStock batches) in *.
  set (V := InventoryTable.totalValue batches).
  assert (HV : V == (V / S) * S) by (field; lra).
  split; intros H.
  - apply Qle_shift_div_r; [exact Hstock | lra].
  - assert (V / S * S <= r * S) by (apply Qmult_le_compat_r; lra). lra.
Qed.

Lemma potential_profit_breaks_even_at_avg_cost_witness :
  exists a,
    InventoryTable.avgCost tenGramsInStock = Fin a
    /\ (0 <= InventoryTable.potentialProfit tenGramsInStock (Some 6500)
        <-> a <= 6500).
Proof.
  apply (potential_profit_breaks_even_at_avg_cost tenGramsInStock 6500).
  - vm_compute. reflexivity.
  - vm_compute. reflexivity.
Defined.

(** ** The replay: the shape of a trace *)

Lemma consumeBatches_appends (d : string) (inventory : list InventoryBatch) :
  forall st : SaleState,
  exists lines,
    consumptionLog (snd (consumeBatches d inventory st))
    = consumptionLog st ++ lines
    /\ forallb isConsumedLine lines = true
    /\ (length lines <= length (List.filter isOpen inventory))%nat.
Proof.
  induction inventory as [| b rest IH]; intros st; simpl.
  - exists []. rewrite app_nil_r. repeat split. simpl. lia.
  - destruct (Qleb (remainingToSell st) 0).
    { exists []. rewrite app_nil_r. simpl. repeat split. lia. }
    unfold isOpen at 1.
    destruct (Qltb EPS_BATCH (remainingQuantity b)) eqn:Ho.
    + assert (Hl : consumptionLog (snd (takeFromBatch d b st))
                   = consumptionLog st
                     ++ [Consumed (Qmin (remainingQuantity b) (remainingToSell st))
                           (batchDate b) (costPerGram b)])
        by (unfold takeFromBatch; destruct (Qltb _ EPS_BATCH); reflexivity).
      destruct (takeFromBatch d b st) as [b' st'].
      destruct (IH st') as (lines & L1 & L2 & L3).
      destruct (consumeBatches d rest st') as [rest' st''].
      simpl in *. rewrite L1, Hl, <- app_assoc.
      eexists. split; [reflexivity |]. simpl. split; [exact L2 | lia].
    + destruct (IH st) as (lines & L1 & L2 & L3).
      destruct (consumeBatches d rest st) as [rest' st'].
      simpl in *. exists lines. repeat split; assumption.
Qed.

(** X26: the trace of a sale is, in this order: the missing-timestamp
    warning exactly when the sale has no creation timestamp; one
    consumption line per batch drawn from, at most one per open batch;
    and at most one stockout line, at the very end. *)
Theorem sale_trace_shape (inv : Invoice) (inventory : list InventoryBatch) :
  exists lines tail,
    fifoLog (snd (processSale inv inventory))
    = Some ((if truthyOpt (createdAt inv) then [] else [NoTimestampWarning])
            ++ lines ++ tail)
    /\ forallb isConsumedLine lines = true
    /\ (length lines <= length (List.filter isOpen inventory))%nat
    /\ (tail = [] \/ exists unsold, tail = [StockoutWarning unsold]).
Proof.
  rewrite processSale_eq. cbv zeta.
  set (st0 := {| remainingToSell := quantityGrams inv; totalCOGS := 0;
                 consumptionLog := _ |}).
  destruct (consumeBatches_appends (date inv) inventory st0)
    as (lines & L1 & L2 & L3).
  simpl. rewrite L1. subst st0. simpl.
  destruct (Qltb EPS_BATCH _).
  - exists lines. eexists. rewrite <- app_assoc.
    split; [reflexivity |]. split; [exact L2 |]. split; [exact L3 |].
    right. eexists. reflexivity.
  - exists lines, []. rewrite app_nil_r.
    split; [reflexivity |]. split; [exact L2 |]. split; [exact L3 |].
    left. reflexivity.
Qed.

(** ** Aging: where the bucket boundaries lie *)

(** X27: the aging bucket of a batch is decided by the time between its
    date and now, in either direction: up to 7 days "0-7", more than 7
    and up to 15 days "8-15", more than 15 and up to 30 days "16-30",
    more than 30 days "30+"; a part of a day counts as a whole day.  A
    batch whose date the runtime cannot read is put in "30+". *)
Theorem aging_bucket_boundaries (getTime : string -> option Z) (now : Z)
    (b : InventoryBatch) :
  let bucket := bucketOf (diffDays getTime now b) in
  match getTime (batchDate b) with
  | Some t =>
      let elapsed := Z.abs (now - t) in
      (bucket = "0-7" <-> (elapsed <= 7 * 86400000)%Z)
      /\ (bucket = "8-15"
          <-> (7 * 86400000 < elapsed /\ elapsed <= 15 * 86400000)%Z)
      /\ (bucket = "16-30"
          <-> (15 * 86400000 < elapsed /\ elapsed <= 30 * 86400000)%Z)
      /\ (bucket = "30+" <-> (30 * 86400000 < elapsed)%Z)
  | None => bucket = "30+"
  end.
Proof.
  cbv zeta. unfold diffDays, bucketOf.
  destruct (getTime (batchDate b)) as [t |]; [| reflexivity].
  set (elapsed := Z.abs (now - t)).
  pose proof (days_le_iff elapsed 7) as H7.
  pose proof (days_le_iff elapsed 15) as H15.
  pose proof (days_le_iff elapsed 30) as H30.
  set (d := Qceiling (inject_Z elapsed / MS_PER_DAY)) in *.
  destruct (Z.leb_spec d 7); [| destruct (Z.leb_spec d 15);
                                [| destruct (Z.leb_spec d 30)]];
    repeat split; intros; try discriminate; try lia.
Qed.

(** ** The replay: annotations of the input are ignored *)

Lemma compareInvoices_inputFields (a a' b b' : Invoice) :
  inputFields a = inputFields a' -> inputFields b = inputFields b' ->
  compareInvoices a b = compareInvoices a' b'.
Proof.
  unfold inputFields, compareInvoices. intros Ha Hb.
  injection Ha as Ha1 Ha2 _ _ _ _ _ _ _ Ha3.
  injection Hb as Hb1 Hb2 _ _ _ _ _ _ _ Hb3.
  rewrite Ha1, Ha2, Ha3, Hb1, Hb2, Hb3. reflexivity.
Qed.

Lemma insertSorted_same_input (x x' : Invoice) (l l' : list Invoice) :
  inputFields x = inputFields x' ->
  Forall2 (fun a b => inputFields a = inputFields b) l l' ->
  Forall2 (fun a b => inputFields a = inputFields b)
    (insertSorted compareInvoices x l) (insertSorted compareInvoices x' l').
Proof.
  intros Hx. induction 1 as [| y y' l l' Hy Hl IH]; simpl.
  - constructor; [exact Hx | constructor].
  - rewrite (compareInvoices_inputFields x x' y y' Hx Hy).
    destruct (compareInvoices x' y'); repeat (constructor; try assumption).
Qed.

Lemma sortBy_same_input (l l' : list Invoice) :
  Forall2 (fun a b => inputFields a = inputFields b) l l' ->
  Forall2 (fun a b => inputFields a = inputFields b)
    (sortBy compareInvoices l) (sortBy compareInvoices l').
Proof.
  induction 1 as [| x x' l l' Hx Hl IH]; simpl; [constructor |].
  apply insertSorted_same_input; assumption.
Qed.

Lemma replayStep_same_input (s : list InventoryBatch * list Invoice)
    (a b : Invoice) :
  inputFields a = inputFields b -> replayStep s a = replayStep s b.
Proof.
  destruct a, b. unfold inputFields. simpl. intros H.
  injection H as -> -> -> -> -> -> -> -> -> ->. reflexivity.
Qed.

Lemma replay_same_input (l l' : list Invoice) :
  Forall2 (fun a b => inputFields a = inputFields b) l l' ->
  forall s, fold_left replayStep l s = fold_left replayStep l' s.
Proof.
  induction 1 as [| x x' l l' Hx Hl IH]; intros s; simpl; [reflexivity |].
  rewrite (replayStep_same_input s x x' Hx). apply IH.
Qed.

(** X28: the replay reads only the fields the caller supplies: two
    collections that agree on them, record by record, give the same
    result, whatever cost, profit or trace their records already carry.
    Re-running the replay on annotated transactions, as the application
    does when an invoice is added, therefore never reuses an old
    annotation. *)
Theorem replay_ignores_old_annotations (invoices invoices' : list Invoice)
    (Hsame : map inputFields invoices = map inputFields invoices') :
  recalculateAllData invoices = recalculateAllData invoices'.
Proof.
  assert (H2 : Forall2 (fun a b => inputFields a = inputFields b)
                 invoices invoices').
  { revert invoices' Hsame.
    induction invoices as [| x l IH]; intros [| y l'] H; simpl in H;
      try discriminate; [constructor |].
    assert (Hx : inputFields x = inputFields y) by congruence.
    assert (Hl : map inputFields l = map inputFields l') by congruence.
    constructor; [exact Hx | apply IH, Hl]. }
  rewrite !recalculateAllData_eq.
  rewrite (replay_same_input _ _ (sortBy_same_input _ _ H2)). reflexivity.
Qed.

Lemma replay_ignores_old_annotations_witness :
  recalculateAllData ledgerA = recalculateAllData ledgerAStale.
Proof.
  apply (replay_ignores_old_annotations ledgerA ledgerAStale).
  vm_compute. reflexivity.
Defined.

(** ** Aging: the average age *)

Section AgingAverage.
Variable getTime : string -> option Z.
Variable now : Z.

Lemma weighted_age_bounds (lo hi : Z) (l : list InventoryBatch) :
  (forall b, In b l ->
     0 < remainingQuantity b
     /\ exists t, getTime (batchDate b) = Some t
                  /\ (lo <= ceilingDayAge now t <= hi)%Z) ->
  exists sum,
    weightedAgeSum getTime now l = Some sum
    /\ inject_Z lo * sumQ (map remainingQuantity l) <= sum
    /\ sum <= inject_Z hi * sumQ (map remainingQuantity l).
Proof.
  induction l as [| b l IH]; intros H; simpl.
  - exists 0. split; [reflexivity |]. split; lra.
  - destruct (H b (or_introl eq_refl)) as (Hq & t & Ht & Hlo & Hhi).
    destruct IH as (sum & -> & I1 & I2);
      [intros x Hx; apply H; right; exact Hx |].
    unfold batchAge. rewrite Ht. eexists. split; [reflexivity |].
    rewrite Zle_Qle in Hlo, Hhi. split; nra.
Qed.

(** X29: when there is an active batch and the runtime can read the date
    of every active batch, the weighted average age that the aging
    computation reports is a number of days that is not negative and
    lies between the youngest and the oldest age among the active
    batches. *)
Theorem aging_average_between_ages (inventory : list InventoryBatch)
    (lo hi : Z)
    (Hactive : activeBatches inventory <> [])
    (Hages : forall b, In b (activeBatches inventory) ->
               exists t, getTime (batchDate b) = Some t
                         /\ (lo <= ceilingDayAge now t <= hi)%Z) :
  exists w,
    weightedAvgDays (calculateStockAging getTime now inventory) = Fin w
    /\ 0 <= w /\ inject_Z lo <= w /\ w <= inject_Z hi.
Proof.
  unfold calculateStockAging.
  set (acc0 := {| accBuckets := emptyBuckets; totalDaysWeighted := Some 0;
                  totalStock := 0 |}).
  destruct (aging_fold getTime now inventory acc0) as (H1 & H2 & _).
  simpl in H1, H2. simpl weightedAvgDays.
  destruct (active_total_positive inventory) as [Hpos _].
  specialize (Hpos Hactive).
  assert (Hb : forall lo' hi' : Z,
            (forall b, In b (activeBatches inventory) ->
               exists t, getTime (batchDate b) = Some t
                         /\ (lo' <= ceilingDayAge now t <= hi')%Z) ->
            exists sum,
              weightedAgeSum getTime now (activeBatches inventory) = Some sum
              /\ inject_Z lo'
                 * sumQ (map remainingQuantity (activeBatches inventory))
                 <= sum
              /\ sum <= inject_Z hi'
                        * sumQ (map remainingQuantity (activeBatches inventory))).
  { intros lo' hi' Hr. apply weighted_age_bounds. intros b Hin.
    split; [| apply Hr, Hin].
    unfold activeBatches in Hin. apply filter_In in Hin.
    apply Qltb_true, Hin. }
  destruct (Hb lo hi Hages) as (sum & Hsum & B1 & B2).
  destruct (Hb 0%Z hi) as (sum0 & Hsum0 & B0 & _).
  { intros b Hin. destruct (Hages b Hin) as (t & Ht & Hlo & Hhi).
    exists t. split; [exact Ht |].
    split; [apply ceilingDayAge_nonneg | exact Hhi]. }
  rewrite Hsum in Hsum0. injection Hsum0 as <-.
  unfold daysWeightedAfter in H2. rewrite Hsum in H2.
  destruct (totalDaysWeighted (fold_left _ inventory acc0)) as [tdw |];
    [| contradiction].
  set (ts := totalStock (fold_left (agingStep getTime now) inventory acc0)) in *.
  assert (Hts : 0 < ts) by lra.
  rewrite (proj2 (Qltb_true 0 ts) Hts). simpl.
  rewrite (jsDiv_positive _ _ Hts).
  eexists. split; [reflexivity |].
  change (inject_Z 0) with 0 in B0.
  split; [| split].
  - apply Qle_shift_div_l; [exact Hts | rewrite H1, H2; lra].
  - apply Qle_shift_div_l; [exact Hts | rewrite H1, H2; lra].
  - apply Qle_shift_div_r; [exact Hts | rewrite H1, H2; lra].
Qed.
End AgingAverage.

Lemma aging_average_between_ages_witness :
  exists w,
    weightedAvgDays
      (calculateStockAging sampleTime 1704412800000 twoBatches) = Fin w
    /\ 0 <= w /\ inject_Z 3 <= w /\ w <= inject_Z 4.
Proof.
  apply (aging_average_between_ages sampleTime 1704412800000 twoBatches 3 4).
  - vm_compute. discriminate.
  - intros b Hb. vm_compute in Hb.
    destruct Hb as [<- | [<- | []]]; eexists;
      (split; [vm_compute; reflexivity | vm_compute; split; discriminate]).
Defined.

(** On [twoBatches], five days into January, the 10 g of the first are
    four days old and the 5 g of the second three: the average is
    55 / 15 days. *)
Example aging_average_sample :
  exists w,
    weightedAvgDays
      (calculateStockAging sampleTime 1704412800000 twoBatches) = Fin w
    /\ w == 55 # 15.
Proof. eexists. split; [vm_compute; reflexivity | reflexivity]. Qed.
